(** * Harry Potter character quiz: a shallow embedding of [App7.py]

    The Streamlit script [App7.py] is re-executed from top to bottom on
    every user interaction.  One execution is modelled by [script_run], a
    function over an explicit world: the per-session [st.session_state],
    the Excel workbook on disk, the state of Python's [random] module and
    the list of elements the run has put on the page.  The three trained
    artifacts and the quiz table are read-only inputs ([Env]).

    Library behaviour the script relies on is written out next to its
    first use: [random.shuffle] (Fisher-Yates over [randbelow]),
    [DataFrame.sample(frac=1)], [LabelEncoder.transform] and
    [inverse_transform], [pd.concat], and the Streamlit widgets.  What
    [pd.read_excel] makes of a file and how writing the sheets back
    ends are inputs carried by the file ([Disk]).  The title, the rules
    and the closing line of the page carry no state and are left
    out. *)

From Stdlib Require Import Ascii.
From stdpp Require Import gmap strings list fin_maps pretty sorting.

Open Scope string_scope.
Open Scope list_scope.
Open Scope nat_scope.
Set Warnings "-abstract-large-number".

(** ** Python's [random] module *)

Module Random.

(** The hidden generator state: the raw draws still to come.  An
    exhausted generator keeps answering 0. *)
Definition state := list nat.

(** [_randbelow(n)]: one draw, reduced into [0, n). *)
Definition randbelow (n : nat) (g : state) : nat * state :=
  match g with
  | [] => (0, [])
  | d :: g' => (d `mod` n, g')
  end.

(** [random.randint(a, b)] is [a + _randbelow(b - a + 1)]. *)
Definition randint (a b : nat) (g : state) : nat * state :=
  let '(r, g') := randbelow (b - a + 1) g in (a + r, g').

(** [x[i], x[j] = x[j], x[i]] on a list. *)
Definition swap {A} (i j : nat) (x : list A) : list A :=
  match x !! i, x !! j with
  | Some a, Some b => <[j:=a]> (<[i:=b]> x)
  | _, _ => x
  end.

(** The loop of [random.shuffle]:
    [for i in reversed(range(1, len(x))): j = randbelow(i + 1); swap].
    [shuffle_from n] runs it for [i = n, n-1, ..., 1]. *)
Fixpoint shuffle_from {A} (n : nat) (x : list A) (g : state) : list A * state :=
  match n with
  | 0 => (x, g)
  | S m =>
      let '(j, g') := randbelow (S n) g in
      shuffle_from m (swap n j x) g'
  end.

Definition shuffle {A} (x : list A) (g : state) : list A * state :=
  shuffle_from (length x - 1) x g.

End Random.

(** ** The quiz table *)

(** One row of the sheet [questions_and_answers] after [load_quiz_data]
    has renamed the columns. *)
Record QuestionRow := {
  Question : string;
  Option_A : string;
  Option_B : string;
  Option_C : string;
  Option_D : string;
  Option_E : string
}.

(** [numpy.random.RandomState(seed)] is not part of the repository: the
    draws it produces for a seed are an input of the model. *)
Definition NumpyRandomState := nat → Random.state.

(** [df.sample(frac=1, random_state=seed).reset_index(drop=True)]: the
    row positions [0..n-1] are permuted by the seeded generator, the rows
    are taken in that order and renumbered from 0, which forgets where
    each row came from. *)
Definition sample_locs (np : NumpyRandomState) (seed n : nat) : list nat :=
  (Random.shuffle (seq 0 n) (np seed)).1.

Definition take_rows {A} (df : list A) (locs : list nat) : list A :=
  omap (λ k, df !! k) locs.

Definition sample_frac1 {A} (np : NumpyRandomState) (seed : nat) (df : list A) : list A :=
  take_rows df (sample_locs np seed (length df)).

(** ** scikit-learn's [LabelEncoder] *)

(** [list.index(y)]: the first position holding [y]; [None] stands for
    the [ValueError] Python raises when there is none. *)
Fixpoint index_of (y : string) (l : list string) : option nat :=
  match l with
  | [] => None
  | x :: l' => if decide (x = y) then Some 0 else S <$> index_of y l'
  end.

(** A fitted encoder is its sorted vocabulary [classes_]. *)
Record LabelEncoder := { classes_ : list string }.

(** [le.transform([y])[0]]; [None] is the [ValueError] for a label that
    was not seen when the encoder was fitted. *)
Definition transform (le : LabelEncoder) (y : string) : option nat :=
  index_of y (classes_ le).

(** [le.inverse_transform([k])[0]]; [None] is the [ValueError] for a
    code outside the vocabulary. *)
Definition inverse_transform (le : LabelEncoder) (k : nat) : option string :=
  classes_ le !! k.

(** The three artifacts returned by [load_resources].  The classifier is
    opaque: [model] is [model.predict(input_df)[0]] on a one-row frame
    given as its (column, value) pairs in column order, [None] when
    [predict] raises. *)
Record Resources := {
  model : list (string * nat) → option nat;
  label_encoders : gmap string LabelEncoder;
  target_le : LabelEncoder
}.

Definition feature_cols : list string := ["A1"; "A2"; "A3"; "A4"; "A5"].

(** ** Frames and the workbook *)

(** A frame is its column labels and its rows; a row maps a column label
    to the cell, a missing label being an empty (NaN) cell. *)
Record DataFrame := {
  columns : list string;
  rows : list (gmap string string)
}.

(** [pd.DataFrame(columns=cols)] *)
Definition empty_frame (cols : list string) : DataFrame :=
  {| columns := cols; rows := [] |}.

(** [pd.DataFrame([data], columns=cols)]; [None] is the [ValueError]
    raised when the row and the header differ in length. *)
Definition one_row_frame (data cols : list string) : option DataFrame :=
  if decide (length data = length cols)
  then Some {| columns := cols; rows := [list_to_map (zip cols data)] |}
  else None.

(** [pd.concat([a, b], ignore_index=True)]: the rows of [a] then those
    of [b], over the union of the columns. *)
Definition concat (a b : DataFrame) : DataFrame :=
  {| columns := columns a ++ filter (λ c, c ∉ columns a) (columns b);
     rows := rows a ++ rows b |}.

(** [pd.read_excel(path, sheet_name=None)] gives a dict from sheet name
    to frame, in sheet order. *)
Abbreviation Workbook := (list (string * DataFrame)).

(** [all_sheets.get(name)] *)
Fixpoint sheet_get (name : string) (wb : Workbook) : option DataFrame :=
  match wb with
  | [] => None
  | (n, df) :: wb' => if decide (n = name) then Some df else sheet_get name wb'
  end.

(** [all_sheets[name] = df]: an existing key keeps its place, a new one
    goes last. *)
Fixpoint sheet_set (name : string) (df : DataFrame) (wb : Workbook) : Workbook :=
  match wb with
  | [] => [(name, df)]
  | (n, d) :: wb' =>
      if decide (n = name) then (n, df) :: wb' else (n, d) :: sheet_set name df wb'
  end.

(** The Excel file as [pandas] and [openpyxl] see it.  [workbook] is
    the sheets the file was last written from ([None] when there is no
    file that can be read) and [writable] tells whether the file can be
    opened for writing.  The two library steps of the recorder are
    inputs.  [read_excel] is what [pd.read_excel(path, sheet_name=None)]
    returns for a file holding the given sheets: it need not be the
    sheets as written, since the reader parses every cell anew and
    makes the headers unique; [None] when it raises.  [to_excel] tells
    how writing the given sheets ends: [None] when every [df.to_excel]
    goes through and the file holds these sheets, [Some remains] when one
    of them raises, [remains] being what the file holds afterwards. *)
Record Disk := {
  workbook : option Workbook;
  writable : bool;
  read_excel : Workbook → option Workbook;
  to_excel : Workbook → option (option Workbook)
}.

(** The file with other content. *)
Definition with_workbook (content : option Workbook) (d : Disk) : Disk :=
  {| workbook := content; writable := writable d;
     read_excel := read_excel d; to_excel := to_excel d |}.

(** ** What a run puts on the page *)

Inductive Notice :=
| ResourceLoadFailed                       (* lines 28, 31 *)
| QuizDataLoadFailed                       (* lines 43, 46 *)
| SaveSubmissionFailed                     (* line 64 *)
| AnswerAllQuestions                       (* line 216 *)
| EncoderNotFound (col_name : string)      (* line 222 *)
| UnseenAnswer (coded_ans col_name : string) (* line 229 *)
| SaveResultsFailed                        (* line 250 *)
| UnexpectedError                          (* line 253 *)
| CheckYourInput                           (* line 254 *)
| EnterYourName                            (* line 256 *)
| YouAreMostLike (user_name_display predicted_character : string) (* line 264 *)
| ImageLoadFailed (predicted_character path : string)  (* line 281 *)
| ImageNotFound (predicted_character : string)         (* line 283 *)
| ResultsMissing.                          (* line 286 *)

Inductive Element :=
| st_error (n : Notice)
| st_warning (n : Notice)
| st_info (n : Notice)
| st_success (n : Notice)
| st_text_input (value : string)
| st_radio (i : nat) (question : string) (options : list string) (index : nat)
| st_button (label : string)
| st_image (path caption : string)
| st_markdown (body : string)
| st_share_link (predicted_character : string).   (* lines 293-320 *)

(** Calls that leave the script: the classifier and the recorder. *)
Inductive Call :=
| call_predict (input_df : list (string * nat))
| call_update_user_submissions (new_entry_df : DataFrame).

(** [update_user_submissions]: read every sheet, append the entry to
    [user_submissions] (created when absent), write every sheet back.
    Any exception is reported on the page and turned into [False].  A
    read that raises, like a file that cannot be opened for writing,
    leaves the file as it was; a [to_excel] that raises leaves what the
    writer had got to. *)
Definition update_user_submissions (new_entry_df : DataFrame) (d : Disk)
  : bool * Disk * list Element :=
  match workbook d ≫= read_excel d with
  | None => (false, d, [st_error SaveSubmissionFailed])
  | Some all_sheets =>
      let user_sub_df :=
        default (empty_frame (columns new_entry_df))
                (sheet_get "user_submissions" all_sheets) in
      let user_sub_df := concat user_sub_df new_entry_df in
      let all_sheets := sheet_set "user_submissions" user_sub_df all_sheets in
      if writable d
      then
        match to_excel d all_sheets with
        | None => (true, with_workbook (Some all_sheets) d, [])
        | Some remains =>
            (false, with_workbook remains d, [st_error SaveSubmissionFailed])
        end
      else (false, d, [st_error SaveSubmissionFailed])
  end.

(** ** Session state *)

(** [st.session_state]: each field is a key of the dict, [None] when the
    key is absent.  [option_mappings] holds the keys [q_{i}_mapping],
    indexed like [q_{i}]. *)
Record SessionState := {
  quiz_selections_display : option (gmap string string);
  quiz_submitted : option bool;
  user_name_input : option string;
  shuffled_questions_df : option (list QuestionRow);
  shuffled_options_map : option (gmap string (list (string * string)));
  option_mappings : gmap string (gmap string string);
  predicted_character : option string;
  user_name_display : option string
}.

(** A session that has not run the script yet. *)
Definition new_session : SessionState :=
  {| quiz_selections_display := None; quiz_submitted := None;
     user_name_input := None; shuffled_questions_df := None;
     shuffled_options_map := None; option_mappings := ∅;
     predicted_character := None; user_name_display := None |}.

(** [reset_quiz_state], the callback of "Take Quiz Again". *)
Definition reset_quiz_state (ss : SessionState) : SessionState :=
  {| quiz_submitted := Some false;
     user_name_input := Some "";
     quiz_selections_display := Some ∅;
     shuffled_questions_df := None;
     shuffled_options_map := None;
     option_mappings := option_mappings ss;
     predicted_character := predicted_character ss;
     user_name_display := user_name_display ss |}.

(** Lines 107-112: defaults for the keys that are absent. *)
Definition init_session_state (ss : SessionState) : SessionState :=
  {| quiz_selections_display := Some (default ∅ (quiz_selections_display ss));
     quiz_submitted := Some (default false (quiz_submitted ss));
     user_name_input := Some (default "" (user_name_input ss));
     shuffled_questions_df := shuffled_questions_df ss;
     shuffled_options_map := shuffled_options_map ss;
     option_mappings := option_mappings ss;
     predicted_character := predicted_character ss;
     user_name_display := user_name_display ss |}.

(** Lines 117-129.  A first unsubmitted run draws a seed, samples the
    question order and starts an empty option map; every other run reads
    both back.  [None] is the [AttributeError] of reading a key that is
    not in the session. *)
Definition shuffling_logic (np : NumpyRandomState)
    (original_questions_df : list QuestionRow)
    (ss : SessionState) (g : Random.state)
  : option (SessionState * Random.state) :=
  let '(ss, g) :=
    match default false (quiz_submitted ss), shuffled_questions_df ss with
    | false, None =>
        let '(seed, g') := Random.randint 0 10000 g in
        ({| shuffled_questions_df :=
              Some (sample_frac1 np seed original_questions_df);
            shuffled_options_map := Some ∅;
            quiz_selections_display := quiz_selections_display ss;
            quiz_submitted := quiz_submitted ss;
            user_name_input := user_name_input ss;
            option_mappings := option_mappings ss;
            predicted_character := predicted_character ss;
            user_name_display := user_name_display ss |}, g')
    | _, _ => (ss, g)
    end in
  match shuffled_questions_df ss, shuffled_options_map ss with
  | Some _, Some _ => Some (ss, g)
  | _, _ => None
  end.

(** ** One question of the form *)

Definition PLACEHOLDER : string := "--- Please Select ---".
Definition INVALID : string := "INVALID".

(** The key [f"q_{i}"]. *)
Definition q_key (i : nat) : string := "q_" +:+ pretty i.

(** [list(original_options.items())] *)
Definition original_options (row : QuestionRow) : list (string * string) :=
  [("A", Option_A row); ("B", Option_B row); ("C", Option_C row);
   ("D", Option_D row); ("E", Option_E row)].

(** [chr(ord('A') + idx)] *)
Definition display_label (idx : nat) : string :=
  String (Ascii.ascii_of_nat (65 + idx)) "".

(** [f"{display_label}. {option_text}"] *)
Definition display_string (idx : nat) (option_text : string) : string :=
  display_label idx +:+ ". " +:+ option_text.

(** Lines 173-177, from position [idx] on: the display strings are
    appended to the option list and entered in the mapping from display
    string to model code, a later entry replacing an earlier one under
    the same string. *)
Fixpoint label_options (idx : nat) (option_pairs : list (string * string))
    (display_options : list string) (mapping : gmap string string)
  : list string * gmap string string :=
  match option_pairs with
  | [] => (display_options, mapping)
  | (model_code, option_text) :: rest =>
      let s := display_string idx option_text in
      label_options (S idx) rest (display_options ++ [s]) (<[s:=model_code]> mapping)
  end.

(** Lines 184-190: the stored display string is looked up in the option
    list, position 0 when it is not there. *)
Definition restore_index (display_options : list string)
    (stored_display_string : string) : nat :=
  match index_of stored_display_string display_options with
  | Some k => k
  | None => 0
  end.

(** What the user does between two runs. *)
Record UserInput := {
  typed_name : option string;      (* the name box was edited to this *)
  radio_click : nat → option nat;  (* option position clicked for question i *)
  submit_click : bool;             (* "Submit My Answers" *)
  again_click : bool               (* "Take Quiz Again" *)
}.

Definition no_input : UserInput :=
  {| typed_name := None; radio_click := λ _, None;
     submit_click := false; again_click := false |}.

(** [st.radio(label, options, index=index, key=f"q_{i}")] returns one of
    [options]: the one the user clicked, else the one at [index]. *)
Definition radio (u : UserInput) (i : nat) (options : list string) (index : nat)
  : string :=
  let shown := default PLACEHOLDER (options !! index) in
  match radio_click u i with
  | Some k => default shown (options !! k)
  | None => shown
  end.

(** The state the loop over the questions carries: the two session
    dicts it mutates through their aliases, the key [q_{i}_mapping]
    family, the generator, the widgets drawn, and its two locals. *)
Record Loop := {
  options_map : gmap string (list (string * string));
  selections : gmap string string;
  mappings : gmap string (gmap string string);
  loop_rng : Random.state;
  widgets : list Element;
  current_answers_for_model : list string;
  quiz_is_complete : bool
}.

(** Lines 161-166: shuffle once, then reuse what is stored. *)
Definition option_order (key : string) (row : QuestionRow)
    (m : gmap string (list (string * string))) (g : Random.state)
  : list (string * string) * gmap string (list (string * string)) * Random.state :=
  match m !! key with
  | None =>
      let '(option_pairs, g') := Random.shuffle (original_options row) g in
      (option_pairs, <[key:=option_pairs]> m, g')
  | Some option_pairs => (option_pairs, m, g)
  end.

(** Lines 201-206. *)
Definition coded_answer_of (current_question_option_mapping : gmap string string)
    (selected_display_option : string) : string :=
  if decide (selected_display_option = PLACEHOLDER) then INVALID
  else default INVALID (current_question_option_mapping !! selected_display_option).

(** The body of the loop, lines 147-211, for the row at index [i]. *)
Definition render_question (u : UserInput) (i : nat) (row : QuestionRow)
    (s : Loop) : Loop :=
  let key := q_key i in
  let '(option_pairs, options_map', g') :=
    option_order key row (options_map s) (loop_rng s) in
  let '(display_options_with_placeholder, current_question_option_mapping) :=
    label_options 0 option_pairs [PLACEHOLDER] ∅ in
  let mappings' :=
    match mappings s !! key with
    | None => <[key:=current_question_option_mapping]> (mappings s)
    | Some _ => mappings s
    end in
  let stored_display_string := default PLACEHOLDER (selections s !! key) in
  let current_selection_index :=
    restore_index display_options_with_placeholder stored_display_string in
  let selected_display_option :=
    radio u i display_options_with_placeholder current_selection_index in
  let coded_answer :=
    coded_answer_of current_question_option_mapping selected_display_option in
  {| options_map := options_map';
     selections := <[key:=selected_display_option]> (selections s);
     mappings := mappings';
     loop_rng := g';
     widgets := widgets s ++
       [st_radio i (Question row) display_options_with_placeholder
                 current_selection_index];
     current_answers_for_model := current_answers_for_model s ++ [coded_answer];
     quiz_is_complete :=
       if decide (coded_answer = INVALID) then false else quiz_is_complete s |}.

(** [for i, row in questions_df_for_display.iterrows()], from index [i]. *)
Fixpoint question_loop (u : UserInput) (i : nat) (rows : list QuestionRow)
    (s : Loop) : Loop :=
  match rows with
  | [] => s
  | row :: rest => question_loop u (S i) rest (render_question u i row s)
  end.

(** ** The world of a run *)

Record World := {
  session : SessionState;
  disk : Disk;
  rng : Random.state;
  page : list Element;   (* what this run has drawn so far *)
  calls : list Call      (* classifier and recorder calls, all runs *)
}.

(** How a run of the script ends.  [st.stop()] and [st.rerun()] raise
    Streamlit's control exceptions, which are not [Exception]s and pass
    through [except Exception]; [Uncaught] is a Python exception that no
    handler of the script catches. *)
Inductive Control :=
| Finished
| StopException
| RerunException
| Uncaught (exc : string).

Definition put (els : list Element) (w : World) : World :=
  {| session := session w; disk := disk w; rng := rng w;
     page := page w ++ els; calls := calls w |}.

Definition call (c : Call) (w : World) : World :=
  {| session := session w; disk := disk w; rng := rng w;
     page := page w; calls := calls w ++ [c] |}.

Definition with_session (ss : SessionState) (w : World) : World :=
  {| session := ss; disk := disk w; rng := rng w;
     page := page w; calls := calls w |}.

Definition with_disk (d : Disk) (w : World) : World :=
  {| session := session w; disk := d; rng := rng w;
     page := page w; calls := calls w |}.

Definition with_rng (g : Random.state) (w : World) : World :=
  {| session := session w; disk := disk w; rng := g;
     page := page w; calls := calls w |}.

(** ** The submit handler *)

(** Lines 219-232: each feature column is paired with the answer at the
    same position of [current_answers_for_model] and encoded by the
    column's encoder. *)
Inductive Encoding :=
| Encoded (encoded_input_dict : list (string * nat))
| MissingEncoder (col_name : string)
| UnseenCategory (coded_ans col_name : string).

Fixpoint encode_answers (encoders : gmap string LabelEncoder)
    (pairs : list (string * string)) (encoded_input_dict : list (string * nat))
  : Encoding :=
  match pairs with
  | [] => Encoded encoded_input_dict
  | (col_name, coded_ans) :: rest =>
      match encoders !! col_name with
      | None => MissingEncoder col_name
      | Some le =>
          match transform le coded_ans with
          | None => UnseenCategory coded_ans col_name
          | Some encoded_val =>
              encode_answers encoders rest
                (encoded_input_dict ++ [(col_name, encoded_val)])
          end
      end
  end.

Definition submission_columns : list string :=
  ["Name"] ++ feature_cols ++ ["Predicted_Character"].

(** Lines 243-248: the three keys written once the entry is saved. *)
Definition mark_submitted (user_name predicted : string) (ss : SessionState)
  : SessionState :=
  {| quiz_submitted := Some true;
     predicted_character := Some predicted;
     user_name_display := Some user_name;
     quiz_selections_display := quiz_selections_display ss;
     user_name_input := user_name_input ss;
     shuffled_questions_df := shuffled_questions_df ss;
     shuffled_options_map := shuffled_options_map ss;
     option_mappings := option_mappings ss |}.

(** Lines 252-254. *)
Definition unexpected (w : World) : Control * World :=
  (Finished, put [st_error UnexpectedError; st_info CheckYourInput] w).

(** Lines 215-254, run when "Submit My Answers" was clicked. *)
Definition submit_handler (res : Resources) (user_name : string)
    (current_answers_for_model : list string) (quiz_is_complete : bool)
    (w : World) : Control * World :=
  if negb quiz_is_complete then
    (Finished, put [st_warning AnswerAllQuestions] w)
  else
    match encode_answers (label_encoders res)
            (zip feature_cols current_answers_for_model) [] with
    | MissingEncoder col_name =>
        (StopException, put [st_error (EncoderNotFound col_name)] w)
    | UnseenCategory coded_ans col_name =>
        (StopException, put [st_error (UnseenAnswer coded_ans col_name)] w)
    | Encoded input_df =>
        let w := call (call_predict input_df) w in
        match model res input_df with
        | None => unexpected w
        | Some predicted_code =>
            match inverse_transform (target_le res) predicted_code with
            | None => unexpected w
            | Some predicted =>
                match one_row_frame
                        ([user_name] ++ current_answers_for_model ++ [predicted])
                        submission_columns with
                | None => unexpected w
                | Some new_entry_df =>
                    let w := call (call_update_user_submissions new_entry_df) w in
                    let '(saved, d, els) :=
                      update_user_submissions new_entry_df (disk w) in
                    let w := put els (with_disk d w) in
                    if saved then
                      (RerunException,
                       with_session (mark_submitted user_name predicted (session w)) w)
                    else (Finished, put [st_error SaveResultsFailed] w)
                end
            end
        end
    end.

(** ** The results view *)

Definition character_descriptions : gmap string string :=
  list_to_map
    [("Harry Potter", "With unshakable courage and a heart that leaps to protect, Harry faces danger head-on, leading the way into every adventure, always guided by the unwavering light of doing what’s right.");
     ("Hermione Granger", "With brilliance in her mind and honesty in her heart, Hermione finds answers in books and logic, creating thoughtful plans that transform curiosity into power");
     ("Ron Weasley", "With loyalty as his compass and humor as his shield, Ron may stumble in panic, but he always stands by those he loves, offering the warmth of friendship above all.");
     ("Draco Malfoy", "Driven by ambition and influence, Draco plays life like a chessboard, crafting strategies to turn every challenge into an opportunity for power and success.");
     ("Neville Longbottom", "Gentle yet steadfast, Neville grows stronger with every struggle, turning kindness and perseverance into quiet acts of bravery that prove doubters wrong.")].

(** What the script reads besides the session: the cached results of
    [load_resources] and [load_quiz_data] ([None] when loading raised
    and the run was stopped), numpy's seeded generator, and the image
    folder. *)
Record Env := {
  load_resources : option Resources;
  load_quiz_data : option (list QuestionRow);
  numpy_random_state : NumpyRandomState;
  path_exists : string → bool;
  image_opens : string → bool
}.

(** Lines 260-322.  The share text reads the local [predicted_character],
    which is bound only when both keys are in the session. *)
Definition show_results (env : Env) (w : World) : Control * World :=
  match predicted_character (session w), user_name_display (session w) with
  | Some predicted, Some user_name =>
      let w := put [st_success (YouAreMostLike user_name predicted)] w in
      let desc :=
        default "A truly unique magical being!"
                (character_descriptions !! predicted) in
      let img_path_jpg := "character_images/" +:+ predicted +:+ ".jpg" in
      let img_path_png := "character_images/" +:+ predicted +:+ ".png" in
      let final_image_path :=
        if path_exists env img_path_jpg then Some img_path_jpg
        else if path_exists env img_path_png then Some img_path_png
        else None in
      let w :=
        match final_image_path with
        | Some path =>
            if image_opens env path
            then put [st_image path (predicted +:+ ": " +:+ desc)] w
            else put [st_warning (ImageLoadFailed predicted path)] w
        | None => put [st_warning (ImageNotFound predicted); st_markdown desc] w
        end in
      (Finished, put [st_share_link predicted; st_button "Take Quiz Again"] w)
  | _, _ => (Uncaught "NameError", put [st_error ResultsMissing] w)
  end.

(** ** The quiz form, lines 136-256 *)

(** [st.text_input(..., key="user_name_input")] keeps the content of the
    name box under its key. *)
Definition with_user_name_input (user_name : string) (ss : SessionState)
  : SessionState :=
  {| user_name_input := Some user_name;
     quiz_selections_display := quiz_selections_display ss;
     quiz_submitted := quiz_submitted ss;
     shuffled_questions_df := shuffled_questions_df ss;
     shuffled_options_map := shuffled_options_map ss;
     option_mappings := option_mappings ss;
     predicted_character := predicted_character ss;
     user_name_display := user_name_display ss |}.

Definition quiz_form (res : Resources) (u : UserInput)
    (questions_df_for_display : list QuestionRow)
    (shuffled_options_map0 : gmap string (list (string * string)))
    (w : World) : Control * World :=
  let user_name :=
    match typed_name u with
    | Some s => s
    | None => default "" (user_name_input (session w))
    end in
  let ss := with_user_name_input user_name (session w) in
  let w := put [st_text_input user_name] (with_session ss w) in
  if decide (user_name = "") then (Finished, put [st_info EnterYourName] w)
  else
    let l :=
      question_loop u 0 questions_df_for_display
        {| options_map := shuffled_options_map0;
           selections := default ∅ (quiz_selections_display ss);
           mappings := option_mappings ss;
           loop_rng := rng w;
           widgets := [];
           current_answers_for_model := [];
           quiz_is_complete := true |} in
    let ss :=
      {| quiz_selections_display := Some (selections l);
         shuffled_options_map := Some (options_map l);
         option_mappings := mappings l;
         user_name_input := Some user_name;
         quiz_submitted := quiz_submitted ss;
         shuffled_questions_df := shuffled_questions_df ss;
         predicted_character := predicted_character ss;
         user_name_display := user_name_display ss |} in
    let w :=
      put (widgets l ++ [st_button "Submit My Answers"])
          (with_rng (loop_rng l) (with_session ss w)) in
    if submit_click u
    then submit_handler res user_name (current_answers_for_model l)
                        (quiz_is_complete l) w
    else (Finished, w).

(** ** One run of the script *)

Definition script_run (env : Env) (u : UserInput) (w : World) : Control * World :=
  let w := {| session := session w; disk := disk w; rng := rng w;
              page := []; calls := calls w |} in
  match load_resources env with
  | None => (StopException, put [st_error ResourceLoadFailed] w)
  | Some res =>
      match load_quiz_data env with
      | None => (StopException, put [st_error QuizDataLoadFailed] w)
      | Some original_questions_df =>
          let ss := init_session_state (session w) in
          match shuffling_logic (numpy_random_state env) original_questions_df
                  ss (rng w) with
          | None => (Uncaught "AttributeError", with_session ss w)
          | Some (ss, g) =>
              let w := with_rng g (with_session ss w) in
              if default false (quiz_submitted ss) then show_results env w
              else
                quiz_form res u (default [] (shuffled_questions_df ss))
                          (default ∅ (shuffled_options_map ss)) w
          end
      end
  end.

(** One interaction: the click callback, if any, runs first; then the
    script; [st.rerun()] starts it once more with nothing clicked. *)
Definition interact (env : Env) (u : UserInput) (w : World) : Control * World :=
  let w := if again_click u then with_session (reset_quiz_state (session w)) w
           else w in
  match script_run env u w with
  | (RerunException, w') => script_run env no_input w'
  | r => r
  end.

(** A session is replayed from a fresh world by a list of interactions. *)
Definition new_world (d : Disk) (g : Random.state) : World :=
  {| session := new_session; disk := d; rng := g; page := []; calls := [] |}.

Fixpoint replay (env : Env) (us : list UserInput) (w : World) : World :=
  match us with
  | [] => w
  | u :: us' => replay env us' (interact env u w).2
  end.

(** * Observations and invariants *)

(** The five model codes. *)
Definition codes : list string := ["A"; "B"; "C"; "D"; "E"].

(** The display strings of an option order: label and text, by position. *)
Definition labelled (option_pairs : list (string * string)) : list string :=
  imap (λ k p, display_string k p.2) option_pairs.

(** The display string [st.radio] returns for the row at index [i],
    line 192. *)
Definition selected_option (u : UserInput) (i : nat) (row : QuestionRow)
    (s : Loop) : string :=
  let p := (option_order (q_key i) row (options_map s) (loop_rng s)).1.1 in
  let opts := (label_options 0 p [PLACEHOLDER] ∅).1 in
  radio u i opts
    (restore_index opts (default PLACEHOLDER (selections s !! q_key i))).

(** The option order stored for question [i], if any. *)
Definition option_order_of (i : nat) (ss : SessionState)
  : option (list (string * string)) :=
  shuffled_options_map ss ≫= (.!! q_key i).

(** Every stored option order belongs to a row of the displayed table
    and permutes that row's five (code, text) pairs. *)
Definition options_wf (all_rows : list QuestionRow)
    (m : gmap string (list (string * string))) : Prop :=
  ∀ j p, m !! q_key j = Some p →
    ∃ row, all_rows !! j = Some row ∧ p ≡ₚ original_options row.

(** The option map never outlives the question order. *)
Definition orders_together (ss : SessionState) : Prop :=
  shuffled_questions_df ss = None → shuffled_options_map ss = None.

(** Stored option orders permute the options of their rows. *)
Definition orders_wf (ss : SessionState) : Prop :=
  ∀ rows m, shuffled_questions_df ss = Some rows →
            shuffled_options_map ss = Some m → options_wf rows m.

(** Every radio on the page shows its question's stored order. *)
Definition page_shows_orders (w : World) : Prop :=
  ∀ i q opts idx, st_radio i q opts idx ∈ page w →
    ∃ rows row p,
      shuffled_questions_df (session w) = Some rows ∧
      rows !! i = Some row ∧ q = Question row ∧
      option_order_of i (session w) = Some p ∧
      opts = PLACEHOLDER :: labelled p.

(** The radios of a page. *)
Definition is_radio (el : Element) : Prop :=
  match el with st_radio _ _ _ _ => True | _ => False end.

(** The elements only the quiz form draws. *)
Definition form_widget (el : Element) : Prop :=
  match el with
  | st_radio _ _ _ _ => True
  | st_button label => label = "Submit My Answers"
  | _ => False
  end.

(** The notices the handler can add to the page. *)
Definition is_notice (el : Element) : Prop :=
  match el with
  | st_error _ | st_warning _ | st_info _ => True
  | _ => False
  end.

(** What a run can take from the shuffle manager. *)
Definition shuffle_state (ss : SessionState)
  : option (list QuestionRow) * option (gmap string (list (string * string))) :=
  (shuffled_questions_df ss, shuffled_options_map ss).

(** The loop state without the [q_{i}_mapping] keys, which the loop
    writes and never reads. *)
Definition loop_core (s : Loop) :=
  (options_map s, selections s, loop_rng s, widgets s,
   current_answers_for_model s, quiz_is_complete s).

(** The character lines 219-237 compute for a list of answers, when
    they get that far. *)
Definition predicted_for (res : Resources) (answers : list string)
  : option string :=
  match encode_answers (label_encoders res) (zip feature_cols answers) [] with
  | Encoded input_df => model res input_df ≫= inverse_transform (target_le res)
  | _ => None
  end.

(** The character in an entry handed to the recorder. *)
Definition entry_character (c : Call) : option string :=
  match c with
  | call_update_user_submissions df => head (rows df) ≫= (.!! "Predicted_Character")
  | call_predict _ => None
  end.

(** The characters a step handed to the recorder. *)
Definition characters_produced (before after : World) : list string :=
  omap entry_character (drop (length (calls before)) (calls after)).

(** The code the session holds as the user's answer to the question
    with the given text: the stored selection of that question, mapped
    back through its stored option order. *)
Definition answer_given (ss : SessionState) (question : string) : option string :=
  rows ← shuffled_questions_df ss;
  i ← index_of question (Question <$> rows);
  p ← shuffled_options_map ss ≫= (.!! q_key i);
  selected ← quiz_selections_display ss ≫= (.!! q_key i);
  Some (coded_answer_of (label_options 0 p [PLACEHOLDER] ∅).2 selected).

(** The cells saved under a column of the sheet [user_submissions]. *)
Definition recorded_under (d : Disk) (col : string) : list (option string) :=
  match workbook d ≫= sheet_get "user_submissions" with
  | Some df => (.!! col) <$> rows df
  | None => []
  end.

(** The character a page announces, if it announces one. *)
Fixpoint shown_prediction (pg : list Element) : option string :=
  match pg with
  | [] => None
  | st_success (YouAreMostLike _ predicted) :: _ => Some predicted
  | _ :: pg' => shown_prediction pg'
  end.

Global Instance Notice_eq_dec : EqDecision Notice.
Proof. solve_decision. Defined.

Global Instance Element_eq_dec : EqDecision Element.
Proof. solve_decision. Defined.

(** ** A worked session *)

Module Fixture.

Definition question (n : string) : QuestionRow :=
  {| Question := "Q" +:+ n;
     Option_A := n +:+ "a"; Option_B := n +:+ "b"; Option_C := n +:+ "c";
     Option_D := n +:+ "d"; Option_E := n +:+ "e" |}.

Definition questions : list QuestionRow :=
  [question "1"; question "2"; question "3"; question "4"; question "5"].

Definition encoder : LabelEncoder := {| classes_ := ["A"; "B"; "C"; "D"; "E"] |}.

Definition characters : LabelEncoder :=
  {| classes_ := ["Draco Malfoy"; "Harry Potter"; "Hermione Granger";
                  "Neville Longbottom"; "Ron Weasley"] |}.

(** A stand-in classifier: the class is the first feature. *)
Definition classifier (input_df : list (string * nat)) : option nat :=
  match input_df with
  | [(_, a1); _; _; _; _] => Some a1
  | _ => None
  end.

Definition artifacts : Resources :=
  {| model := classifier;
     label_encoders := list_to_map ((λ c, (c, encoder)) <$> feature_cols);
     target_le := characters |}.

Definition env : Env :=
  {| load_resources := Some artifacts;
     load_quiz_data := Some questions;
     numpy_random_state := λ seed, [seed; 3; 1; 0];
     path_exists := λ _, false;
     image_opens := λ _, false |}.

Definition sheets : Workbook :=
  [("questions_and_answers", empty_frame ["Question"]);
   ("answers_training_data", empty_frame ("Character" :: feature_cols))].

(** A file that is read back as it was written and takes every entry,
    and the same file when it cannot be opened for writing. *)
Definition file : Disk :=
  {| workbook := Some sheets; writable := true;
     read_excel := Some; to_excel := λ _, None |}.
Definition locked_file : Disk :=
  {| workbook := Some sheets; writable := false;
     read_excel := Some; to_excel := λ _, None |}.

Definition draws : Random.state :=
  [7; 1; 2; 3; 4; 0; 1; 2; 3; 4; 5; 6; 7; 8; 9; 10; 11; 12; 13; 14; 15; 16;
   17; 18; 19; 20].

Definition enter_name : UserInput :=
  {| typed_name := Some "Ann"; radio_click := λ _, None;
     submit_click := false; again_click := false |}.

(** The user clicks the option at display position [i + 1] of question
    [i] and submits. *)
Definition answer_and_submit : UserInput :=
  {| typed_name := None; radio_click := λ i, Some (S i);
     submit_click := true; again_click := false |}.

(** The user answers all questions but the third and submits. *)
Definition skip_one_and_submit : UserInput :=
  {| typed_name := None;
     radio_click := λ i, if decide (i = 2) then None else Some (S i);
     submit_click := true; again_click := false |}.

Definition take_again : UserInput :=
  {| typed_name := None; radio_click := λ _, None;
     submit_click := false; again_click := true |}.

(** Like [artifacts], but the encoder of A3 never saw the code C. *)
Definition artifacts_gap : Resources :=
  {| model := classifier;
     label_encoders :=
       <["A3":={| classes_ := ["A"; "B"; "D"; "E"] |}]> (label_encoders artifacts);
     target_le := characters |}.

(** The question order the first run draws. *)
Definition shuffled : list QuestionRow :=
  [question "5"; question "1"; question "2"; question "4"; question "3"].

(** An entry for the recorder. *)
Definition entry_row : gmap string string :=
  list_to_map (zip submission_columns ["Ann"; "E"; "D"; "A"; "B"; "C"; "Ron Weasley"]).
Definition entry : DataFrame :=
  {| columns := submission_columns; rows := [entry_row] |}.

(** The form as first shown, on a file that can and cannot be written. *)
Definition form_shown : World := replay env [no_input; enter_name] (new_world file draws).
Definition form_shown_locked : World :=
  replay env [no_input; enter_name] (new_world locked_file draws).

(** The session after a saved submission. *)
Definition submitted : World := (interact env answer_and_submit form_shown).2.

End Fixture.

(** * Further observations *)

(** The index and the question of each radio of a page, in page order. *)
Definition radio_heads (pg : list Element) : list (nat * string) :=
  omap (λ el, match el with
              | st_radio i question _ _ => Some (i, question)
              | _ => None
              end) pg.

(** The keys the script reads without a guard are in the session when
    it reads them: the two shuffle keys come and go together, and a
    submitted session has them and the two result keys. *)
Definition keys_present (ss : SessionState) : Prop :=
  (is_Some (shuffled_questions_df ss) ↔ is_Some (shuffled_options_map ss)) ∧
  (quiz_submitted ss = Some true →
   is_Some (shuffled_questions_df ss) ∧
   is_Some (predicted_character ss) ∧ is_Some (user_name_display ss)).

(** The state in which the loop over the questions starts, line 142. *)
Definition loop_start (ss : SessionState)
    (m : gmap string (list (string * string))) (g : Random.state) : Loop :=
  {| options_map := m;
     selections := default ∅ (quiz_selections_display ss);
     mappings := option_mappings ss;
     loop_rng := g;
     widgets := [];
     current_answers_for_model := [];
     quiz_is_complete := true |}.

(** What [st.text_input] returns in a run. *)
Definition name_entered (u : UserInput) (ss : SessionState) : string :=
  match typed_name u with
  | Some s => s
  | None => default "" (user_name_input ss)
  end.

(** The session and the page once the form is drawn, before the submit
    button is looked at. *)
Definition form_drawn (u : UserInput) (ss : SessionState) (l : Loop) (w : World)
  : World :=
  {| session :=
       {| quiz_selections_display := Some (selections l);
          shuffled_options_map := Some (options_map l);
          option_mappings := mappings l;
          user_name_input := Some (name_entered u ss);
          quiz_submitted := quiz_submitted ss;
          shuffled_questions_df := shuffled_questions_df ss;
          predicted_character := predicted_character ss;
          user_name_display := user_name_display ss |};
     disk := disk w;
     rng := loop_rng l;
     page := st_text_input (name_entered u ss) :: widgets l
             ++ [st_button "Submit My Answers"];
     calls := calls w |}.

(** The three fields the shuffle manager and the restoration read. *)
Definition shuffle_fields (ss : SessionState) :=
  (shuffled_questions_df ss, shuffled_options_map ss,
   default ∅ (quiz_selections_display ss)).

(** Every stored selection is an option of its question's stored order. *)
Definition selections_ok (sel : gmap string string)
    (m : gmap string (list (string * string))) : Prop :=
  ∀ i s, sel !! q_key i = Some s →
    ∃ p, m !! q_key i = Some p ∧ s ∈ PLACEHOLDER :: labelled p.

(** A session whose stored selections can all be restored: there are
    none without a question order, and each is an option of its
    question's stored order. *)
Definition selections_shown (ss : SessionState) : Prop :=
  (shuffled_questions_df ss = None →
   default ∅ (quiz_selections_display ss) = ∅) ∧
  (orders_together ss ∧
   selections_ok (default ∅ (quiz_selections_display ss))
                 (default ∅ (shuffled_options_map ss))).

(** Every entry handed to the recorder so far is one row under the
    submission header whose five answers are model codes. *)
Definition entries_coded (w : World) : Prop :=
  ∀ df, call_update_user_submissions df ∈ calls w →
    ∃ user_name answers predicted,
      length answers = 5 ∧ Forall (.∈ codes) answers ∧
      df = {| columns := submission_columns;
              rows := [list_to_map (zip submission_columns
                                        ([user_name] ++ answers ++ [predicted]))] |}.

(** The row [update_user_submissions] is given for a submission. *)
Definition submission_row (user_name : string) (answers : list string)
    (predicted : string) : gmap string string :=
  list_to_map (zip submission_columns ([user_name] ++ answers ++ [predicted])).

(** The sheet [user_submissions] after an entry was appended to it. *)
Definition appended (new_entry_df : DataFrame) (wb : Workbook) : Workbook :=
  sheet_set "user_submissions"
    (concat (default (empty_frame (columns new_entry_df))
                     (sheet_get "user_submissions" wb))
            new_entry_df) wb.

(** The frame the handler builds for a submission once the row and the
    header agree in length, line 241. *)
Definition submission_entry (user_name : string) (answers : list string)
    (predicted : string) : DataFrame :=
  {| columns := submission_columns;
     rows := [submission_row user_name answers predicted] |}.

(** Every entry handed to the recorder so far carries a name, and the
    name is not empty. *)
Definition entries_named (w : World) : Prop :=
  ∀ df row, call_update_user_submissions df ∈ calls w → row ∈ rows df →
    ∃ user_name, row !! "Name" = Some user_name ∧ user_name ≠ "".

(** The paths the results view tries for a character's picture, and
    the text it has for the character. *)
Definition img_path_jpg (predicted : string) : string :=
  "character_images/" +:+ predicted +:+ ".jpg".
Definition img_path_png (predicted : string) : string :=
  "character_images/" +:+ predicted +:+ ".png".
Definition description (predicted : string) : string :=
  default "A truly unique magical being!" (character_descriptions !! predicted).
(** * The share link, lines 290-302 of [App7.py] *)

Module Share.

(** The bytes [urllib.parse.quote] never escapes: letters, digits and
    [_.-~]. *)
Definition always_safe (c : Ascii.ascii) : bool :=
  let n := Ascii.nat_of_ascii c in
  ((65 <=? n) && (n <=? 90)) || ((97 <=? n) && (n <=? 122))
  || ((48 <=? n) && (n <=? 57))
  || (n =? 95) || (n =? 46) || (n =? 45) || (n =? 126).

(** With the default [safe='/']. *)
Definition safe (c : Ascii.ascii) : bool :=
  always_safe c || (Ascii.nat_of_ascii c =? 47).

Definition hex_digits : list Ascii.ascii :=
  String.list_ascii_of_string "0123456789ABCDEF".

Definition hex_digit (n : nat) : Ascii.ascii := nth n hex_digits "0"%char.

(** ['%{:02X}'.format(byte)] *)
Definition percent_encode (c : Ascii.ascii) : string :=
  String "%" (String (hex_digit (Ascii.nat_of_ascii c / 16))
                     (String (hex_digit (Ascii.nat_of_ascii c `mod` 16)) "")).

(** [urllib.parse.quote(s)] on the UTF-8 bytes of [s]. *)
Fixpoint quote (s : string) : string :=
  match s with
  | EmptyString => EmptyString
  | String c s' =>
      (if safe c then String c "" else percent_encode c) +:+ quote s'
  end.

(** The value of an upper-case hexadecimal digit. *)
Definition hex_value (c : Ascii.ascii) : option nat :=
  (fix go (k : nat) (ds : list Ascii.ascii) : option nat :=
     match ds with
     | [] => None
     | d :: ds' => if Ascii.eqb d c then Some k else go (S k) ds'
     end) 0 hex_digits.

(** [urllib.parse.unquote_to_bytes] on escapes written by [quote]: each
    [%XY] becomes the byte with hexadecimal digits [X] and [Y].  The
    script never calls it; it is the reader of the link, and serves to
    show that [quote] loses nothing. *)
Fixpoint unquote (s : string) : string :=
  match s with
  | EmptyString => EmptyString
  | String c s1 =>
      match s1 with
      | String h (String l s2) =>
          match (if Ascii.eqb c "%"
                 then a ← hex_value h; b ← hex_value l; Some (16 * a + b)
                 else None) with
          | Some n => String (Ascii.ascii_of_nat n) (unquote s2)
          | None => String c (unquote s1)
          end
      | _ => String c (unquote s1)
      end
  end.

Definition app_url : string :=
  "https://harry-potter-5efxzu8rjmh8kyeepnpbuz.streamlit.app/".

Definition share_text (predicted_character : string) : string :=
  "I just found out I'm a " +:+ predicted_character
  +:+ " in the Harry Potter universe with this fun quiz! Check it out and see who you are! #HarryPotter #Quiz #CharacterQuiz".

Definition linkedin_share_url (predicted_character : string) : string :=
  "https://www.linkedin.com/sharing/share-offsite/?url=" +:+ quote app_url
  +:+ "&summary=" +:+ quote (share_text predicted_character).

(** The characters a share link is made of: unescaped bytes, the
    escape sign, and the separators of the template. *)
Definition url_char (c : Ascii.ascii) : bool :=
  safe c || bool_decide (c ∈ String.list_ascii_of_string "%:?=&").

End Share.

(** * [train_model.py]: fitting the encoders, lines 29-36 *)

Module Train.

(** Python's [<=] on strings: bytewise lexicographic. *)
Definition string_le (a b : string) : Prop := String.leb a b = true.

Global Instance string_le_dec a b : Decision (string_le a b).
Proof. unfold string_le. apply _. Defined.

(** [LabelEncoder().fit(y)] on a column of text: [classes_] is
    [sorted(set(y))]. *)
Definition fit (y : list string) : LabelEncoder :=
  {| classes_ := merge_sort string_le (remove_dups y) |}.

(** [le.fit_transform(y)]: the fitted encoder and the codes of [y];
    [None] when a value cannot be encoded. *)
Definition fit_transform (y : list string) : LabelEncoder * option (list nat) :=
  (fit y, mapM (transform (fit y)) y).

End Train.


(** Further inputs for the worked session. *)
Module Worked.

(** Like [Fixture.artifacts], but the encoder set has no entry for A3. *)
Definition artifacts_missing : Resources :=
  {| model := Fixture.classifier;
     label_encoders := delete "A3" (label_encoders Fixture.artifacts);
     target_le := Fixture.characters |}.

(** Like [Fixture.artifacts_gap], whose encoder of A3 never saw the
    code C, but without an encoder for A1, and without one for A5. *)
Definition artifacts_first_missing : Resources :=
  {| model := Fixture.classifier;
     label_encoders := delete "A1" (label_encoders Fixture.artifacts_gap);
     target_le := Fixture.characters |}.
Definition artifacts_last_missing : Resources :=
  {| model := Fixture.classifier;
     label_encoders := delete "A5" (label_encoders Fixture.artifacts_gap);
     target_le := Fixture.characters |}.

(** A file that can be read and opened for writing, but whose writer
    raises on the sheets it is given and leaves no readable file. *)
Definition rejecting_file : Disk :=
  {| workbook := Some Fixture.sheets; writable := true;
     read_excel := Some; to_excel := λ _, Some None |}.
Definition form_shown_rejecting : World :=
  replay Fixture.env [no_input; Fixture.enter_name]
         (new_world rejecting_file Fixture.draws).

(** The texts [pd.read_excel] takes for a missing value by default. *)
Definition na_values : list string :=
  EmptyString ::
  ["#N/A"; "#N/A N/A"; "#NA"; "-1.#IND"; "-1.#QNAN"; "-NaN"; "-nan";
   "1.#IND"; "1.#QNAN"; "<NA>"; "N/A"; "NA"; "NULL"; "NaN"; "None"; "n/a";
   "nan"; "null"].

(** The reader with its defaults, on sheets of text that is not
    numeric under distinct headers: a cell holding one of [na_values]
    is read as an empty cell, every other cell as it is. *)
Definition read_na (wb : Workbook) : option Workbook :=
  Some (prod_map id
          (λ df, {| columns := columns df;
                    rows := filter (λ cell, cell.2 ∉ na_values) <$> rows df |})
          <$> wb).

(** The worked file under that reader, and the entry of a user who
    typed NA for a name. *)
Definition na_file : Disk :=
  {| workbook := Some Fixture.sheets; writable := true;
     read_excel := read_na; to_excel := λ _, None |}.
Definition entry_na : DataFrame :=
  submission_entry "NA" ["E"; "D"; "A"; "B"; "C"] "Ron Weasley".

(** The worked environment with the artifacts missing on disk. *)
Definition env_unloaded : Env :=
  {| load_resources := None;
     load_quiz_data := load_quiz_data Fixture.env;
     numpy_random_state := numpy_random_state Fixture.env;
     path_exists := path_exists Fixture.env;
     image_opens := image_opens Fixture.env |}.

(** A second entry for the recorder. *)
Definition entry_row2 : gmap string string :=
  list_to_map (zip submission_columns ["Bob"; "A"; "B"; "C"; "D"; "E"; "Harry Potter"]).
Definition entry2 : DataFrame :=
  {| columns := submission_columns; rows := [entry_row2] |}.

(** A column of answers as a training sheet may hold it. *)
Definition column : list string := ["B"; "A"; "E"; "C"; "D"; "A"; "E"].

(** The answers the worked submission hands to the handler. *)
Definition answers : list string := ["E"; "D"; "A"; "B"; "C"].

(** The worked session with the form answered except for the third
    question. *)
Definition answered : list UserInput :=
  [no_input; Fixture.enter_name; Fixture.skip_one_and_submit].

(** The worked session up to the saved submission. *)
Definition submitting : list UserInput :=
  [no_input; Fixture.enter_name; Fixture.answer_and_submit].

End Worked.
(** * Properties *)

(** ** [list.index] *)

Section list_index.

Lemma index_of_Some y l k : index_of y l = Some k → l !! k = Some y.
Proof.
  revert k. induction l as [|x l IH]; intros k; simpl; [done|].
  case_decide as Hx.
  - intros [= <-]. by subst.
  - destruct (index_of y l) as [k'|]; simpl; [|done].
    intros [= <-]. by apply IH.
Qed.

Lemma index_of_None y l : index_of y l = None ↔ y ∉ l.
Proof.
  induction l as [|x l IH]; simpl.
  - split; [intros _; apply not_elem_of_nil | done].
  - case_decide as Hx.
    + subst. split; [done | intros []; left].
    + rewrite not_elem_of_cons. destruct (index_of y l); simpl.
      * split; [done | intros [_ Hl]]. by apply IH in Hl.
      * split; [intros _; split; [congruence | by apply IH] | done].
Qed.

Lemma index_of_is_Some y l : y ∈ l → is_Some (index_of y l).
Proof.
  intros Hin. destruct (index_of y l) eqn:E; [by eexists|].
  by apply index_of_None in E.
Qed.

End list_index.

(** ** [random.shuffle] permutes *)

Section shuffle.
Context {A : Type}.
Implicit Types x : list A.

Lemma insert_cons_perm x j a b :
  x !! j = Some b → b :: <[j:=a]> x ≡ₚ a :: x.
Proof.
  revert j. induction x as [|y x IH]; intros [|j] Hj; simplify_eq/=.
  - apply perm_swap.
  - rewrite (perm_swap y b). rewrite (IH _ Hj). apply perm_swap.
Qed.

Lemma swap_perm i j x : Random.swap i j x ≡ₚ x.
Proof.
  unfold Random.swap.
  destruct (x !! i) as [a|] eqn:Hi; [|done].
  destruct (x !! j) as [b|] eqn:Hj; [|done].
  revert i j Hi Hj.
  induction x as [|y x IH]; intros [|i] [|j] Hi Hj; simplify_eq/=; try done.
  - by apply insert_cons_perm.
  - by apply insert_cons_perm.
  - f_equiv. by apply IH.
Qed.

Lemma shuffle_from_perm n x g : (Random.shuffle_from n x g).1 ≡ₚ x.
Proof.
  revert x g. induction n as [|n IH]; intros x g; simpl; [done|].
  destruct (Random.randbelow _ g) as [j g'].
  rewrite IH. apply swap_perm.
Qed.

Lemma shuffle_perm x g : (Random.shuffle x g).1 ≡ₚ x.
Proof. apply shuffle_from_perm. Qed.

End shuffle.

(** ** Keys and display strings *)

Lemma q_key_inj i j : q_key i = q_key j → i = j.
Proof.
  unfold q_key. intros H. simplify_eq/=.
  by apply (inj pretty).
Qed.

Lemma display_string_inj_idx i j s t :
  i < 191 → j < 191 → display_string i s = display_string j t → i = j.
Proof.
  unfold display_string, display_label. intros Hi Hj H.
  injection H as E _. apply (f_equal Ascii.nat_of_ascii) in E.
  rewrite !Ascii.nat_ascii_embedding in E by lia. lia.
Qed.

Lemma display_string_not_placeholder i s :
  i < 191 → display_string i s ≠ PLACEHOLDER.
Proof.
  unfold display_string, display_label, PLACEHOLDER. intros Hi H.
  injection H as E _. apply (f_equal Ascii.nat_of_ascii) in E.
  rewrite Ascii.nat_ascii_embedding in E by lia. simpl in E. lia.
Qed.

(** ** Display labels and the option mapping *)

Lemma label_options_fst idx option_pairs disp m :
  (label_options idx option_pairs disp m).1
  = (disp ++ imap (λ k p, display_string (idx + k) p.2) option_pairs)%list.
Proof.
  revert idx disp m.
  induction option_pairs as [|[code text] rest IH]; intros idx disp m; simpl.
  - by rewrite app_nil_r.
  - rewrite IH, <- app_assoc. simpl. rewrite Nat.add_0_r.
    do 2 f_equal. apply imap_ext. intros k p _. simpl. f_equal. lia.
Qed.

Lemma label_options_display option_pairs :
  (label_options 0 option_pairs [PLACEHOLDER] ∅).1
  = PLACEHOLDER :: labelled option_pairs.
Proof. by rewrite label_options_fst. Qed.

Lemma label_options_other idx option_pairs disp m s :
  (∀ k p, option_pairs !! k = Some p → display_string (idx + k) p.2 ≠ s) →
  (label_options idx option_pairs disp m).2 !! s = m !! s.
Proof.
  revert idx disp m.
  induction option_pairs as [|[code text] rest IH]; intros idx disp m Hne; simpl.
  - done.
  - rewrite IH.
    + apply lookup_insert_ne. specialize (Hne 0 (code, text) eq_refl).
      simpl in Hne. by rewrite Nat.add_0_r in Hne.
    + intros k p Hk. specialize (Hne (S k) p Hk).
      by replace (S idx + k) with (idx + S k) by lia.
Qed.

Lemma label_options_lookup idx option_pairs disp m k code text :
  idx + length option_pairs ≤ 191 →
  option_pairs !! k = Some (code, text) →
  (label_options idx option_pairs disp m).2 !! display_string (idx + k) text
  = Some code.
Proof.
  revert idx disp m k.
  induction option_pairs as [|[c t] rest IH]; intros idx disp m k Hlen Hk;
    [done|].
  simpl in Hlen. destruct k as [|k]; simpl in *.
  - simplify_eq. rewrite Nat.add_0_r, label_options_other.
    + apply lookup_insert_eq.
    + intros k p Hp E. apply lookup_lt_Some in Hp.
      apply display_string_inj_idx in E; lia.
  - replace (idx + S k) with (S idx + k) by lia. apply IH; [lia | done].
Qed.

(** ** The loop over the questions *)

Section question_loop.
Context (u : UserInput).

Lemma option_order_keeps key row m g k p :
  m !! k = Some p → (option_order key row m g).1.2 !! k = Some p.
Proof.
  unfold option_order. intros Hk.
  destruct (m !! key) as [q|] eqn:Hkey; simpl; [done|].
  destruct (Random.shuffle _ g) as [q g']. simpl.
  rewrite lookup_insert_ne; [done | congruence].
Qed.

Lemma option_order_stored key row m g :
  (option_order key row m g).1.2 !! key = Some (option_order key row m g).1.1.
Proof.
  unfold option_order.
  destruct (m !! key) as [q|] eqn:Hkey; simpl; [done|].
  destruct (Random.shuffle _ g) as [q g']. simpl. apply lookup_insert_eq.
Qed.

Lemma option_order_cached key row m g p :
  m !! key = Some p → option_order key row m g = (p, m, g).
Proof. unfold option_order. by intros ->. Qed.

Lemma option_order_fresh_perm key row m g :
  m !! key = None → (option_order key row m g).1.1 ≡ₚ original_options row.
Proof.
  unfold option_order. intros ->.
  pose proof (shuffle_perm (original_options row) g) as Hp.
  by destruct (Random.shuffle _ g) as [q g'].
Qed.

(** The fields of the state after one question. *)
Lemma render_question_options_map i row s :
  options_map (render_question u i row s)
  = (option_order (q_key i) row (options_map s) (loop_rng s)).1.2.
Proof.
  unfold render_question.
  destruct (option_order _ _ _ _) as [[p m'] g'].
  by destruct (label_options _ _ _ _).
Qed.

Lemma render_question_rng i row s :
  loop_rng (render_question u i row s)
  = (option_order (q_key i) row (options_map s) (loop_rng s)).2.
Proof.
  unfold render_question.
  destruct (option_order _ _ _ _) as [[p m'] g'].
  by destruct (label_options _ _ _ _).
Qed.

Lemma render_question_selections i row s :
  selections (render_question u i row s)
  = <[q_key i:=selected_option u i row s]> (selections s).
Proof.
  unfold render_question, selected_option.
  destruct (option_order _ _ _ _) as [[p m'] g'].
  by destruct (label_options _ _ _ _).
Qed.

Lemma render_question_complete i row s :
  quiz_is_complete (render_question u i row s) = true →
  quiz_is_complete s = true ∧ selected_option u i row s ≠ PLACEHOLDER.
Proof.
  unfold render_question, selected_option.
  destruct (option_order _ _ _ _) as [[p m'] g'].
  destruct (label_options _ _ _ _) as [opts mp]. simpl.
  case_decide as Hc; [done|]. intros ->. split; [done|].
  intros Hsel. apply Hc. unfold coded_answer_of. by rewrite decide_True.
Qed.

Lemma render_question_widgets i row s :
  widgets (render_question u i row s)
  = (widgets s ++
    [st_radio i (Question row)
       (label_options 0
          (option_order (q_key i) row (options_map s) (loop_rng s)).1.1
          [PLACEHOLDER] ∅).1
       (restore_index
          (label_options 0
             (option_order (q_key i) row (options_map s) (loop_rng s)).1.1
             [PLACEHOLDER] ∅).1
          (default PLACEHOLDER (selections s !! q_key i)))])%list.
Proof.
  unfold render_question.
  destruct (option_order _ _ _ _) as [[p m'] g'].
  by destruct (label_options _ _ _ _).
Qed.

Lemma question_loop_keeps i rows s k p :
  options_map s !! k = Some p →
  options_map (question_loop u i rows s) !! k = Some p.
Proof.
  revert i s. induction rows as [|row rows IH]; intros i s Hk; simpl; [done|].
  apply IH. rewrite render_question_options_map. by apply option_order_keeps.
Qed.

Lemma question_loop_selections_before i rows s j :
  j < i →
  selections (question_loop u i rows s) !! q_key j = selections s !! q_key j.
Proof.
  revert i s. induction rows as [|row rows IH]; intros i s Hj; simpl; [done|].
  rewrite IH by lia. rewrite render_question_selections.
  apply lookup_insert_ne. intros E. apply q_key_inj in E. lia.
Qed.

Lemma question_loop_incomplete i rows s :
  quiz_is_complete s = false →
  quiz_is_complete (question_loop u i rows s) = false.
Proof.
  revert i s. induction rows as [|row rows IH]; intros i s Hc; simpl; [done|].
  apply IH. destruct (quiz_is_complete (render_question u i row s)) eqn:E;
    [|done].
  apply render_question_complete in E as [E _]. congruence.
Qed.

(** A question left on the placeholder makes the quiz incomplete. *)
Lemma question_loop_placeholder i rows s j :
  i ≤ j < i + length rows →
  selections (question_loop u i rows s) !! q_key j = Some PLACEHOLDER →
  quiz_is_complete (question_loop u i rows s) = false.
Proof.
  revert i s. induction rows as [|row rows IH]; intros i s Hj Hsel; simpl in *;
    [lia|].
  destruct (decide (j = i)) as [->|Hne].
  - rewrite question_loop_selections_before in Hsel by lia.
    rewrite render_question_selections, lookup_insert_eq in Hsel.
    apply question_loop_incomplete.
    destruct (quiz_is_complete (render_question u i row s)) eqn:E; [|done].
    apply render_question_complete in E as [_ E]. congruence.
  - apply IH; [lia | done].
Qed.

End question_loop.

(** ** Option orders stay permutations of the table's options *)

Section question_loop_orders.
Context (u : UserInput).

Lemma question_loop_wf all_rows i rows s :
  (∀ k row, rows !! k = Some row → all_rows !! (i + k) = Some row) →
  options_wf all_rows (options_map s) →
  options_wf all_rows (options_map (question_loop u i rows s)).
Proof.
  revert i s. induction rows as [|row rows IH]; intros i s Hrows Hwf; simpl;
    [done|].
  apply IH.
  - intros k r Hk. replace (S i + k) with (i + S k) by lia. by apply Hrows.
  - rewrite render_question_options_map. intros j p Hj.
    destruct (options_map s !! q_key i) as [q|] eqn:Hi.
    + rewrite (option_order_cached _ _ _ _ _ Hi) in Hj. by apply Hwf.
    + destruct (decide (j = i)) as [->|Hne].
      * rewrite option_order_stored in Hj. simplify_eq.
        exists row. split; [|by apply option_order_fresh_perm].
        specialize (Hrows 0 row eq_refl). by rewrite Nat.add_0_r in Hrows.
      * apply Hwf. revert Hj. unfold option_order. rewrite Hi.
        destruct (Random.shuffle _ _) as [q g']. simpl.
        rewrite lookup_insert_ne; [done|]. intros E. by apply q_key_inj in E.
Qed.

(** Each radio drawn by the loop shows the order stored for its
    question, relabelled from A. *)
Lemma question_loop_widgets (all_rows : list QuestionRow) i rows s el :
  (∀ k row, rows !! k = Some row → all_rows !! (i + k) = Some row) →
  el ∈ widgets (question_loop u i rows s) →
  el ∈ widgets s ∨
  ∃ j row p idx,
    el = st_radio j (Question row) (PLACEHOLDER :: labelled p) idx ∧
    all_rows !! j = Some row ∧
    options_map (question_loop u i rows s) !! q_key j = Some p.
Proof.
  revert i s. induction rows as [|row rows IH]; intros i s Hrows Hel; simpl in *;
    [by left|].
  apply IH in Hel as [Hel|Hel]; [|by right|].
  - rewrite render_question_widgets, elem_of_app, list_elem_of_singleton in Hel.
    destruct Hel as [Hel| ->]; [by left|]. right.
    eexists i, row, _, _. split; [by rewrite label_options_display|].
    split.
    + specialize (Hrows 0 row eq_refl). by rewrite Nat.add_0_r in Hrows.
    + apply question_loop_keeps. rewrite render_question_options_map.
      apply option_order_stored.
  - intros k r Hk. replace (S i + k) with (i + S k) by lia. by apply Hrows.
Qed.

End question_loop_orders.

(** ** The handler and the views leave the shuffle state alone *)

(** Splits the hypotheses [x ∈ l] over a list built from [::] and [++]. *)
Ltac split_elem_of :=
  repeat match goal with
         | H : _ ∨ _ |- _ => destruct H
         | H : _ ∈ _ :: _ |- _ => apply elem_of_cons in H
         | H : _ ∈ [] |- _ => by apply elem_of_nil in H
         | H : _ ∈ _ ++ _ |- _ => apply elem_of_app in H
         end.

Lemma is_radio_form_widget el : is_radio el → form_widget el.
Proof. by destruct el. Qed.

Lemma submit_handler_session res user_name answers complete w :
  session (submit_handler res user_name answers complete w).2 = session w ∨
  ∃ predicted,
    (submit_handler res user_name answers complete w).1 = RerunException ∧
    session (submit_handler res user_name answers complete w).2
    = mark_submitted user_name predicted (session w).
Proof.
  unfold submit_handler, unexpected.
  destruct complete; simpl; [|by left].
  destruct (encode_answers _ _ _); simpl; try by left.
  destruct (model res _); simpl; [|by left].
  destruct (inverse_transform _ _) as [predicted|]; simpl; [|by left].
  destruct (one_row_frame _ _) as [entry|]; simpl; [|by left].
  destruct (update_user_submissions _ _) as [[[] d] els]; simpl;
    [right; by eexists | by left].
Qed.

Lemma submit_handler_page res user_name answers complete w el :
  el ∈ page (submit_handler res user_name answers complete w).2 →
  el ∈ page w ∨ is_notice el.
Proof.
  unfold submit_handler, unexpected, update_user_submissions.
  repeat (first [case_match | progress simplify_eq/=]);
    rewrite ?elem_of_app; intros Hel;
    split_elem_of; subst; (by left) || (by right).
Qed.

Lemma submit_handler_radio res user_name answers complete w el :
  is_radio el →
  el ∈ page (submit_handler res user_name answers complete w).2 → el ∈ page w.
Proof.
  intros Hr [Hel|Hel]%submit_handler_page; [done | by destruct el].
Qed.

Lemma show_results_session env w : session (show_results env w).2 = session w.
Proof. unfold show_results. by repeat case_match. Qed.

Lemma show_results_widget env w el :
  form_widget el → el ∈ page (show_results env w).2 → el ∈ page w.
Proof.
  intros Hr. unfold show_results.
  repeat (first [case_match | progress simplify_eq/=]);
    rewrite ?elem_of_app; intros Hel;
    split_elem_of; subst; try done.
Qed.

(** ** The shape of a run *)

Lemma shuffling_logic_cases np original ss g ss1 g1 :
  shuffling_logic np original ss g = Some (ss1, g1) →
  quiz_submitted ss1 = quiz_submitted ss ∧
  ((ss1 = ss ∧ g1 = g ∧ is_Some (shuffled_questions_df ss)) ∨
   (default false (quiz_submitted ss) = false ∧
    shuffled_questions_df ss = None ∧
    shuffled_questions_df ss1
    = Some (sample_frac1 np (Random.randint 0 10000 g).1 original) ∧
    shuffled_options_map ss1 = Some ∅ ∧
    g1 = (Random.randint 0 10000 g).2)).
Proof.
  unfold shuffling_logic.
  destruct (default false (quiz_submitted ss)) eqn:Hsub;
    destruct (shuffled_questions_df ss) as [rows|] eqn:Hdf;
    try destruct (Random.randint 0 10000 g) as [seed g'];
    simpl; rewrite ?Hdf; simpl; repeat case_match; intros; simplify_eq/=;
    try (split; [done|]); try (left; by eauto); right; by eauto.
Qed.

Lemma shuffling_logic_Some np original ss g ss1 g1 :
  shuffling_logic np original ss g = Some (ss1, g1) →
  ∃ rows m0,
    shuffled_questions_df ss1 = Some rows ∧ shuffled_options_map ss1 = Some m0.
Proof.
  unfold shuffling_logic. intros H.
  repeat case_match; simplify_eq/=; eauto.
Qed.

Lemma script_run_shape env u w :
  (shuffled_questions_df (session (script_run env u w).2)
   = shuffled_questions_df (session w) ∧
   shuffled_options_map (session (script_run env u w).2)
   = shuffled_options_map (session w) ∧
   ∀ el, is_radio el → el ∉ page (script_run env u w).2)
  ∨ ∃ original ss1 g1 rows m0,
      load_quiz_data env = Some original ∧
      shuffling_logic (numpy_random_state env) original
        (init_session_state (session w)) (rng w) = Some (ss1, g1) ∧
      shuffled_questions_df ss1 = Some rows ∧
      shuffled_options_map ss1 = Some m0 ∧
      shuffled_questions_df (session (script_run env u w).2) = Some rows ∧
      ((shuffled_options_map (session (script_run env u w).2) = Some m0 ∧
        ∀ el, is_radio el → el ∉ page (script_run env u w).2)
       ∨ ∃ l0,
           options_map l0 = m0 ∧ widgets l0 = [] ∧
           shuffled_options_map (session (script_run env u w).2)
           = Some (options_map (question_loop u 0 rows l0)) ∧
           ∀ el, is_radio el → el ∈ page (script_run env u w).2 →
                 el ∈ widgets (question_loop u 0 rows l0)).
Proof.
  unfold script_run.
  destruct (load_resources env) as [res|];
    [|left; simpl; repeat split; intros el Hr Hel;
      apply list_elem_of_singleton in Hel; by subst].
  destruct (load_quiz_data env) as [original|];
    [|left; simpl; repeat split; intros el Hr Hel;
      apply list_elem_of_singleton in Hel; by subst].
  simpl.
  destruct (shuffling_logic _ _ _ _) as [[ss1 g1]|] eqn:Hsh;
    [|left; simpl; repeat split; intros el Hr Hel; by apply elem_of_nil in Hel].
  right. destruct (shuffling_logic_Some _ _ _ _ _ _ Hsh) as (rows & m0 & Hdf & Hm).
  exists original, ss1, g1, rows, m0. do 4 (split; [done|]).
  rewrite Hdf, Hm. simpl.
  destruct (default false (quiz_submitted ss1)).
  { rewrite show_results_session. simpl. split; [done|]. left. split; [done|].
    intros el Hr Hel.
    apply show_results_widget in Hel; [|by apply is_radio_form_widget].
    by apply elem_of_nil in Hel. }
  unfold quiz_form. simpl.
  set (user_name := match typed_name u with Some s => s | None => _ end).
  case_decide as Hname.
  { simpl. split; [done|]. left. split; [done|]. intros el Hr Hel.
    rewrite !elem_of_cons in Hel. destruct Hel as [->|[->|Hel]]; try done.
    by apply elem_of_nil in Hel. }
  set (l0 := {| options_map := m0; selections := _ |}).
  assert (∀ el, is_radio el →
            el ∈ st_text_input user_name ::
                 widgets (question_loop u 0 rows l0) ++ [st_button "Submit My Answers"] →
            el ∈ widgets (question_loop u 0 rows l0)) as Hpage.
  { intros el Hr Hel. rewrite elem_of_cons, elem_of_app in Hel.
    destruct Hel as [->|[Hel|Hel]]; try done.
    apply list_elem_of_singleton in Hel. by subst. }
  destruct (submit_click u).
  - match goal with
    | |- context [submit_handler ?r ?n ?a ?c ?w'] =>
        pose proof (submit_handler_session r n a c w') as Hses;
        pose proof (λ el, submit_handler_radio r n a c w' el) as Hrad;
        destruct (submit_handler r n a c w') as [ctl w2]
    end.
    simpl in *. assert (shuffled_questions_df (session w2) = Some rows ∧
                        shuffled_options_map (session w2)
                        = Some (options_map (question_loop u 0 rows l0)))
      as [Hdf2 Hm2].
    { destruct Hses as [->|(p & _ & ->)]; simpl; by rewrite ?Hdf. }
    split; [done|]. right. exists l0. repeat split; try done.
    intros el Hr Hel. apply Hpage; [done|]. by apply Hrad.
  - simpl. split; [done|]. right. exists l0. repeat split; try done.
Qed.

(** ** Invariants of a session *)

Lemma script_run_together env u w :
  orders_together (session w) →
  orders_together (session (script_run env u w).2).
Proof.
  intros Hinv. unfold orders_together.
  destruct (script_run_shape env u w) as
    [(-> & -> & _)|(? & ? & ? & rows & ? & _ & _ & _ & _ & -> & _)]; done.
Qed.

Lemma script_run_keeps_order env u w i p :
  orders_together (session w) →
  option_order_of i (session w) = Some p →
  option_order_of i (session (script_run env u w).2) = Some p.
Proof.
  unfold option_order_of. intros Hinv Hp.
  destruct (script_run_shape env u w) as
    [(_ & -> & _)|(orig & ss1 & g1 & rows & m0 & _ & Hsh & Hdf & Hm & _ & Hr)];
    [done|].
  assert (m0 !! q_key i = Some p) as Hm0.
  { apply shuffling_logic_cases in Hsh as [_ [(-> & _ & _)|(_ & Hnone & _)]].
    - simpl in Hm. rewrite Hm in Hp. done.
    - simpl in Hnone. rewrite (Hinv Hnone) in Hp. done. }
  destruct Hr as [[-> _]|(l0 & Hl0 & _ & -> & _)]; simpl; [done|].
  apply question_loop_keeps. by rewrite Hl0.
Qed.

Lemma script_run_wf env u w :
  orders_wf (session w) → orders_wf (session (script_run env u w).2).
Proof.
  intros Hwf rows m.
  destruct (script_run_shape env u w) as
    [(-> & -> & _)|(orig & ss1 & g1 & rows1 & m0 & _ & Hsh & Hdf & Hm & -> & Hr)];
    [by apply Hwf|].
  intros [= <-] Hmap.
  assert (options_wf rows1 m0) as Hm0.
  { apply shuffling_logic_cases in Hsh as [_ [(-> & _ & _)|(_ & _ & _ & Hempty & _)]].
    - by apply Hwf.
    - rewrite Hempty in Hm. simplify_eq. intros j p Hj.
      by rewrite lookup_empty in Hj. }
  destruct Hr as [[Hr _]|(l0 & Hl0 & _ & Hr & _)]; rewrite Hr in Hmap;
    simplify_eq; [done|].
  by apply question_loop_wf.
Qed.

Lemma script_run_shows env u w : page_shows_orders (script_run env u w).2.
Proof.
  intros i q opts idx Hel.
  destruct (script_run_shape env u w) as
    [(_ & _ & Hno)|(orig & ss1 & g1 & rows & m0 & _ & _ & _ & _ & Hdf & Hr)].
  { by apply Hno in Hel. }
  destruct Hr as [[_ Hno]|(l0 & _ & Hw0 & Hmap & Hpage)].
  { by apply Hno in Hel. }
  apply Hpage in Hel; [|done].
  apply (question_loop_widgets u rows) in Hel as [Hel|Hel]; [| |done].
  { rewrite Hw0 in Hel. by apply elem_of_nil in Hel. }
  destruct Hel as (j & row & p & idx' & [= -> -> -> ->] & Hrow & Hp).
  exists rows, row, p. unfold option_order_of. rewrite Hmap. by simpl.
Qed.

Lemma reset_together ss : orders_together (reset_quiz_state ss).
Proof. done. Qed.

Lemma reset_wf ss : orders_wf (reset_quiz_state ss).
Proof. by intros rows m. Qed.

Lemma interact_together env u w :
  orders_together (session w) → orders_together (session (interact env u w).2).
Proof.
  intros Hinv. unfold interact.
  set (w1 := if again_click u then _ else w).
  assert (orders_together (session w1)) as H1.
  { unfold w1. destruct (again_click u); [apply reset_together | done]. }
  pose proof (script_run_together env u w1 H1) as H2.
  destruct (script_run env u w1) as [[] w2]; simpl in *; try done.
  by apply script_run_together.
Qed.

Lemma interact_wf env u w :
  orders_wf (session w) → orders_wf (session (interact env u w).2).
Proof.
  intros Hinv. unfold interact.
  set (w1 := if again_click u then _ else w).
  assert (orders_wf (session w1)) as H1.
  { unfold w1. destruct (again_click u); [apply reset_wf | done]. }
  pose proof (script_run_wf env u w1 H1) as H2.
  destruct (script_run env u w1) as [[] w2]; simpl in *; try done.
  by apply script_run_wf.
Qed.

Lemma interact_shows env u w : page_shows_orders (interact env u w).2.
Proof.
  unfold interact. set (w1 := if again_click u then _ else w).
  pose proof (script_run_shows env u w1) as H2.
  destruct (script_run env u w1) as [[] w2]; simpl in *; try done.
  apply script_run_shows.
Qed.

Lemma interact_keeps_order env u w i p :
  again_click u = false →
  orders_together (session w) →
  option_order_of i (session w) = Some p →
  option_order_of i (session (interact env u w).2) = Some p.
Proof.
  intros Hu Hinv Hp. unfold interact. rewrite Hu.
  pose proof (script_run_keeps_order env u w i p Hinv Hp) as H2.
  pose proof (script_run_together env u w Hinv) as H3.
  destruct (script_run env u w) as [[] w2]; simpl in *; try done.
  by apply script_run_keeps_order.
Qed.

(** Worlds reached from a new session. *)
Lemma replay_app env us1 us2 w :
  replay env (us1 ++ us2) w = replay env us2 (replay env us1 w).
Proof. revert w. induction us1 as [|u us1 IH]; intros w; simpl; [done|apply IH]. Qed.

Lemma replay_together env us w :
  orders_together (session w) → orders_together (session (replay env us w)).
Proof.
  revert w. induction us as [|u us IH]; intros w Hinv; simpl; [done|].
  by apply IH, interact_together.
Qed.

Lemma replay_wf env us w :
  orders_wf (session w) → orders_wf (session (replay env us w)).
Proof.
  revert w. induction us as [|u us IH]; intros w Hinv; simpl; [done|].
  by apply IH, interact_wf.
Qed.

Lemma replay_shows env us w :
  page_shows_orders w → page_shows_orders (replay env us w).
Proof.
  revert w. induction us as [|u us IH]; intros w Hinv; simpl; [done|].
  apply IH, interact_shows.
Qed.

Lemma replay_keeps_order env us w i p :
  Forall (λ u, again_click u = false) us →
  orders_together (session w) →
  option_order_of i (session w) = Some p →
  option_order_of i (session (replay env us w)) = Some p.
Proof.
  intros Hus. revert w. induction Hus as [|u us Hu Hus IH]; intros w Hinv Hp;
    simpl; [done|].
  apply IH; [by apply interact_together | by apply interact_keeps_order].
Qed.

Lemma new_world_together d g : orders_together (session (new_world d g)).
Proof. done. Qed.

Lemma new_world_wf d g : orders_wf (session (new_world d g)).
Proof. by intros rows m. Qed.

Lemma new_world_shows d g : page_shows_orders (new_world d g).
Proof. intros i q opts idx Hel. by apply elem_of_nil in Hel. Qed.

(** ** The question order is kept *)

Lemma script_run_keeps_questions env u w rows :
  shuffled_questions_df (session w) = Some rows →
  shuffled_questions_df (session (script_run env u w).2) = Some rows.
Proof.
  intros Hrows.
  destruct (script_run_shape env u w) as
    [(-> & _ & _)|(orig & ss1 & g1 & rows1 & m0 & _ & Hsh & Hdf & _ & -> & _)];
    [done|].
  apply shuffling_logic_cases in Hsh as [_ [(-> & _ & _)|(_ & Hnone & _)]].
  - simpl in Hdf. congruence.
  - simpl in Hnone. congruence.
Qed.

Lemma interact_keeps_questions env u w rows :
  again_click u = false →
  shuffled_questions_df (session w) = Some rows →
  shuffled_questions_df (session (interact env u w).2) = Some rows.
Proof.
  intros Hu Hrows. unfold interact. rewrite Hu.
  pose proof (script_run_keeps_questions env u w rows Hrows) as H2.
  destruct (script_run env u w) as [[] w2]; simpl in *; try done.
  by apply script_run_keeps_questions.
Qed.

Lemma replay_keeps_questions env us w rows :
  Forall (λ u, again_click u = false) us →
  shuffled_questions_df (session w) = Some rows →
  shuffled_questions_df (session (replay env us w)) = Some rows.
Proof.
  intros Hus. revert w. induction Hus as [|u us Hu Hus IH]; intros w Hrows;
    simpl; [done|].
  by apply IH, interact_keeps_questions.
Qed.

(** ** Claims on the shuffle manager *)

(** C4: in a session replayed from its start, a question that a render
    has drawn has its option order in the session: the radio lists the
    placeholder followed by exactly that order, labelled A, B, C, ...
    by position.  Any number of further interactions without a reset
    leaves that order stored as it is, and every radio drawn for that
    position afterwards asks the same question and lists the same
    display strings in the same order. *)
Theorem C4_option_order_frozen env d g us0 us i q opts idx :
  st_radio i q opts idx ∈ page (replay env us0 (new_world d g)) →
  Forall (λ u, again_click u = false) us →
  ∃ p,
    opts = PLACEHOLDER :: labelled p ∧
    option_order_of i (session (replay env us0 (new_world d g))) = Some p ∧
    option_order_of i (session (replay env (us0 ++ us) (new_world d g)))
    = Some p ∧
    ∀ q' opts' idx',
      st_radio i q' opts' idx'
        ∈ page (replay env (us0 ++ us) (new_world d g)) →
      q' = q ∧ opts' = opts.
Proof.
  intros Hel Hus.
  pose proof (replay_shows env us0 _ (new_world_shows d g)) as Hshown0.
  destruct (Hshown0 i q opts idx Hel) as (rows & row & p & Hrows & Hrow & -> & Hp & ->).
  exists p. split; [done|]. split; [done|]. rewrite replay_app.
  assert (option_order_of i
            (session (replay env us (replay env us0 (new_world d g)))) = Some p)
    as Hkept.
  { apply replay_keeps_order; [done | | done].
    apply replay_together, new_world_together. }
  split; [done|]. intros q' opts' idx' Hel'.
  pose proof (replay_shows env us _ Hshown0) as Hshown.
  destruct (Hshown i q' opts' idx' Hel')
    as (rows' & row' & p' & Hrows' & Hrow' & -> & Hp' & ->).
  rewrite (replay_keeps_questions env us _ rows Hus Hrows) in Hrows'.
  split; congruence.
Qed.



(** ** Claims on the recorder *)

Lemma sheet_get_set name df wb : sheet_get name (sheet_set name df wb) = Some df.
Proof.
  induction wb as [|[n d] wb IH]; simpl.
  - by rewrite decide_True.
  - case_decide as Hn; simpl; [by rewrite decide_True | by rewrite decide_False].
Qed.

Lemma sheet_set_others name df wb :
  filter (λ s, s.1 ≠ name) (sheet_set name df wb)
  = filter (λ s, s.1 ≠ name) wb.
Proof.
  induction wb as [|[n d] wb IH]; cbn [sheet_set].
  - rewrite filter_cons_False; [done | intros H; by apply H].
  - case_decide as Hn.
    + subst. rewrite !filter_cons_False; [done | |]; intros H; by apply H.
    + rewrite !filter_cons_True by done. by rewrite IH.
Qed.

Lemma sheet_set_names name df wb :
  (sheet_set name df wb).*1
  = match sheet_get name wb with
    | Some _ => wb.*1
    | None => wb.*1 ++ [name]
    end.
Proof.
  induction wb as [|[n d] wb IH]; cbn [sheet_set sheet_get]; [done|].
  case_decide as Hn; [by subst|].
  rewrite !fmap_cons, IH. by destruct (sheet_get name wb).
Qed.

(** What a call of the recorder comes to: it is saved exactly when the
    sheets are read, the file opens for writing and the writer takes
    the sheets as read with the entry appended, which the file then
    holds; every failure is reported by the same one error. *)
Lemma update_user_submissions_saved new_entry_df d d' els :
  update_user_submissions new_entry_df d = (true, d', els) →
  ∃ wb all_sheets,
    workbook d = Some wb ∧ read_excel d wb = Some all_sheets ∧
    writable d = true ∧
    to_excel d (appended new_entry_df all_sheets) = None ∧
    d' = with_workbook (Some (appended new_entry_df all_sheets)) d ∧
    els = [].
Proof.
  unfold update_user_submissions, appended.
  destruct (workbook d) as [wb|] eqn:Hwb; simpl; [|done].
  destruct (read_excel d wb) as [all_sheets|] eqn:Hr; simpl; [|done].
  destruct (writable d) eqn:Hwr; [|done].
  destruct (to_excel d _) as [remains|] eqn:Hw; [done|].
  intros [= <- <-]. exists wb, all_sheets. by rewrite Hw.
Qed.

Lemma update_user_submissions_reads new_entry_df d wb all_sheets :
  workbook d = Some wb → read_excel d wb = Some all_sheets →
  writable d = true →
  to_excel d (appended new_entry_df all_sheets) = None →
  update_user_submissions new_entry_df d
  = (true, with_workbook (Some (appended new_entry_df all_sheets)) d, []).
Proof.
  unfold update_user_submissions, appended. intros -> Hr -> Hw. simpl.
  by rewrite Hr, Hw.
Qed.

Lemma update_user_submissions_failed new_entry_df d :
  (update_user_submissions new_entry_df d).1.1 = false →
  (update_user_submissions new_entry_df d).2 = [st_error SaveSubmissionFailed].
Proof. unfold update_user_submissions. by repeat case_match. Qed.

(** ** Claims on the inference pipeline *)

Lemma encode_answers_first_problem encoders pairs acc k c a le :
  pairs !! k = Some (c, a) → encoders !! c = Some le → a ∉ classes_ le →
  ∃ j cj aj,
    j ≤ k ∧ pairs !! j = Some (cj, aj) ∧
    Forall (λ ca, ∃ le', encoders !! ca.1 = Some le' ∧ ca.2 ∈ classes_ le')
           (take j pairs) ∧
    ((∃ le', encoders !! cj = Some le' ∧ (aj ∉ classes_ le') ∧
             encode_answers encoders pairs acc = UnseenCategory aj cj) ∨
     (encoders !! cj = None ∧
      encode_answers encoders pairs acc = MissingEncoder cj)).
Proof.
  revert k acc. induction pairs as [|[c0 a0] pairs IH]; intros k acc Hk Hle Hno;
    [done|].
  destruct (encoders !! c0) as [le0|] eqn:Hle0.
  2:{ exists 0, c0, a0. split; [lia|]. split; [done|].
      split; [apply Forall_nil_2|]. right. simpl. by rewrite Hle0. }
  destruct (transform le0 a0) as [v|] eqn:Hv.
  2:{ exists 0, c0, a0. split; [lia|]. split; [done|].
      split; [apply Forall_nil_2|]. left. exists le0. split; [done|].
      split; [by apply index_of_None|]. simpl. by rewrite Hle0, Hv. }
  assert (a0 ∈ classes_ le0) as Hin0.
  { apply index_of_Some in Hv. by apply list_elem_of_lookup_2 in Hv. }
  destruct k as [|k]; [simpl in Hk; by simplify_eq|]. simpl in Hk.
  destruct (IH k (acc ++ [(c0, v)]) Hk Hle Hno)
    as (j & cj & aj & Hj & Hpj & Hbefore & Hcase).
  exists (S j), cj, aj. split; [lia|]. split; [done|]. split.
  { simpl. apply Forall_cons_2; [by exists le0 | done]. }
  simpl. by rewrite Hle0, Hv.
Qed.

(** C6, as the code has it: a complete submission in which some answer
    is outside the vocabulary of its column's encoder is stopped by
    [st.stop()], not by an uncaught exception, with one error on the
    page that is not the answer-all warning; the classifier and the
    recorder are not called and the session and the file are
    untouched.  The error is about the first feature column, in the
    order A1..A5, that has no encoder or whose answer is outside its
    encoder's vocabulary: the unseen-answer error when the column has
    an encoder, the encoder-not-found error when it has none.  So the
    unseen-answer error is shown whenever every feature column before
    the unseen answer's column has an encoder. *)
Theorem C6_unseen_answer_aborts res user_name answers w k col code le :
  feature_cols !! k = Some col →
  answers !! k = Some code →
  label_encoders res !! col = Some le →
  code ∉ classes_ le →
  ∃ j c a,
    j ≤ k ∧ feature_cols !! j = Some c ∧ answers !! j = Some a ∧
    (∀ i ci ai, i < j → feature_cols !! i = Some ci → answers !! i = Some ai →
       ∃ lei, label_encoders res !! ci = Some lei ∧ ai ∈ classes_ lei) ∧
    ((∃ le', label_encoders res !! c = Some le' ∧ (a ∉ classes_ le') ∧
             submit_handler res user_name answers true w
             = (StopException, put [st_error (UnseenAnswer a c)] w)) ∨
     (label_encoders res !! c = None ∧
      submit_handler res user_name answers true w
      = (StopException, put [st_error (EncoderNotFound c)] w))) ∧
    ((∀ i ci, i < k → feature_cols !! i = Some ci →
              is_Some (label_encoders res !! ci)) →
     ∃ le', label_encoders res !! c = Some le' ∧ (a ∉ classes_ le') ∧
            submit_handler res user_name answers true w
            = (StopException, put [st_error (UnseenAnswer a c)] w)) ∧
    (submit_handler res user_name answers true w).1 = StopException ∧
    (∃ n, page (submit_handler res user_name answers true w).2
          = page w ++ [st_error n] ∧ n ≠ AnswerAllQuestions) ∧
    calls (submit_handler res user_name answers true w).2 = calls w ∧
    disk (submit_handler res user_name answers true w).2 = disk w ∧
    session (submit_handler res user_name answers true w).2 = session w.
Proof.
  intros Hcol Hcode Hle Hno.
  assert (zip feature_cols answers !! k = Some (col, code)) as Hk
    by (by apply lookup_zip_Some).
  destruct (encode_answers_first_problem (label_encoders res)
              (zip feature_cols answers) [] k col code le Hk Hle Hno)
    as (j & c & a & Hj & Hpj & Hbefore & Hcase).
  apply lookup_zip_Some in Hpj as [Hc Ha].
  assert ((∃ le', label_encoders res !! c = Some le' ∧ (a ∉ classes_ le') ∧
                  submit_handler res user_name answers true w
                  = (StopException, put [st_error (UnseenAnswer a c)] w)) ∨
          (label_encoders res !! c = None ∧
           submit_handler res user_name answers true w
           = (StopException, put [st_error (EncoderNotFound c)] w))) as Hrun.
  { unfold submit_handler. cbn [negb].
    destruct Hcase as [(le' & Hle' & Hno' & ->)|[Hnone ->]];
      [left; by exists le' | by right]. }
  exists j, c, a. split; [done|]. split; [done|]. split; [done|]. split.
  { intros i ci ai Hi Hci Hai. rewrite Forall_lookup in Hbefore.
    apply (Hbefore i (ci, ai)). apply lookup_take_Some. split; [|done].
    by apply lookup_zip_Some. }
  split; [done|]. split.
  { intros Hall. destruct Hrun as [Hrun|[Hnone _]]; [done|].
    destruct (decide (j = k)) as [->|Hjk]; [simplify_eq|].
    assert (j < k) as Hlt by lia.
    destruct (Hall j c Hlt Hc) as [? ?]. congruence. }
  destruct Hrun as [(le' & _ & _ & ->)|[_ ->]]; simpl;
    (split; [done|]); (split; [by eexists|]); done.
Qed.

Lemma submit_handler_produces res user_name answers w :
  characters_produced w (submit_handler res user_name answers true w).2
  = if decide (length answers = 5)
    then option_list (predicted_for res answers) else [].
Proof.
  unfold characters_produced, submit_handler, predicted_for, unexpected.
  cbn [negb].
  destruct (encode_answers _ _ _) as [input_df| |]; simpl;
    try (rewrite drop_all; by case_decide).
  destruct (model res input_df) as [predicted_code|]; simpl;
    [|rewrite drop_app_length; by case_decide].
  destruct (inverse_transform _ _) as [predicted|]; simpl;
    [|rewrite drop_app_length; by case_decide].
  unfold one_row_frame. rewrite length_cons, length_app. simpl.
  case_decide as Hlen; case_decide as Hlen'; try lia; simpl.
  - destruct (update_user_submissions _ _) as [[[] d] els]; simpl;
      rewrite <- app_assoc, drop_app_length; simpl;
      do 6 (destruct answers as [|? answers]; try done).
  - by rewrite drop_app_length.
Qed.

Lemma submit_handler_rerun res user_name answers w :
  (submit_handler res user_name answers true w).1 = RerunException →
  predicted_character (session (submit_handler res user_name answers true w).2)
  = predicted_for res answers ∧ is_Some (predicted_for res answers).
Proof.
  unfold submit_handler, predicted_for, unexpected. cbn [negb].
  destruct (encode_answers _ _ _) as [input_df| |]; simpl; try done.
  destruct (model res input_df) as [predicted_code|]; simpl; [|done].
  destruct (inverse_transform _ _) as [predicted|]; simpl; [|done].
  destruct (one_row_frame _ _) as [entry|]; simpl; [|done].
  destruct (update_user_submissions _ _) as [[[] d] els]; simpl; [|done].
  by eauto.
Qed.

(** C8: the character the pipeline produces depends on the artifacts
    and the answer codes alone.  Two submissions of the same codes with
    the same artifacts, whatever the two sessions, names, files and
    generator states, hand the same character to the recorder; and
    when both are saved, both sessions store that same character, the
    one the encoders, the classifier and the decoder give for the
    codes. *)
Theorem C8_prediction_is_deterministic res answers name1 name2 w1 w2 :
  characters_produced w1 (submit_handler res name1 answers true w1).2
  = characters_produced w2 (submit_handler res name2 answers true w2).2 ∧
  ((submit_handler res name1 answers true w1).1 = RerunException →
   (submit_handler res name2 answers true w2).1 = RerunException →
   predicted_character (session (submit_handler res name1 answers true w1).2)
   = predicted_character (session (submit_handler res name2 answers true w2).2) ∧
   predicted_character (session (submit_handler res name1 answers true w1).2)
   = predicted_for res answers ∧
   is_Some (predicted_for res answers)).
Proof.
  split; [by rewrite !submit_handler_produces|].
  intros [H1 Hs]%submit_handler_rerun [H2 _]%submit_handler_rerun.
  by rewrite H1, H2.
Qed.

Lemma shown_prediction_errors pg a b :
  shown_prediction (pg ++ [st_error a; st_error b]) = shown_prediction pg.
Proof. induction pg as [|el pg IH]; [done|]. simpl. by rewrite IH. Qed.

Lemma one_row_frame_entry user_name answers predicted :
  length answers = 5 →
  one_row_frame ([user_name] ++ answers ++ [predicted]) submission_columns
  = Some (submission_entry user_name answers predicted).
Proof.
  intros Hlen. unfold one_row_frame.
  rewrite decide_True; [done|]. rewrite length_app, length_app, Hlen. done.
Qed.

(** C2, as the code has it: when the prediction succeeds and the
    recorder fails, whether the read raises, the file does not open
    for writing or the writer raises on the entry, the run ends
    normally with the two save-failure errors added to the page and
    nothing else; the predicted character was handed to the recorder
    but is not shown, and the session is left as it was, so it is
    neither marked submitted nor given the prediction.  The file is
    what the failed call left. *)
Theorem C2_recording_failure_hides_prediction res user_name answers w c :
  length answers = 5 →
  predicted_for res answers = Some c →
  (update_user_submissions (submission_entry user_name answers c) (disk w)).1.1
  = false →
  (submit_handler res user_name answers true w).1 = Finished ∧
  page (submit_handler res user_name answers true w).2
  = page w ++ [st_error SaveSubmissionFailed; st_error SaveResultsFailed] ∧
  session (submit_handler res user_name answers true w).2 = session w ∧
  shown_prediction (page (submit_handler res user_name answers true w).2)
  = shown_prediction (page w) ∧
  disk (submit_handler res user_name answers true w).2
  = (update_user_submissions (submission_entry user_name answers c) (disk w)).1.2 ∧
  characters_produced w (submit_handler res user_name answers true w).2 = [c].
Proof.
  intros Hlen Hc Hfail.
  pose proof (submit_handler_produces res user_name answers w) as Hprod.
  rewrite decide_True, Hc in Hprod by done.
  pose proof (update_user_submissions_failed _ _ Hfail) as Hels.
  cut ((submit_handler res user_name answers true w).1 = Finished ∧
       page (submit_handler res user_name answers true w).2
       = page w ++ [st_error SaveSubmissionFailed; st_error SaveResultsFailed] ∧
       session (submit_handler res user_name answers true w).2 = session w ∧
       disk (submit_handler res user_name answers true w).2
       = (update_user_submissions (submission_entry user_name answers c)
            (disk w)).1.2).
  { intros (Hctl & Hpage & Hses & Hdisk). split_and!; try done.
    rewrite Hpage. apply shown_prediction_errors. }
  clear Hprod. revert Hc.
  unfold submit_handler, predicted_for, unexpected. cbn [negb].
  destruct (encode_answers _ _ _) as [input_df| |]; [|done|done].
  destruct (model res input_df) as [predicted_code|];
    cbn [mbind option_bind]; [|done].
  destruct (inverse_transform _ _) as [predicted|]; [|done].
  intros [= ->]. rewrite (one_row_frame_entry user_name answers c Hlen).
  cbn [disk call].
  destruct (update_user_submissions _ _) as [[saved d'] els].
  simpl in Hfail, Hels. subst. simpl. by rewrite <- app_assoc.
Qed.

(** ** The submit button *)

(** A run that drew "Submit My Answers" drew the whole form, and ended
    in the handler if the button was clicked. *)
Lemma script_run_submit env u w :
  st_button "Submit My Answers" ∈ page (script_run env u w).2 →
  ∃ res rows l0 user_name w1,
    script_run env u w
    = (if submit_click u
       then submit_handler res user_name
              (current_answers_for_model (question_loop u 0 rows l0))
              (quiz_is_complete (question_loop u 0 rows l0)) w1
       else (Finished, w1)) ∧
    shuffled_questions_df (session w1) = Some rows ∧
    quiz_selections_display (session w1)
    = Some (selections (question_loop u 0 rows l0)) ∧
    calls w1 = calls w ∧ disk w1 = disk w.
Proof.
  unfold script_run.
  destruct (load_resources env) as [res|];
    [|simpl; intros Hel; apply list_elem_of_singleton in Hel; done].
  destruct (load_quiz_data env) as [original|];
    [|simpl; intros Hel; apply list_elem_of_singleton in Hel; done].
  simpl.
  destruct (shuffling_logic _ _ _ _) as [[ss1 g1]|] eqn:Hsh;
    [|simpl; intros Hel; by apply elem_of_nil in Hel].
  destruct (shuffling_logic_Some _ _ _ _ _ _ Hsh) as (rows & m0 & Hdf & Hm).
  rewrite Hdf, Hm. simpl.
  destruct (default false (quiz_submitted ss1)).
  { intros Hel. apply show_results_widget in Hel; [|done].
    by apply elem_of_nil in Hel. }
  unfold quiz_form. simpl.
  set (user_name := match typed_name u with Some s => s | None => _ end).
  case_decide as Hname.
  { simpl. intros Hel. rewrite !elem_of_cons in Hel.
    destruct Hel as [?|[?|Hel]]; try done. by apply elem_of_nil in Hel. }
  intros _.
  set (l0 := {| options_map := m0; selections := _ |}).
  eexists res, rows, l0, user_name, _. split; [done|]. simpl.
  by rewrite Hdf.
Qed.

(** C5: a run in which "Submit My Answers" is clicked while some
    question of the form stands on the placeholder ends normally with
    the warning to answer all questions; neither the classifier nor the
    recorder is called and the file is left as it was. *)
Theorem C5_unanswered_is_rejected env u w rows i :
  submit_click u = true →
  st_button "Submit My Answers" ∈ page (script_run env u w).2 →
  shuffled_questions_df (session (script_run env u w).2) = Some rows →
  i < length rows →
  quiz_selections_display (session (script_run env u w).2) ≫= (.!! q_key i)
  = Some PLACEHOLDER →
  (script_run env u w).1 = Finished ∧
  st_warning AnswerAllQuestions ∈ page (script_run env u w).2 ∧
  calls (script_run env u w).2 = calls w ∧
  disk (script_run env u w).2 = disk w.
Proof.
  intros Hclick Hform.
  destruct (script_run_submit env u w Hform)
    as (res & rows1 & l0 & user_name & w1 & -> & Hdf1 & Hsel1 & Hcalls & Hdisk).
  rewrite Hclick.
  pose proof (submit_handler_session res user_name
                (current_answers_for_model (question_loop u 0 rows1 l0))
                (quiz_is_complete (question_loop u 0 rows1 l0)) w1) as Hses.
  intros Hdf Hi Hsel.
  assert (quiz_is_complete (question_loop u 0 rows1 l0) = false) as Hinc.
  { destruct Hses as [Hs|(p & _ & Hs)]; rewrite Hs in Hdf, Hsel; simpl in *;
      rewrite Hdf1 in Hdf; rewrite Hsel1 in Hsel; simplify_eq/=;
      apply (question_loop_placeholder u 0 rows l0 i); (lia || done). }
  rewrite Hinc. unfold submit_handler. simpl.
  split; [done|]. split; [|done].
  apply elem_of_app. right. by apply list_elem_of_singleton.
Qed.

(** ** Reset *)

Lemma render_question_core u i row s s' :
  loop_core s = loop_core s' →
  loop_core (render_question u i row s) = loop_core (render_question u i row s').
Proof.
  destruct s, s'. unfold loop_core. simpl. intros [= -> -> -> -> -> ->].
  unfold render_question. simpl.
  destruct (option_order _ _ _ _) as [[p m'] g'].
  by destruct (label_options _ _ _ _).
Qed.

Lemma question_loop_core u i rows s s' :
  loop_core s = loop_core s' →
  loop_core (question_loop u i rows s) = loop_core (question_loop u i rows s').
Proof.
  revert i s s'. induction rows as [|row rows IH]; intros i s s' Hc; simpl;
    [done|].
  by apply IH, render_question_core.
Qed.

Lemma submit_handler_shuffle_state res user_name answers complete w :
  shuffle_state (session (submit_handler res user_name answers complete w).2)
  = shuffle_state (session w).
Proof.
  by destruct (submit_handler_session res user_name answers complete w)
    as [->|(p & _ & ->)].
Qed.

Lemma script_run_after_reset env u w ss :
  shuffle_state (session (script_run env u (with_session (reset_quiz_state ss) w)).2)
  = shuffle_state (session (script_run env u (with_session new_session w)).2).
Proof.
  unfold script_run. simpl.
  destruct (load_resources env) as [res|]; [|done].
  destruct (load_quiz_data env) as [original|]; [|done].
  unfold shuffling_logic. simpl.
  destruct (Random.randint _ _ (rng w)) as [seed g']. simpl.
  unfold quiz_form. simpl.
  case_decide as Hname; [done|].
  match goal with
  | |- context [question_loop u 0 ?rows ?l0] =>
      match goal with
      | |- context [question_loop u 0 rows ?l1] =>
          lazymatch l1 with
          | l0 => fail
          | _ => pose proof (question_loop_core u 0 rows l0 l1 eq_refl) as Hcore
          end
      end
  end.
  unfold loop_core in Hcore. injection Hcore as Hm Hs Hg Hw Ha Hc.
  destruct (submit_click u); simpl.
  - rewrite !submit_handler_shuffle_state. unfold shuffle_state. simpl.
    by rewrite Hm.
  - unfold shuffle_state. simpl. by rewrite Hm.
Qed.

Lemma script_run_no_success env u w :
  default false (quiz_submitted (session w)) = false →
  ∀ n, st_success n ∉ page (script_run env u w).2.
Proof.
  intros Hsub n. unfold script_run.
  destruct (load_resources env) as [res|];
    [|simpl; intros Hel; apply list_elem_of_singleton in Hel; done].
  destruct (load_quiz_data env) as [original|];
    [|simpl; intros Hel; apply list_elem_of_singleton in Hel; done].
  simpl.
  destruct (shuffling_logic _ _ _ _) as [[ss1 g1]|] eqn:Hsh;
    [|simpl; intros Hel; by apply elem_of_nil in Hel].
  destruct (shuffling_logic_Some _ _ _ _ _ _ Hsh) as (rows & m0 & Hdf & Hm).
  apply shuffling_logic_cases in Hsh as [Hq _]. simpl in Hq.
  rewrite Hq, Hdf, Hm. simpl. rewrite Hsub.
  unfold quiz_form. simpl.
  set (user_name := match typed_name u with Some s => s | None => _ end).
  case_decide as Hname.
  { simpl. intros Hel. rewrite !elem_of_cons in Hel.
    destruct Hel as [?|[?|Hel]]; try done. by apply elem_of_nil in Hel. }
  set (l0 := {| options_map := m0; selections := _ |}).
  assert (st_success n ∉ st_text_input user_name ::
            widgets (question_loop u 0 rows l0) ++ [st_button "Submit My Answers"])
    as Hform.
  { rewrite elem_of_cons, elem_of_app. intros [?|[Hel|Hel]]; [done| |].
    - apply (question_loop_widgets u rows) in Hel as [Hel|Hel]; [| |done].
      + by apply elem_of_nil in Hel.
      + by destruct Hel as (? & ? & ? & ? & ? & _).
    - by apply list_elem_of_singleton in Hel. }
  destruct (submit_click u); [|done].
  intros [Hel|Hel]%submit_handler_page; done.
Qed.

Lemma script_run_reset_sample env u w ss res original :
  load_resources env = Some res → load_quiz_data env = Some original →
  shuffled_questions_df
    (session (script_run env u (with_session (reset_quiz_state ss) w)).2)
  = Some (sample_frac1 (numpy_random_state env)
            (Random.randint 0 10000 (rng w)).1 original).
Proof.
  intros Hres Hdata. unfold script_run. simpl. rewrite Hres, Hdata.
  unfold shuffling_logic. simpl.
  destruct (Random.randint _ _ (rng w)) as [seed g']. simpl.
  unfold quiz_form. simpl.
  case_decide as Hname; [done|].
  destruct (submit_click u); [|done].
  match goal with
  | |- context [submit_handler ?r ?n ?a ?c ?w'] =>
      pose proof (submit_handler_shuffle_state r n a c w') as Hst
  end.
  unfold shuffle_state in Hst. by injection Hst as -> _.
Qed.

(** C3, as the code has it: the reset removes the question order and
    the option orders, empties the selections and the name box and
    clears the submitted flag; it keeps the predicted character, the
    displayed name and the [q_{i}_mapping] keys.  The next run draws
    its question order and option orders as a new session would from
    the same generator state, the question order being a new sample of
    the quiz table, and shows no prediction. *)
Theorem C3_reset_discards_shuffle_state env u w :
  (shuffled_questions_df (reset_quiz_state (session w)) = None ∧
   shuffled_options_map (reset_quiz_state (session w)) = None ∧
   quiz_selections_display (reset_quiz_state (session w)) = Some ∅ ∧
   user_name_input (reset_quiz_state (session w)) = Some "" ∧
   quiz_submitted (reset_quiz_state (session w)) = Some false) ∧
  (predicted_character (reset_quiz_state (session w))
   = predicted_character (session w) ∧
   user_name_display (reset_quiz_state (session w))
   = user_name_display (session w) ∧
   option_mappings (reset_quiz_state (session w)) = option_mappings (session w)) ∧
  shuffle_state
    (session (script_run env u
                (with_session (reset_quiz_state (session w)) w)).2)
  = shuffle_state (session (script_run env u (with_session new_session w)).2) ∧
  (∀ res original,
     load_resources env = Some res → load_quiz_data env = Some original →
     shuffled_questions_df
       (session (script_run env u
                   (with_session (reset_quiz_state (session w)) w)).2)
     = Some (sample_frac1 (numpy_random_state env)
               (Random.randint 0 10000 (rng w)).1 original)) ∧
  (∀ n, st_success n ∉
        page (script_run env u
                (with_session (reset_quiz_state (session w)) w)).2).
Proof.
  split; [done|]. split; [done|].
  split; [apply script_run_after_reset|].
  split; [intros res original; apply script_run_reset_sample|].
  by apply script_run_no_success.
Qed.

(** ** The worked session *)

(** C1, at a failing input.  The quiz table lists Q1..Q5; the session
    shows them in the order Q5, Q1, Q2, Q4, Q3 and the user answers
    Q1 with D, Q2 with A, Q3 with C, Q4 with B and Q5 with E.  The
    classifier input and the saved row hold E, D, A, B, C under
    A1..A5: the answers in display order, so that A1 carries the answer
    to Q5, the fifth row of the table, not the answer to Q1. *)
Example C1_answers_follow_display_order :
  let r := interact Fixture.env Fixture.answer_and_submit Fixture.form_shown in
  Question <$> default [] (load_quiz_data Fixture.env)
  = ["Q1"; "Q2"; "Q3"; "Q4"; "Q5"] ∧
  Question <$> default [] (shuffled_questions_df (session r.2))
  = ["Q5"; "Q1"; "Q2"; "Q4"; "Q3"] ∧
  answer_given (session r.2) <$> ["Q1"; "Q2"; "Q3"; "Q4"; "Q5"]
  = [Some "D"; Some "A"; Some "C"; Some "B"; Some "E"] ∧
  recorded_under (disk r.2) <$> feature_cols
  = [[Some "E"]; [Some "D"]; [Some "A"]; [Some "B"]; [Some "C"]] ∧
  calls r.2
  = [call_predict [("A1", 4); ("A2", 3); ("A3", 0); ("A4", 1); ("A5", 2)];
     call_update_user_submissions Fixture.entry].
Proof. vm_compute. by repeat split. Qed.

(** C2 fails on the code: with a file that cannot be written the
    prediction "Ron Weasley" is computed and handed to the recorder,
    the save fails, and neither this page nor the next one announces
    a character; the session stores none. *)
Lemma C2_prediction_not_shown_when_save_fails :
  let w := Fixture.form_shown_locked in
  let r := interact Fixture.env Fixture.answer_and_submit w in
  characters_produced w r.2 = ["Ron Weasley"] ∧
  st_error SaveResultsFailed ∈ page r.2 ∧
  shown_prediction (page r.2) = None ∧
  shown_prediction (page (interact Fixture.env no_input r.2).2) = None ∧
  predicted_character (session r.2) = None.
Proof.
  cbv zeta. split_and!; try (vm_compute; reflexivity). compute_done.
Qed.

(** C3 fails on the code: after a saved submission the reset leaves the
    predicted character, the displayed name and the first question's
    display-string mapping in the session, and they are still there
    after the next run. *)
Lemma C3_reset_keeps_prediction :
  let ss := reset_quiz_state (session Fixture.submitted) in
  let w := (interact Fixture.env Fixture.take_again Fixture.submitted).2 in
  predicted_character ss = Some "Ron Weasley" ∧
  user_name_display ss = Some "Ann" ∧
  option_mappings ss !! q_key 0
  = Some (list_to_map [("A. 5e", "E"); ("B. 5d", "D"); ("C. 5a", "A");
                       ("D. 5c", "C"); ("E. 5b", "B")]) ∧
  predicted_character (session w) = Some "Ron Weasley".
Proof. vm_compute. by repeat split. Qed.

(** C6 fails on the code: the encoder of A3 never saw the code C, which
    is the answer under A3, but A1 has no encoder; the run is stopped
    with the encoder-not-found error for A1 and no unseen-answer error
    is on the page. *)
Lemma C6_unseen_answer_not_reported :
  let r := submit_handler Worked.artifacts_first_missing "Ann"
             ["A"; "B"; "C"; "D"; "E"] true Fixture.form_shown in
  label_encoders Worked.artifacts_first_missing !! "A3"
  = Some {| classes_ := ["A"; "B"; "D"; "E"] |} ∧
  ("C" ∉ ["A"; "B"; "D"; "E"]) ∧
  r = (StopException, put [st_error (EncoderNotFound "A1")] Fixture.form_shown) ∧
  Forall (λ el, ∀ code col, el ≠ st_error (UnseenAnswer code col)) (page r.2).
Proof.
  cbv zeta. split; [vm_compute; reflexivity|]. split; [compute_done|].
  split; [vm_compute; reflexivity|].
  vm_compute. repeat (apply Forall_cons_2; [by intros ? ?|]). apply Forall_nil_2.
Qed.

(** C9, at a failing input.  A user who typed NA for a name is saved to
    a file that is read by the reader with its defaults; the sheet then
    holds the name.  The next successful call, for Bob, reads the sheet
    anew, where the cell NA comes back empty, and writes that: the row
    saved first has lost its name. *)
Example C9_recorder_rewrites_former_rows :
  let r1 := update_user_submissions Worked.entry_na Worked.na_file in
  let r2 := update_user_submissions Worked.entry2 r1.1.2 in
  r1.1.1 = true ∧
  recorded_under r1.1.2 "Name" = [Some "NA"] ∧
  recorded_under r1.1.2 "A1" = [Some "E"] ∧
  r2.1.1 = true ∧
  recorded_under r2.1.2 "Name" = [None; Some "Bob"] ∧
  recorded_under r2.1.2 "A1" = [Some "E"; Some "A"].
Proof. vm_compute. by repeat split. Qed.

(** ** The claims at the worked session *)

(** The amended C2 at the worked session with a file that can be read
    and opened for writing but whose writer raises on the entry. *)
Lemma C2_recording_failure_witness :
  (submit_handler Fixture.artifacts "Ann" ["E"; "D"; "A"; "B"; "C"] true
     Worked.form_shown_rejecting).1 = Finished ∧
  page (submit_handler Fixture.artifacts "Ann" ["E"; "D"; "A"; "B"; "C"] true
          Worked.form_shown_rejecting).2
  = page Worked.form_shown_rejecting
    ++ [st_error SaveSubmissionFailed; st_error SaveResultsFailed] ∧
  session (submit_handler Fixture.artifacts "Ann" ["E"; "D"; "A"; "B"; "C"] true
             Worked.form_shown_rejecting).2
  = session Worked.form_shown_rejecting ∧
  shown_prediction
    (page (submit_handler Fixture.artifacts "Ann" ["E"; "D"; "A"; "B"; "C"] true
             Worked.form_shown_rejecting).2)
  = shown_prediction (page Worked.form_shown_rejecting) ∧
  disk (submit_handler Fixture.artifacts "Ann" ["E"; "D"; "A"; "B"; "C"] true
          Worked.form_shown_rejecting).2
  = (update_user_submissions
       (submission_entry "Ann" ["E"; "D"; "A"; "B"; "C"] "Ron Weasley")
       (disk Worked.form_shown_rejecting)).1.2 ∧
  characters_produced Worked.form_shown_rejecting
    (submit_handler Fixture.artifacts "Ann" ["E"; "D"; "A"; "B"; "C"] true
       Worked.form_shown_rejecting).2
  = ["Ron Weasley"].
Proof.
  apply (C2_recording_failure_hides_prediction Fixture.artifacts "Ann"
           ["E"; "D"; "A"; "B"; "C"] Worked.form_shown_rejecting "Ron Weasley");
    [reflexivity | vm_compute; reflexivity | vm_compute; reflexivity].
Defined.

(** C4 at the worked session, for the fourth radio of the form as
    first drawn: three more interactions, its order kept. *)
Lemma C4_option_order_witness :
  let us0 := [no_input; Fixture.enter_name] in
  let us := [Fixture.skip_one_and_submit; no_input; Fixture.answer_and_submit] in
  let opts := ["--- Please Select ---"; "A. 4a"; "B. 4c"; "C. 4e"; "D. 4b";
               "E. 4d"] in
  ∃ p,
    opts = PLACEHOLDER :: labelled p ∧
    option_order_of 3
      (session (replay Fixture.env us0 (new_world Fixture.file Fixture.draws)))
    = Some p ∧
    option_order_of 3
      (session (replay Fixture.env (us0 ++ us)
                  (new_world Fixture.file Fixture.draws))) = Some p ∧
    ∀ q' opts' idx',
      st_radio 3 q' opts' idx'
        ∈ page (replay Fixture.env (us0 ++ us)
                  (new_world Fixture.file Fixture.draws)) →
      q' = "Q4" ∧ opts' = opts.
Proof.
  cbv zeta.
  apply (C4_option_order_frozen Fixture.env Fixture.file Fixture.draws
           [no_input; Fixture.enter_name]
           [Fixture.skip_one_and_submit; no_input; Fixture.answer_and_submit]
           3 "Q4" _ 0);
    [compute_done | by repeat constructor].
Defined.

(** C5 at the worked session: the third question is left unanswered. *)
Lemma C5_unanswered_witness :
  (submit_click Fixture.skip_one_and_submit = true ∧
   st_button "Submit My Answers"
     ∈ page (script_run Fixture.env Fixture.skip_one_and_submit
               Fixture.form_shown).2 ∧
   shuffled_questions_df
     (session (script_run Fixture.env Fixture.skip_one_and_submit
                 Fixture.form_shown).2) = Some Fixture.shuffled ∧
   2 < length Fixture.shuffled ∧
   quiz_selections_display
     (session (script_run Fixture.env Fixture.skip_one_and_submit
                 Fixture.form_shown).2) ≫= (.!! q_key 2) = Some PLACEHOLDER) ∧
  (script_run Fixture.env Fixture.skip_one_and_submit Fixture.form_shown).1
  = Finished ∧
  st_warning AnswerAllQuestions
    ∈ page (script_run Fixture.env Fixture.skip_one_and_submit
              Fixture.form_shown).2 ∧
  calls (script_run Fixture.env Fixture.skip_one_and_submit Fixture.form_shown).2
  = calls Fixture.form_shown ∧
  disk (script_run Fixture.env Fixture.skip_one_and_submit Fixture.form_shown).2
  = disk Fixture.form_shown.
Proof.
  split.
  - split_and!; try (vm_compute; reflexivity); [compute_done | simpl; lia].
  - apply (C5_unanswered_is_rejected Fixture.env Fixture.skip_one_and_submit
             Fixture.form_shown Fixture.shuffled 2);
      try (vm_compute; reflexivity); [compute_done | simpl; lia].
Defined.

(** The amended C6 with an encoder of A3 that never saw the code C and
    no encoder for A5: the unseen answer is reported. *)
Lemma C6_unseen_answer_witness :
  ∃ j c a,
    j ≤ 2 ∧ feature_cols !! j = Some c ∧
    ["A"; "B"; "C"; "D"; "E"] !! j = Some a ∧
    (∀ i ci ai, i < j → feature_cols !! i = Some ci →
       ["A"; "B"; "C"; "D"; "E"] !! i = Some ai →
       ∃ lei, label_encoders Worked.artifacts_last_missing !! ci = Some lei ∧
              ai ∈ classes_ lei) ∧
    ((∃ le', label_encoders Worked.artifacts_last_missing !! c = Some le' ∧
             (a ∉ classes_ le') ∧
             submit_handler Worked.artifacts_last_missing "Ann"
               ["A"; "B"; "C"; "D"; "E"] true Fixture.form_shown
             = (StopException,
                put [st_error (UnseenAnswer a c)] Fixture.form_shown)) ∨
     (label_encoders Worked.artifacts_last_missing !! c = None ∧
      submit_handler Worked.artifacts_last_missing "Ann"
        ["A"; "B"; "C"; "D"; "E"] true Fixture.form_shown
      = (StopException,
         put [st_error (EncoderNotFound c)] Fixture.form_shown))) ∧
    ((∀ i ci, i < 2 → feature_cols !! i = Some ci →
              is_Some (label_encoders Worked.artifacts_last_missing !! ci)) →
     ∃ le', label_encoders Worked.artifacts_last_missing !! c = Some le' ∧
            (a ∉ classes_ le') ∧
            submit_handler Worked.artifacts_last_missing "Ann"
              ["A"; "B"; "C"; "D"; "E"] true Fixture.form_shown
            = (StopException,
               put [st_error (UnseenAnswer a c)] Fixture.form_shown)) ∧
    (submit_handler Worked.artifacts_last_missing "Ann"
       ["A"; "B"; "C"; "D"; "E"] true Fixture.form_shown).1 = StopException ∧
    (∃ n, page (submit_handler Worked.artifacts_last_missing "Ann"
                  ["A"; "B"; "C"; "D"; "E"] true Fixture.form_shown).2
          = page Fixture.form_shown ++ [st_error n] ∧
          n ≠ AnswerAllQuestions) ∧
    calls (submit_handler Worked.artifacts_last_missing "Ann"
             ["A"; "B"; "C"; "D"; "E"] true Fixture.form_shown).2
    = calls Fixture.form_shown ∧
    disk (submit_handler Worked.artifacts_last_missing "Ann"
            ["A"; "B"; "C"; "D"; "E"] true Fixture.form_shown).2
    = disk Fixture.form_shown ∧
    session (submit_handler Worked.artifacts_last_missing "Ann"
               ["A"; "B"; "C"; "D"; "E"] true Fixture.form_shown).2
    = session Fixture.form_shown.
Proof.
  apply (C6_unseen_answer_aborts Worked.artifacts_last_missing "Ann"
           ["A"; "B"; "C"; "D"; "E"] Fixture.form_shown 2 "A3" "C"
           {| classes_ := ["A"; "B"; "D"; "E"] |});
    [reflexivity | reflexivity | vm_compute; reflexivity | compute_done].
Defined.


(** * More of the script *)

(** ** The question order *)

Lemma take_rows_seq {A} (pre df : list A) :
  omap (λ k, (pre ++ df) !! k) (seq (length pre) (length df)) = df.
Proof.
  revert pre. induction df as [|x df IH]; intros pre; simpl; [done|].
  rewrite lookup_app_r, Nat.sub_diag by lia. simpl. f_equal.
  specialize (IH (pre ++ [x])). rewrite length_app in IH. simpl in IH.
  rewrite Nat.add_1_r, <- app_assoc in IH. done.
Qed.

Lemma sample_frac1_perm {A} np seed (df : list A) : sample_frac1 np seed df ≡ₚ df.
Proof.
  unfold sample_frac1, take_rows, sample_locs.
  rewrite (shuffle_perm (seq 0 (length df)) (np seed)).
  apply (reflexive_eq _ _ (take_rows_seq [] df)).
Qed.

Lemma script_run_questions env u w original :
  load_quiz_data env = Some original →
  (∀ rows, shuffled_questions_df (session w) = Some rows → rows ≡ₚ original) →
  ∀ rows, shuffled_questions_df (session (script_run env u w).2) = Some rows →
          rows ≡ₚ original.
Proof.
  intros Hdata Hinv rows.
  destruct (script_run_shape env u w) as
    [(-> & _ & _)|(orig & ss1 & g1 & rows1 & m0 & Hd & Hsh & Hdf & _ & -> & _)];
    [by apply Hinv|].
  intros [= <-]. rewrite Hdata in Hd. simplify_eq.
  apply shuffling_logic_cases in Hsh as [_ [(-> & _ & _)|(_ & _ & Hnew & _)]].
  - by apply Hinv.
  - rewrite Hnew in Hdf. simplify_eq. apply sample_frac1_perm.
Qed.

Lemma interact_questions env u w original :
  load_quiz_data env = Some original →
  (∀ rows, shuffled_questions_df (session w) = Some rows → rows ≡ₚ original) →
  ∀ rows, shuffled_questions_df (session (interact env u w).2) = Some rows →
          rows ≡ₚ original.
Proof.
  intros Hdata Hinv. unfold interact.
  set (w1 := if again_click u then _ else w).
  assert (∀ rows, shuffled_questions_df (session w1) = Some rows →
                  rows ≡ₚ original) as H1.
  { unfold w1. destruct (again_click u); [done | done]. }
  pose proof (script_run_questions env u w1 original Hdata H1) as H2.
  destruct (script_run env u w1) as [[] w2]; simpl in *; try done.
  by apply script_run_questions.
Qed.

(** X1: in every session, the question order on show is a permutation
    of the quiz table: each question of the table is asked, and asked
    once. *)
Theorem questions_shown_permute_table env d g us original rows :
  load_quiz_data env = Some original →
  shuffled_questions_df (session (replay env us (new_world d g))) = Some rows →
  rows ≡ₚ original.
Proof.
  intros Hdata.
  assert (∀ w, (∀ rows, shuffled_questions_df (session w) = Some rows →
                        rows ≡ₚ original) →
               ∀ rows, shuffled_questions_df (session (replay env us w)) = Some rows →
                       rows ≡ₚ original) as Hreplay.
  { induction us as [|u us IH]; intros w Hw; simpl; [done|].
    by apply IH, interact_questions. }
  revert rows. by apply Hreplay.
Qed.

(** ** No uncaught exception *)

Lemma submit_handler_control res user_name answers complete w exc :
  (submit_handler res user_name answers complete w).1 ≠ Uncaught exc.
Proof.
  unfold submit_handler, unexpected.
  repeat (first [case_match | progress simplify_eq/=]); done.
Qed.

Lemma reset_keys_present ss : keys_present (reset_quiz_state ss).
Proof.
  split; simpl; [|done]. by split; intros [? ?].
Qed.

Lemma shuffling_logic_present np original ss g :
  keys_present ss →
  is_Some (shuffling_logic np original (init_session_state ss) g).
Proof.
  intros [Hboth Hsub]. unfold shuffling_logic. simpl.
  destruct (quiz_submitted ss) as [[]|] eqn:Hq; simpl.
  - destruct Hsub as ([rows Hdf] & _); [done|].
    destruct (proj1 Hboth) as [m Hm]; [by eexists|].
    rewrite Hdf, Hm. by eexists.
  - destruct (shuffled_questions_df ss) as [rows|] eqn:Hdf.
    + destruct (proj1 Hboth) as [m Hm]; [by eexists|].
      simpl. rewrite Hdf, Hm. by eexists.
    + destruct (Random.randint _ _ g) as [seed g']. simpl. by eexists.
  - destruct (shuffled_questions_df ss) as [rows|] eqn:Hdf.
    + destruct (proj1 Hboth) as [m Hm]; [by eexists|].
      simpl. rewrite Hdf, Hm. by eexists.
    + destruct (Random.randint _ _ g) as [seed g']. simpl. by eexists.
Qed.

(** The form keeps the question order, leaves an option map in the
    session, and marks the session submitted only together with the two
    result keys. *)
Lemma quiz_form_session res u rows m w :
  (∀ exc, (quiz_form res u rows m w).1 ≠ Uncaught exc) ∧
  shuffled_questions_df (session (quiz_form res u rows m w).2)
  = shuffled_questions_df (session w) ∧
  (is_Some (shuffled_options_map (session w)) →
   is_Some (shuffled_options_map (session (quiz_form res u rows m w).2))) ∧
  (quiz_submitted (session (quiz_form res u rows m w).2)
   = quiz_submitted (session w) ∨
   (is_Some (predicted_character (session (quiz_form res u rows m w).2)) ∧
    is_Some (user_name_display (session (quiz_form res u rows m w).2)))).
Proof.
  unfold quiz_form. simpl. case_decide as Hname; [simpl; by eauto|].
  destruct (submit_click u); [|simpl; by eauto 6].
  match goal with
  | |- context [submit_handler ?r ?n ?a ?c ?w'] =>
      pose proof (submit_handler_session r n a c w') as Hses;
      pose proof (λ exc, submit_handler_control r n a c w' exc) as Hctl;
      destruct (submit_handler r n a c w') as [ctl w2]
  end.
  simpl in *. destruct Hses as [->|(p & _ & ->)]; simpl; by eauto 6.
Qed.

Lemma script_run_keys_present env u w :
  keys_present (session w) →
  (∀ exc, (script_run env u w).1 ≠ Uncaught exc) ∧
  keys_present (session (script_run env u w).2).
Proof.
  intros Hkeys. unfold script_run.
  destruct (load_resources env) as [res|]; [|by split].
  destruct (load_quiz_data env) as [original|]; [|by split].
  simpl.
  destruct (shuffling_logic_present (numpy_random_state env) original
              (session w) (rng w) Hkeys) as [[ss1 g1] Hsh].
  rewrite Hsh.
  destruct (shuffling_logic_Some _ _ _ _ _ _ Hsh) as (rows & m & Hdf & Hm).
  pose proof (shuffling_logic_cases _ _ _ _ _ _ Hsh) as [Hq Hcase].
  simpl in Hq. destruct Hkeys as [Hboth Hsub].
  destruct (default false (quiz_submitted ss1)) eqn:Hs.
  - destruct Hcase as [(-> & -> & _)|(Hno & _)];
      [|rewrite Hq in Hs; simpl in *; congruence].
    simpl in *.
    destruct (quiz_submitted (session w)) as [[]|] eqn:Hqw; simplify_eq/=.
    destruct Hsub as (_ & [pc Hpc] & [und Hund]); [done|].
    rewrite show_results_session. simpl. split.
    + unfold show_results. simpl. rewrite Hpc, Hund. by repeat case_match.
    + split; simpl; rewrite ?Hdf, ?Hm, ?Hpc, ?Hund; by eauto.
  - match goal with
    | |- context [quiz_form ?r ?u' ?rs ?m' ?w'] =>
        pose proof (quiz_form_session r u' rs m' w') as Hform;
        set (run := quiz_form r u' rs m' w') in *
    end.
    clearbody run. destruct Hform as (Hctl & Hdf' & Hm' & Hsub').
    simpl in *. split; [done|]. split.
    + rewrite Hdf', Hdf. split; intros _; [apply Hm'; by rewrite Hm | by eexists].
    + intros Hsubm. rewrite Hdf', Hdf. split; [by eexists|].
      destruct Hsub' as [Hsame|?]; [|done].
      rewrite Hq in Hs. simpl in Hs. rewrite Hsame, Hq in Hsubm. congruence.
Qed.

Lemma show_results_effects env w :
  (show_results env w).1 ≠ RerunException ∧
  calls (show_results env w).2 = calls w ∧
  disk (show_results env w).2 = disk w.
Proof. unfold show_results. by repeat case_match. Qed.

Lemma script_run_without_submit env u w :
  submit_click u = false →
  (script_run env u w).1 ≠ RerunException ∧
  calls (script_run env u w).2 = calls w ∧
  disk (script_run env u w).2 = disk w.
Proof.
  intros Hclick. unfold script_run.
  destruct (load_resources env) as [res|]; [|done].
  destruct (load_quiz_data env) as [original|]; [|done].
  simpl. destruct (shuffling_logic _ _ _ _) as [[ss1 g1]|]; [|done].
  destruct (default false (quiz_submitted ss1)).
  { match goal with
    | |- context [show_results env ?w'] =>
        by destruct (show_results_effects env w') as (? & -> & ->)
    end. }
  unfold quiz_form. rewrite Hclick. simpl. by case_decide.
Qed.

Lemma interact_keys_present env u w :
  keys_present (session w) →
  ((interact env u w).1 = Finished ∨ (interact env u w).1 = StopException) ∧
  keys_present (session (interact env u w).2).
Proof.
  intros Hkeys. unfold interact.
  set (w1 := if again_click u then _ else w).
  assert (keys_present (session w1)) as H1.
  { unfold w1. destruct (again_click u); [apply reset_keys_present | done]. }
  destruct (script_run_keys_present env u w1 H1) as [Hctl Hkeys1].
  destruct (script_run env u w1) as [ctl w2] eqn:Hrun. simpl in *.
  destruct ctl; try (split; [by eauto | done]).
  - destruct (script_run_keys_present env no_input w2 Hkeys1) as [Hctl2 Hkeys2].
    destruct (script_run_without_submit env no_input w2 eq_refl) as (Hno & _).
    split; [|done].
    destruct (script_run env no_input w2) as [[] w3]; simpl in *; try by eauto.
    by destruct (Hctl2 exc).
  - by destruct (Hctl exc).
Qed.

Lemma replay_keys_present env us w :
  keys_present (session w) → keys_present (session (replay env us w)).
Proof.
  revert w. induction us as [|u us IH]; intros w Hkeys; simpl; [done|].
  by apply IH, interact_keys_present.
Qed.

Lemma new_world_keys_present d g : keys_present (session (new_world d g)).
Proof. split; simpl; [|done]. by split; intros [? ?]. Qed.

(** X2: no interaction of a session ends in an exception the script
    does not catch: the reads of the shuffle keys (lines 124-129) and of
    the result keys (lines 260-296) always find them, and the rerun
    after a saved submission ends in the results view. *)
Theorem interaction_never_raises env d g us u :
  (interact env u (replay env us (new_world d g))).1 = Finished ∨
  (interact env u (replay env us (new_world d g))).1 = StopException.
Proof.
  apply interact_keys_present, replay_keys_present, new_world_keys_present.
Qed.

(** X3: a run in which "Submit My Answers" is not clicked calls neither
    the classifier nor the recorder, leaves the file alone and asks for
    no rerun, whatever else the user did. *)
Theorem no_submit_no_effect env u w :
  submit_click u = false →
  (script_run env u w).1 ≠ RerunException ∧
  calls (script_run env u w).2 = calls w ∧
  disk (script_run env u w).2 = disk w.
Proof. apply script_run_without_submit. Qed.

(** ** Runs that draw the form and runs that do not *)

Lemma shuffling_logic_selections np original ss g ss1 g1 :
  shuffling_logic np original ss g = Some (ss1, g1) →
  quiz_selections_display ss1 = quiz_selections_display ss.
Proof.
  unfold shuffling_logic. intros H.
  repeat case_match; simplify_eq/=; done.
Qed.

Lemma show_results_page env w el :
  el ∈ page (show_results env w).2 → el ∈ page w ∨ ¬ form_widget el.
Proof.
  intros Hel. destruct (decide (el ∈ page w)) as [?|Hno]; [by left|]. right.
  intros Hw. by apply show_results_widget in Hel.
Qed.

Lemma radio_heads_nil pg :
  (∀ el, el ∈ pg → ¬ form_widget el) → radio_heads pg = [].
Proof.
  induction pg as [|el pg IH]; intros Hno; [done|].
  unfold radio_heads in *. simpl.
  destruct el; try (apply IH; intros el' Hel'; apply Hno; by right).
  destruct (Hno (st_radio i question options index)); [left | done].
Qed.

Lemma script_run_form env u w :
  ((st_button "Submit My Answers" ∉ page (script_run env u w).2) ∧
   radio_heads (page (script_run env u w).2) = [] ∧
   (script_run env u w).1 ≠ RerunException ∧
   calls (script_run env u w).2 = calls w ∧
   (shuffle_fields (session (script_run env u w).2) = shuffle_fields (session w) ∨
    ∃ original ss1 g1,
      load_quiz_data env = Some original ∧
      shuffling_logic (numpy_random_state env) original
        (init_session_state (session w)) (rng w) = Some (ss1, g1) ∧
      shuffle_fields (session (script_run env u w).2) = shuffle_fields ss1))
  ∨ ∃ res original ss1 g1 rows m0,
      load_resources env = Some res ∧
      load_quiz_data env = Some original ∧
      shuffling_logic (numpy_random_state env) original
        (init_session_state (session w)) (rng w) = Some (ss1, g1) ∧
      shuffled_questions_df ss1 = Some rows ∧
      shuffled_options_map ss1 = Some m0 ∧
      quiz_submitted ss1 = Some false ∧
      name_entered u ss1 ≠ "" ∧
      script_run env u w
      = if submit_click u
        then submit_handler res (name_entered u ss1)
               (current_answers_for_model
                  (question_loop u 0 rows (loop_start ss1 m0 g1)))
               (quiz_is_complete (question_loop u 0 rows (loop_start ss1 m0 g1)))
               (form_drawn u ss1 (question_loop u 0 rows (loop_start ss1 m0 g1)) w)
        else (Finished,
              form_drawn u ss1 (question_loop u 0 rows (loop_start ss1 m0 g1)) w).
Proof.
  unfold script_run.
  destruct (load_resources env) as [res|].
  2:{ left. simpl. split_and!; [|done|done|done|by left].
      intros Hel. by apply list_elem_of_singleton in Hel. }
  destruct (load_quiz_data env) as [original|].
  2:{ left. simpl. split_and!; [|done|done|done|by left].
      intros Hel. by apply list_elem_of_singleton in Hel. }
  simpl.
  destruct (shuffling_logic _ _ _ _) as [[ss1 g1]|] eqn:Hsh.
  2:{ left. simpl. split_and!; [|done|done|done|by left].
      intros Hel. by apply elem_of_nil in Hel. }
  destruct (shuffling_logic_Some _ _ _ _ _ _ Hsh) as (rows & m0 & Hdf & Hm).
  pose proof (shuffling_logic_cases _ _ _ _ _ _ Hsh) as [Hq _]. simpl in Hq.
  rewrite Hdf, Hm. simpl.
  destruct (default false (quiz_submitted ss1)) eqn:Hs.
  { left. rewrite show_results_session. simpl. split_and!.
    - intros Hel. apply show_results_widget in Hel; [|done].
      by apply elem_of_nil in Hel.
    - apply radio_heads_nil. intros el Hel Hw.
      apply show_results_widget in Hel; [|done]. by apply elem_of_nil in Hel.
    - match goal with
      | |- context [show_results env ?w'] =>
          by destruct (show_results_effects env w') as (? & _ & _)
      end.
    - match goal with
      | |- context [show_results env ?w'] =>
          by destruct (show_results_effects env w') as (_ & -> & _)
      end.
    - right. by eauto 6. }
  unfold quiz_form. simpl. fold (name_entered u ss1).
  case_decide as Hname.
  { left. simpl. split_and!.
    - rewrite !elem_of_cons. intros [?|[?|Hel]]; try done.
      by apply elem_of_nil in Hel.
    - done.
    - done.
    - done.
    - right. exists original, ss1, g1. by rewrite Hsh. }
  right. exists res, original, ss1, g1, rows, m0. split_and!; try done.
  rewrite Hq in Hs |- *. simpl in Hs. by rewrite Hs.
Qed.

(** ** More on the loop over the questions *)

Section question_loop_more.
Context (u : UserInput).

Lemma radio_heads_app pg1 pg2 :
  radio_heads (pg1 ++ pg2) = radio_heads pg1 ++ radio_heads pg2.
Proof. apply omap_app. Qed.

Lemma question_loop_heads i rows s :
  radio_heads (widgets (question_loop u i rows s))
  = radio_heads (widgets s) ++ imap (λ k row, (i + k, Question row)) rows.
Proof.
  revert i s. induction rows as [|row rows IH]; intros i s; simpl.
  - by rewrite app_nil_r.
  - rewrite IH, render_question_widgets, radio_heads_app, <- app_assoc.
    simpl. rewrite Nat.add_0_r. do 2 f_equal.
    apply imap_ext. intros k r _. simpl. f_equal. lia.
Qed.

Lemma radio_elem_of i opts idx :
  PLACEHOLDER ∈ opts → radio u i opts idx ∈ opts.
Proof.
  intros Hph. unfold radio.
  assert (default PLACEHOLDER (opts !! idx) ∈ opts) as Hshown.
  { destruct (opts !! idx) as [s|] eqn:Hs; simpl; [|done].
    by eapply list_elem_of_lookup_2. }
  destruct (radio_click u i) as [k|]; [|done].
  destruct (opts !! k) as [s|] eqn:Hs; simpl; [|done].
  by eapply list_elem_of_lookup_2.
Qed.

Lemma selected_option_elem_of i row s :
  selected_option u i row s
  ∈ PLACEHOLDER ::
    labelled (option_order (q_key i) row (options_map s) (loop_rng s)).1.1.
Proof.
  unfold selected_option. rewrite label_options_display.
  apply radio_elem_of. left.
Qed.

Lemma render_question_selections_ok i row s :
  selections_ok (selections s) (options_map s) →
  selections_ok (selections (render_question u i row s))
                (options_map (render_question u i row s)).
Proof.
  intros Hok j sel.
  rewrite render_question_selections, render_question_options_map.
  destruct (decide (j = i)) as [->|Hne].
  - rewrite lookup_insert_eq. intros [= <-].
    eexists. split; [apply option_order_stored | apply selected_option_elem_of].
  - rewrite lookup_insert_ne by (intros E; by apply q_key_inj in E).
    intros Hsel. destruct (Hok j sel Hsel) as (p & Hp & Hin).
    exists p. split; [by apply option_order_keeps | done].
Qed.

Lemma question_loop_selections_ok i rows s :
  selections_ok (selections s) (options_map s) →
  selections_ok (selections (question_loop u i rows s))
                (options_map (question_loop u i rows s)).
Proof.
  revert i s. induction rows as [|row rows IH]; intros i s Hok; simpl; [done|].
  by apply IH, render_question_selections_ok.
Qed.

Lemma render_question_answers i row s :
  current_answers_for_model (render_question u i row s)
  = current_answers_for_model s ++
    [coded_answer_of
       (label_options 0
          (option_order (q_key i) row (options_map s) (loop_rng s)).1.1
          [PLACEHOLDER] ∅).2
       (selected_option u i row s)] ∧
  quiz_is_complete (render_question u i row s)
  = (if decide (coded_answer_of
                  (label_options 0
                     (option_order (q_key i) row (options_map s) (loop_rng s)).1.1
                     [PLACEHOLDER] ∅).2
                  (selected_option u i row s) = INVALID)
     then false else quiz_is_complete s).
Proof.
  unfold render_question, selected_option.
  destruct (option_order _ _ _ _) as [[p m'] g'].
  by destruct (label_options _ _ _ _).
Qed.

Lemma question_loop_answers_length i rows s :
  length (current_answers_for_model (question_loop u i rows s))
  = length (current_answers_for_model s) + length rows.
Proof.
  revert i s. induction rows as [|row rows IH]; intros i s; simpl; [lia|].
  rewrite IH. destruct (render_question_answers i row s) as [-> _].
  rewrite length_app. simpl. lia.
Qed.

(** With five pairs carrying the codes A-E, a display string of the
    question is mapped to INVALID exactly when it is the placeholder,
    and to one of the codes otherwise. *)
Lemma coded_answer_cases p s :
  p.*1 ≡ₚ codes →
  s ∈ PLACEHOLDER :: labelled p →
  (s = PLACEHOLDER ∧
   coded_answer_of (label_options 0 p [PLACEHOLDER] ∅).2 s = INVALID) ∨
  (s ≠ PLACEHOLDER ∧
   coded_answer_of (label_options 0 p [PLACEHOLDER] ∅).2 s ∈ codes).
Proof.
  intros Hcodes Hs. unfold coded_answer_of.
  destruct (decide (s = PLACEHOLDER)) as [->|Hne]; [by left|]. right.
  split; [done|].
  apply elem_of_cons in Hs as [?|Hs]; [done|].
  unfold labelled in Hs.
  apply elem_of_lookup_imap in Hs as (k & [code text] & -> & Hk). simpl.
  assert (length p = 5) as Hlen.
  { rewrite <- (length_fmap fst), Hcodes. done. }
  assert (0 + length p ≤ 191) as Hbound by (rewrite Hlen; lia).
  pose proof (label_options_lookup 0 p [PLACEHOLDER] ∅ k code text Hbound Hk)
    as Hlk.
  simpl in Hlk. rewrite Hlk. simpl. rewrite <- Hcodes.
  apply list_elem_of_fmap. exists (code, text). split; [done|].
  by eapply list_elem_of_lookup_2.
Qed.

Lemma INVALID_not_code : INVALID ∉ codes.
Proof. compute_done. Qed.

Lemma original_options_codes row : (original_options row).*1 = codes.
Proof. done. Qed.

(** What the loop adds to the answers when the stored orders permute
    the options of their rows. *)
Lemma question_loop_answers (all_rows : list QuestionRow) i rows s :
  (∀ k row, rows !! k = Some row → all_rows !! (i + k) = Some row) →
  options_wf all_rows (options_map s) →
  Forall (λ a, a = INVALID ∨ a ∈ codes) (current_answers_for_model s) →
  Forall (λ a, a = INVALID ∨ a ∈ codes)
         (current_answers_for_model (question_loop u i rows s)) ∧
  (quiz_is_complete (question_loop u i rows s) = true →
   Forall (.∈ codes) (current_answers_for_model s) →
   Forall (.∈ codes) (current_answers_for_model (question_loop u i rows s))) ∧
  (quiz_is_complete s = true →
   (∀ j, i ≤ j < i + length rows →
         selections (question_loop u i rows s) !! q_key j ≠ Some PLACEHOLDER) →
   quiz_is_complete (question_loop u i rows s) = true).
Proof.
  revert i s. induction rows as [|row rows IH]; intros i s Hrows Hwf Hall; simpl.
  { split; [done|]. split; [done|]. by intros ->. }
  assert (options_wf all_rows (options_map (render_question u i row s))) as Hwf1.
  { apply (question_loop_wf u all_rows i [row] s); [|done].
    intros [|k] r Hk; simplify_eq/=. apply (Hrows 0). done. }
  set (p := (option_order (q_key i) row (options_map s) (loop_rng s)).1.1).
  assert (p.*1 ≡ₚ codes) as Hp.
  { destruct (Hwf1 i p) as (row' & _ & Hperm).
    - rewrite render_question_options_map. apply option_order_stored.
    - by rewrite Hperm. }
  pose proof (coded_answer_cases p (selected_option u i row s) Hp
                (selected_option_elem_of i row s)) as Hcase.
  destruct (render_question_answers i row s) as [Hans Hcomp]. fold p in Hans, Hcomp.
  destruct (IH (S i) (render_question u i row s)) as (IH1 & IH2 & IH3);
    [ intros k r Hk; replace (S i + k) with (i + S k) by lia; by apply Hrows
    | done
    | rewrite Hans; apply Forall_app; split; [done|];
      apply Forall_singleton; destruct Hcase as [[_ ->]|[_ ?]]; by eauto
    | ].
  split; [done|]. split.
  - intros Hc Hcodes. apply IH2; [done|].
    rewrite Hans. apply Forall_app. split; [done|]. apply Forall_singleton.
    destruct Hcase as [[_ Hinv]|[_ ?]]; [|done].
    assert (quiz_is_complete (render_question u i row s) = false) as Hf
      by (rewrite Hcomp; by rewrite decide_True).
    apply (question_loop_incomplete u (S i) rows) in Hf. congruence.
  - intros Hc Hsel. apply IH3.
    + rewrite Hcomp. rewrite decide_False; [done|].
      destruct Hcase as [[Hph _]|[_ Hcode]].
      * specialize (Hsel i ltac:(lia)).
        rewrite question_loop_selections_before in Hsel by lia.
        rewrite render_question_selections, lookup_insert_eq in Hsel.
        congruence.
      * intros E. rewrite E in Hcode. by apply INVALID_not_code in Hcode.
    + intros j Hj. apply Hsel. lia.
Qed.

End question_loop_more.

(** ** What the handler adds *)

Lemma submit_handler_page_app res user_name answers complete w :
  ∃ ns, page (submit_handler res user_name answers complete w).2 = page w ++ ns ∧
        Forall is_notice ns ∧
        (complete = true → st_warning AnswerAllQuestions ∉ ns).
Proof.
  unfold submit_handler, unexpected, update_user_submissions.
  destruct complete; simpl;
  repeat (first [case_match | progress simplify_eq/=]);
    rewrite <- ?app_assoc; eexists; (split; [done|]);
    (split; [repeat (apply Forall_cons_2; [exact I|]); apply Forall_nil_2|]);
    intros ?; try done;
    rewrite ?elem_of_cons; intros Hel; split_elem_of; done.
Qed.

Lemma radio_heads_notices ns : Forall is_notice ns → radio_heads ns = [].
Proof.
  intros Hns. apply radio_heads_nil. intros el Hel Hw.
  rewrite Forall_forall in Hns. specialize (Hns el Hel). by destruct el.
Qed.

Lemma submit_handler_shuffle_fields res user_name answers complete w :
  shuffle_fields (session (submit_handler res user_name answers complete w).2)
  = shuffle_fields (session w).
Proof.
  by destruct (submit_handler_session res user_name answers complete w)
    as [->|(p & _ & ->)].
Qed.

Lemma submit_handler_calls res user_name answers complete w :
  calls (submit_handler res user_name answers complete w).2 = calls w ∨
  (complete = true ∧
   ∃ input_df,
     encode_answers (label_encoders res) (zip feature_cols answers) []
     = Encoded input_df ∧
     (calls (submit_handler res user_name answers complete w).2
      = calls w ++ [call_predict input_df] ∨
      ∃ predicted new_entry_df,
        predicted_for res answers = Some predicted ∧
        one_row_frame ([user_name] ++ answers ++ [predicted]) submission_columns
        = Some new_entry_df ∧
        calls (submit_handler res user_name answers complete w).2
        = calls w ++ [call_predict input_df;
                      call_update_user_submissions new_entry_df])).
Proof.
  unfold submit_handler, predicted_for, unexpected.
  destruct complete; simpl; [|by left].
  destruct (encode_answers _ _ _) as [input_df| |]; simpl; try by left.
  right. split; [done|]. exists input_df. split; [done|].
  destruct (model res input_df) as [code|]; simpl; [|by left].
  destruct (inverse_transform _ _) as [predicted|]; simpl; [|by left].
  destruct (one_row_frame _ _) as [entry|] eqn:Hentry; simpl; [|by left].
  right. exists predicted, entry. split; [done|]. split; [done|].
  destruct (update_user_submissions _ _) as [[[] d] els]; simpl;
    by rewrite <- app_assoc.
Qed.

(** ** The form *)

(** X4: a run that draws the form draws one radio for each row of the
    question order, in that order and numbered from 0: every question
    on show is asked exactly once. *)
Theorem form_asks_every_question env u w rows :
  st_button "Submit My Answers" ∈ page (script_run env u w).2 →
  shuffled_questions_df (session (script_run env u w).2) = Some rows →
  radio_heads (page (script_run env u w).2)
  = imap (λ k row, (k, Question row)) rows.
Proof.
  destruct (script_run_form env u w)
    as [(Hno & _)|(res & orig & ss1 & g1 & rows1 & m0 & _ & _ & _ & Hdf & _ & _ & _ & ->)];
    [done|].
  intros _.
  set (l := question_loop u 0 rows1 (loop_start ss1 m0 g1)).
  assert (radio_heads (page (form_drawn u ss1 l w))
          = imap (λ k row, (k, Question row)) rows1) as Hheads.
  { simpl. change (?x :: ?l1 ++ ?l2) with ([x] ++ l1 ++ l2).
    rewrite !radio_heads_app. unfold l. rewrite question_loop_heads.
    simpl. by rewrite app_nil_r. }
  destruct (submit_click u); simpl.
  - pose proof (submit_handler_shuffle_fields res (name_entered u ss1)
                  (current_answers_for_model l) (quiz_is_complete l)
                  (form_drawn u ss1 l w)) as Hf.
    destruct (submit_handler_page_app res (name_entered u ss1)
                (current_answers_for_model l) (quiz_is_complete l)
                (form_drawn u ss1 l w)) as (ns & Hpage & Hns & _).
    unfold shuffle_fields in Hf. injection Hf as Hdf' _ _.
    rewrite Hdf', Hpage, radio_heads_app, Hheads, radio_heads_notices by done.
    simpl. rewrite Hdf, app_nil_r. by intros [= ->].
  - rewrite Hdf. intros [= <-]. exact Hheads.
Qed.

(** ** Stored selections can always be restored *)

Lemma selections_shown_fields ss ss' :
  shuffle_fields ss' = shuffle_fields ss →
  selections_shown ss → selections_shown ss'.
Proof.
  unfold shuffle_fields, selections_shown, orders_together.
  by intros [= -> -> ->].
Qed.

Lemma orders_wf_fields ss ss' :
  shuffle_fields ss' = shuffle_fields ss → orders_wf ss → orders_wf ss'.
Proof. unfold shuffle_fields, orders_wf. by intros [= -> -> _]. Qed.

Lemma shuffling_logic_shown np original ss g ss1 g1 :
  shuffling_logic np original (init_session_state ss) g = Some (ss1, g1) →
  selections_shown ss → selections_shown ss1.
Proof.
  intros Hsh (Hnone & Htog & Hok).
  pose proof (shuffling_logic_selections _ _ _ _ _ _ Hsh) as Hsel.
  apply shuffling_logic_cases in Hsh as [_ [(-> & _ & _)|(_ & Hdf & Hnew & Hm & _)]].
  - done.
  - simpl in *. unfold selections_shown, orders_together.
    rewrite Hnew, Hm, Hsel. simpl. rewrite (Hnone Hdf).
    split; [done|]. split; [done|]. intros i s Hs. by rewrite lookup_empty in Hs.
Qed.

Lemma shuffling_logic_wf np original ss g ss1 g1 :
  shuffling_logic np original (init_session_state ss) g = Some (ss1, g1) →
  orders_wf ss → orders_wf ss1.
Proof.
  intros Hsh Hwf.
  apply shuffling_logic_cases in Hsh as [_ [(-> & _ & _)|(_ & _ & _ & Hm & _)]].
  - done.
  - intros rows m _ Hm'. rewrite Hm in Hm'. simplify_eq.
    intros j p Hj. by rewrite lookup_empty in Hj.
Qed.

Lemma script_run_shown env u w :
  selections_shown (session w) →
  selections_shown (session (script_run env u w).2).
Proof.
  intros Hinv.
  destruct (script_run_form env u w)
    as [(_ & _ & _ & _ & [Hf|(orig & ss1 & g1 & _ & Hsh & Hf)])
       |(res & orig & ss1 & g1 & rows & m0 & _ & _ & Hsh & Hdf & Hm & _ & _ & ->)].
  - by apply (selections_shown_fields (session w)).
  - apply (selections_shown_fields ss1); [done|].
    by apply (shuffling_logic_shown _ _ _ _ _ _ Hsh).
  - pose proof (shuffling_logic_shown _ _ _ _ _ _ Hsh Hinv) as (_ & _ & Hok).
    rewrite Hm in Hok. simpl in Hok.
    set (l := question_loop u 0 rows (loop_start ss1 m0 g1)).
    assert (selections_shown (session (form_drawn u ss1 l w))) as Hform.
    { unfold selections_shown, orders_together. simpl. rewrite Hdf.
      split; [done|]. split; [done|].
      by apply (question_loop_selections_ok u 0 rows (loop_start ss1 m0 g1)). }
    destruct (submit_click u); [|done].
    eapply selections_shown_fields; [apply submit_handler_shuffle_fields|done].
Qed.

Lemma interact_shown env u w :
  selections_shown (session w) → selections_shown (session (interact env u w).2).
Proof.
  intros Hinv. unfold interact.
  set (w1 := if again_click u then _ else w).
  assert (selections_shown (session w1)) as H1.
  { unfold w1. destruct (again_click u); [|done].
    split; [done|]. split; [done|]. intros i s Hs. simpl in Hs.
    by rewrite lookup_empty in Hs. }
  pose proof (script_run_shown env u w1 H1) as H2.
  destruct (script_run env u w1) as [[] w2]; simpl in *; try done.
  by apply script_run_shown.
Qed.

Lemma replay_selections_shown env us w :
  selections_shown (session w) → selections_shown (session (replay env us w)).
Proof.
  revert w. induction us as [|u us IH]; intros w Hinv; simpl; [done|].
  by apply IH, interact_shown.
Qed.

(** X5: in every session, each display string stored as a selection is
    an option of its question's frozen order, so restoring it finds it:
    the fallback to position 0 for a string that is no longer an option
    is never taken. *)
Theorem stored_selection_is_restored env d g us i s :
  quiz_selections_display (session (replay env us (new_world d g)))
    ≫= (.!! q_key i) = Some s →
  ∃ p,
    option_order_of i (session (replay env us (new_world d g))) = Some p ∧
    s ∈ PLACEHOLDER :: labelled p ∧
    (PLACEHOLDER :: labelled p) !! restore_index (PLACEHOLDER :: labelled p) s
    = Some s.
Proof.
  intros Hs.
  assert (selections_shown (session (new_world d g))) as H0.
  { split; [done|]. split; [done|]. intros j t Ht. simpl in Ht.
    by rewrite lookup_empty in Ht. }
  destruct (replay_selections_shown env us _ H0) as (_ & _ & Hok).
  destruct (quiz_selections_display _) as [sel|] eqn:Hsel; [|done].
  simpl in *. destruct (Hok i s Hs) as (p & Hp & Hin).
  exists p. unfold option_order_of.
  destruct (shuffled_options_map _) as [m|]; simpl in *;
    [|by rewrite lookup_empty in Hp].
  split; [done|]. split; [done|].
  unfold restore_index.
  destruct (index_of_is_Some s (PLACEHOLDER :: labelled p) Hin) as [k Hk].
  rewrite Hk. by apply index_of_Some.
Qed.

(** ** A fully answered form *)

Lemma question_loop_only_radios u (all_rows : list QuestionRow) rows l0 el :
  widgets l0 = [] → el ∈ widgets (question_loop u 0 rows l0) → is_radio el.
Proof.
  intros Hw Hel.
  apply (question_loop_widgets u rows 0 rows l0) in Hel as [Hel|Hel]; [| |done].
  - rewrite Hw in Hel. by apply elem_of_nil in Hel.
  - by destruct Hel as (? & ? & ? & ? & -> & _).
Qed.

Lemma script_run_answered env u w rows :
  orders_wf (session w) →
  submit_click u = true →
  st_button "Submit My Answers" ∈ page (script_run env u w).2 →
  shuffled_questions_df (session (script_run env u w).2) = Some rows →
  (∀ i, i < length rows →
        quiz_selections_display (session (script_run env u w).2)
          ≫= (.!! q_key i) ≠ Some PLACEHOLDER) →
  (st_warning AnswerAllQuestions ∉ page (script_run env u w).2) ∧
  ((script_run env u w).1 = StopException ∨
   ∃ input_df rest,
     calls (script_run env u w).2 = calls w ++ call_predict input_df :: rest).
Proof.
  intros Hwf Hclick.
  destruct (script_run_form env u w)
    as [(Hno & _)|(res & orig & ss1 & g1 & rows1 & m0 & _ & _ & Hsh & Hdf & Hm & _ & _ & ->)];
    [done|].
  rewrite Hclick. intros _.
  set (l := question_loop u 0 rows1 (loop_start ss1 m0 g1)).
  pose proof (submit_handler_session res (name_entered u ss1)
                (current_answers_for_model l) (quiz_is_complete l)
                (form_drawn u ss1 l w)) as Hses.
  intros Hrows Hsel.
  assert (rows = rows1 ∧
          ∀ i, i < length rows1 → selections l !! q_key i ≠ Some PLACEHOLDER)
    as [-> Hsel1].
  { destruct Hses as [Hs|(p & _ & Hs)]; rewrite Hs in Hrows, Hsel; simpl in *;
      rewrite Hdf in Hrows; by simplify_eq. }
  pose proof (shuffling_logic_wf _ _ _ _ _ _ Hsh Hwf rows1 m0 Hdf Hm) as Hwf0.
  destruct (question_loop_answers u rows1 0 rows1 (loop_start ss1 m0 g1))
    as (_ & _ & Hcomplete); [done | done | done |].
  assert (quiz_is_complete l = true) as Hc.
  { apply Hcomplete; [done|]. intros j Hj. apply Hsel1. lia. }
  rewrite Hc. split.
  - destruct (submit_handler_page_app res (name_entered u ss1)
                (current_answers_for_model l) true (form_drawn u ss1 l w))
      as (ns & -> & _ & Hns).
    rewrite elem_of_app. intros [Hel|Hel]; [|by apply Hns].
    simpl in Hel. rewrite elem_of_cons, elem_of_app in Hel.
    destruct Hel as [?|[Hel|Hel]]; [done| |].
    + by apply (question_loop_only_radios u rows1) in Hel.
    + by apply list_elem_of_singleton in Hel.
  - unfold submit_handler. cbn [negb].
    destruct (encode_answers _ _ _) as [input_df| |]; [|by left..].
    right. exists input_df. unfold unexpected.
    repeat (first [case_match | progress simplify_eq/=]);
      rewrite <- ?app_assoc; by eexists.
Qed.

(** X6: in every session, a run that draws the form with "Submit My
    Answers" clicked and no question left on the placeholder is not
    rejected as incomplete: the answers are encoded, and unless an
    encoder error stops the run, the run itself calls the classifier:
    its call is the first one added to the calls made before. *)
Theorem answered_form_is_accepted env d g us u rows :
  submit_click u = true →
  st_button "Submit My Answers"
    ∈ page (script_run env u (replay env us (new_world d g))).2 →
  shuffled_questions_df
    (session (script_run env u (replay env us (new_world d g))).2) = Some rows →
  (∀ i, i < length rows →
        quiz_selections_display
          (session (script_run env u (replay env us (new_world d g))).2)
          ≫= (.!! q_key i) ≠ Some PLACEHOLDER) →
  (st_warning AnswerAllQuestions
     ∉ page (script_run env u (replay env us (new_world d g))).2) ∧
  ((script_run env u (replay env us (new_world d g))).1 = StopException ∨
   ∃ input_df rest,
     calls (script_run env u (replay env us (new_world d g))).2
     = calls (replay env us (new_world d g)) ++ call_predict input_df :: rest).
Proof.
  apply script_run_answered, replay_wf, new_world_wf.
Qed.

(** ** What reaches the recorder *)

Lemma script_run_entries env u w :
  orders_wf (session w) → entries_coded w →
  entries_coded (script_run env u w).2.
Proof.
  intros Hwf Hinv.
  destruct (script_run_form env u w)
    as [(_ & _ & _ & Hcalls & _)
       |(res & orig & ss1 & g1 & rows & m0 & _ & _ & Hsh & Hdf & Hm & _ & _ & ->)].
  { unfold entries_coded. by rewrite Hcalls. }
  set (l := question_loop u 0 rows (loop_start ss1 m0 g1)).
  destruct (submit_click u); [|done].
  pose proof (shuffling_logic_wf _ _ _ _ _ _ Hsh Hwf rows m0 Hdf Hm) as Hwf0.
  destruct (question_loop_answers u rows 0 rows (loop_start ss1 m0 g1))
    as (_ & Hcodes & _); [done | done | done |].
  destruct (submit_handler_calls res (name_entered u ss1)
              (current_answers_for_model l) (quiz_is_complete l)
              (form_drawn u ss1 l w))
    as [Hc|(Hcomp & input_df & _ & [Hc|(p & entry & _ & Hentry & Hc)])];
    unfold entries_coded; rewrite Hc; simpl; intros df Hin.
  - by apply Hinv.
  - apply elem_of_app in Hin as [Hin|Hin]; [by apply Hinv|].
    by apply list_elem_of_singleton in Hin.
  - apply elem_of_app in Hin as [Hin|Hin]; [by apply Hinv|].
    rewrite !elem_of_cons in Hin. destruct Hin as [?|[[= ->]|Hin]]; [done| |];
      [|by apply elem_of_nil in Hin].
    unfold one_row_frame in Hentry. case_decide as Hlen; [|done].
    simplify_eq. rewrite ?length_cons, ?length_app in Hlen. simpl in Hlen.
    exists (name_entered u ss1), (current_answers_for_model l), p.
    split; [lia|]. split; [|done]. by apply Hcodes.
Qed.

Lemma interact_entries env u w :
  orders_wf (session w) → entries_coded w → entries_coded (interact env u w).2.
Proof.
  intros Hwf Hinv. unfold interact.
  set (w1 := if again_click u then _ else w).
  assert (orders_wf (session w1) ∧ entries_coded w1) as [Hwf1 H1].
  { unfold w1. destruct (again_click u); [|done]. split; [apply reset_wf|done]. }
  pose proof (script_run_entries env u w1 Hwf1 H1) as H2.
  pose proof (script_run_wf env u w1 Hwf1) as Hwf2.
  destruct (script_run env u w1) as [[] w2]; simpl in *; try done.
  by apply script_run_entries.
Qed.

Lemma replay_entries env us w :
  orders_wf (session w) → entries_coded w → entries_coded (replay env us w).
Proof.
  revert w. induction us as [|u us IH]; intros w Hwf Hinv; simpl; [done|].
  apply IH; [by apply interact_wf | by apply interact_entries].
Qed.

(** X7: every entry a session hands to the recorder is one row under
    the header Name, A1..A5, Predicted_Character, and its five answers
    are model codes A-E: neither the placeholder nor a display string
    is ever recorded. *)
Theorem recorded_answers_are_codes env d g us df :
  call_update_user_submissions df ∈ calls (replay env us (new_world d g)) →
  ∃ user_name answers predicted,
    length answers = 5 ∧ Forall (.∈ codes) answers ∧
    df = {| columns := submission_columns;
            rows := [list_to_map (zip submission_columns
                                      ([user_name] ++ answers ++ [predicted]))] |}.
Proof.
  apply (replay_entries env us (new_world d g)); [apply new_world_wf|].
  intros df' Hin. by apply elem_of_nil in Hin.
Qed.

(** ** A saved submission *)

Lemma submission_row_lookup user_name answers predicted :
  length answers = 5 →
  submission_row user_name answers predicted !! "Name" = Some user_name ∧
  submission_row user_name answers predicted !! "Predicted_Character"
  = Some predicted ∧
  ∀ k col a, feature_cols !! k = Some col → answers !! k = Some a →
             submission_row user_name answers predicted !! col = Some a.
Proof.
  intros Hlen. do 6 (destruct answers as [|? answers]; try done).
  split; [done|]. split; [done|].
  intros k col a Hcol Ha.
  do 5 (destruct k as [|k]; [by simplify_eq/=|]). done.
Qed.

Lemma submit_handler_rerun_inv res user_name answers complete w w' :
  submit_handler res user_name answers complete w = (RerunException, w') →
  ∃ predicted wb all_sheets,
    complete = true ∧ length answers = 5 ∧
    predicted_for res answers = Some predicted ∧
    workbook (disk w) = Some wb ∧
    read_excel (disk w) wb = Some all_sheets ∧
    writable (disk w) = true ∧
    to_excel (disk w)
      (appended (submission_entry user_name answers predicted) all_sheets)
    = None ∧
    session w' = mark_submitted user_name predicted (session w) ∧
    page w' = page w ∧ rng w' = rng w ∧
    disk w'
    = with_workbook
        (Some (appended (submission_entry user_name answers predicted)
                        all_sheets))
        (disk w).
Proof.
  unfold submit_handler, predicted_for, unexpected.
  destruct complete; cbn [negb]; [|done].
  destruct (encode_answers _ _ _) as [input_df| |]; [|done|done].
  destruct (model res input_df) as [code|]; cbn [mbind option_bind]; [|done].
  destruct (inverse_transform _ _) as [predicted|]; [|done].
  destruct (decide (length answers = 5)) as [Hlen|Hlen].
  2:{ unfold one_row_frame. rewrite decide_False; [done|].
      rewrite length_app, length_app. simpl. lia. }
  rewrite (one_row_frame_entry user_name answers predicted Hlen).
  cbn [disk call].
  destruct (update_user_submissions _ _) as [[[] d'] els] eqn:Hu; [|done].
  apply update_user_submissions_saved in Hu
    as (wb & all_sheets & Hwb & Hr & Hwr & Hw & -> & ->).
  intros [= <-]. exists predicted, wb, all_sheets. simpl.
  split_and!; try done. by rewrite app_nil_r.
Qed.

(** X8: when the prediction succeeds, the sheets are read, the file
    opens for writing and the writer takes the sheets with the new
    entry, the handler asks for a rerun with nothing added to the page
    and marks the session submitted with the character and the name.
    The file then holds the sheets as they were read, and its sheet
    [user_submissions] holds the rows as read followed by the row with
    the name, the five answers under A1..A5 and the character. *)
Theorem saved_submission_is_recorded res user_name answers w predicted wb
    all_sheets :
  length answers = 5 →
  predicted_for res answers = Some predicted →
  workbook (disk w) = Some wb →
  read_excel (disk w) wb = Some all_sheets →
  writable (disk w) = true →
  to_excel (disk w)
    (appended (submission_entry user_name answers predicted) all_sheets)
  = None →
  (submit_handler res user_name answers true w).1 = RerunException ∧
  page (submit_handler res user_name answers true w).2 = page w ∧
  session (submit_handler res user_name answers true w).2
  = mark_submitted user_name predicted (session w) ∧
  ∃ wb' user_sub_df row,
    workbook (disk (submit_handler res user_name answers true w).2) = Some wb' ∧
    filter (λ s, s.1 ≠ "user_submissions") wb'
    = filter (λ s, s.1 ≠ "user_submissions") all_sheets ∧
    sheet_get "user_submissions" wb' = Some user_sub_df ∧
    rows user_sub_df
    = default [] (rows <$> sheet_get "user_submissions" all_sheets) ++ [row] ∧
    row !! "Name" = Some user_name ∧
    row !! "Predicted_Character" = Some predicted ∧
    ∀ k col a, feature_cols !! k = Some col → answers !! k = Some a →
               row !! col = Some a.
Proof.
  intros Hlen Hp Hwb Hr Hwr Hw.
  assert (submit_handler res user_name answers true w
          = (RerunException,
             with_session (mark_submitted user_name predicted (session w))
               (put []
                  (with_disk
                     (with_workbook
                        (Some (appended
                                 (submission_entry user_name answers predicted)
                                 all_sheets)) (disk w))
                     (call (call_update_user_submissions
                              (submission_entry user_name answers predicted))
                        (call (call_predict
                                 match encode_answers (label_encoders res)
                                         (zip feature_cols answers) [] with
                                 | Encoded input_df => input_df
                                 | _ => []
                                 end) w))))))
    as Hrun.
  { revert Hp. unfold submit_handler, predicted_for, unexpected. cbn [negb].
    destruct (encode_answers _ _ _) as [input_df| |]; [|done|done].
    destruct (model res input_df) as [code|]; cbn [mbind option_bind]; [|done].
    destruct (inverse_transform _ _) as [p|]; [|done].
    intros [= ->]. rewrite (one_row_frame_entry user_name answers predicted Hlen).
    cbn [disk call].
    by rewrite (update_user_submissions_reads _ _ wb all_sheets Hwb Hr Hwr Hw). }
  rewrite Hrun. simpl. split; [done|]. split; [by rewrite app_nil_r|].
  split; [done|]. unfold appended.
  eexists _, _, (submission_row user_name answers predicted).
  split; [done|]. split; [apply sheet_set_others|].
  split; [apply sheet_get_set|]. simpl.
  split; [by destruct (sheet_get _ all_sheets)|].
  by apply submission_row_lookup.
Qed.

(** X9: when a run ends in the rerun of a saved submission, the rerun
    ends normally and opens its page with the announcement of the name
    and the character of the row that was just appended to the sheet
    [user_submissions]: what is shown is what was saved. *)
Theorem result_page_announces_saved_row env u w w' :
  script_run env u w = (RerunException, w') →
  ∃ user_name predicted user_sub_df row,
    (script_run env no_input w').1 = Finished ∧
    head (page (script_run env no_input w').2)
    = Some (st_success (YouAreMostLike user_name predicted)) ∧
    workbook (disk w') ≫= sheet_get "user_submissions" = Some user_sub_df ∧
    last (rows user_sub_df) = Some row ∧
    row !! "Name" = Some user_name ∧
    row !! "Predicted_Character" = Some predicted.
Proof.
  destruct (script_run_form env u w)
    as [(_ & _ & Hno & _)
       |(res & orig & ss1 & g1 & rows & m0 & Hres & Hdata & _ & Hdf & _ & _ & _ & ->)].
  { intros Hrun. by rewrite Hrun in Hno. }
  destruct (submit_click u); [|done].
  intros Hrun.
  destruct (submit_handler_rerun_inv _ _ _ _ _ _ Hrun)
    as (p & wb & all_sheets & _ & Hlen & _ & _ & _ & _ & _ & Hses & _ & _ & Hdisk).
  destruct (submission_row_lookup (name_entered u ss1) _ p Hlen)
    as (Hname & Hpred & _).
  eexists (name_entered u ss1), p, _, _.
  split_and!;
    [| |rewrite Hdisk; simpl; unfold appended; by rewrite sheet_get_set
     | |done|done].
  - unfold script_run. rewrite Hres, Hdata. simpl. rewrite Hses. simpl.
    unfold shuffling_logic. simpl. rewrite Hdf. simpl.
    unfold show_results. simpl. by repeat case_match.
  - unfold script_run. rewrite Hres, Hdata. simpl. rewrite Hses. simpl.
    unfold shuffling_logic. simpl. rewrite Hdf. simpl.
    unfold show_results. simpl. by repeat case_match.
  - simpl. by rewrite last_snoc.
Qed.

(** ** Encoding the answers *)

Lemma encode_answers_prefix encoders pre post acc :
  Forall (λ ca, ∃ le, encoders !! ca.1 = Some le ∧ ca.2 ∈ classes_ le) pre →
  ∃ vals,
    encode_answers encoders (pre ++ post) acc
    = encode_answers encoders post (acc ++ vals) ∧
    Forall2 (λ ca cv, cv.1 = ca.1 ∧
                      ∃ le, encoders !! ca.1 = Some le ∧
                            transform le ca.2 = Some cv.2 ∧
                            inverse_transform le cv.2 = Some ca.2) pre vals.
Proof.
  intros Hpre. revert acc.
  induction Hpre as [|[c a] pre (le & Hle & Hin) _ IH]; intros acc.
  { exists []. by rewrite app_nil_r. }
  destruct (index_of_is_Some a (classes_ le) Hin) as [v Hv].
  destruct (IH (acc ++ [(c, v)])) as (vals & Heq & Hvals).
  exists ((c, v) :: vals). simpl in *. unfold transform. rewrite Hle, Hv, Heq.
  rewrite <- app_assoc. split; [done|].
  constructor; [|done]. split; [done|]. exists le. split; [done|].
  split; [done|]. by apply index_of_Some.
Qed.

Lemma zip_encodable (encoders : gmap string LabelEncoder) (answers : list string) :
  (∀ k col a, feature_cols !! k = Some col → answers !! k = Some a →
              ∃ le, encoders !! col = Some le ∧ a ∈ classes_ le) →
  Forall (λ ca, ∃ le, encoders !! ca.1 = Some le ∧ ca.2 ∈ classes_ le)
         (zip feature_cols answers).
Proof.
  intros Hall. apply Forall_lookup. intros k [c a] Hk.
  apply lookup_zip_Some in Hk as [Hc Ha]. by apply (Hall k).
Qed.

(** X10: when each of five answers is in the vocabulary of its
    column's encoder, the handler calls the classifier with one row
    whose columns are A1..A5 in that order, and each value of the row
    is decoded by the column's encoder back to the answer. *)
Theorem encoded_row_reaches_classifier res user_name answers w :
  length answers = 5 →
  (∀ k col a, feature_cols !! k = Some col → answers !! k = Some a →
              ∃ le, label_encoders res !! col = Some le ∧ a ∈ classes_ le) →
  ∃ input_df rest,
    calls (submit_handler res user_name answers true w).2
    = calls w ++ call_predict input_df :: rest ∧
    input_df.*1 = feature_cols ∧
    ∀ k col a, feature_cols !! k = Some col → answers !! k = Some a →
      ∃ le v, label_encoders res !! col = Some le ∧
              input_df !! k = Some (col, v) ∧
              transform le a = Some v ∧ inverse_transform le v = Some a.
Proof.
  intros Hlen Hall.
  destruct (encode_answers_prefix (label_encoders res)
              (zip feature_cols answers) [] [] (zip_encodable _ _ Hall))
    as (input_df & Henc & Hvals).
  rewrite app_nil_r in Henc. cbn [encode_answers app] in Henc.
  assert (∃ rest, calls (submit_handler res user_name answers true w).2
                  = calls w ++ call_predict input_df :: rest) as [rest Hcalls].
  { unfold submit_handler, unexpected. cbn [negb]. rewrite Henc.
    repeat (first [case_match | progress simplify_eq/=]);
      rewrite <- ?app_assoc; by eexists. }
  exists input_df, rest. split; [done|].
  assert (length (zip feature_cols answers) = 5) as Hzip
    by (rewrite length_zip, Hlen; done).
  split.
  - apply list_eq. intros k. rewrite list_lookup_fmap.
    destruct (feature_cols !! k) as [col|] eqn:Hcol.
    + assert (is_Some (answers !! k)) as [a Ha].
      { apply lookup_lt_is_Some. apply lookup_lt_Some in Hcol.
        simpl in Hcol. lia. }
      assert (zip feature_cols answers !! k = Some (col, a)) as Hk
        by (by apply lookup_zip_Some).
      destruct (Forall2_lookup_l _ _ _ _ _ Hvals Hk) as ([c v] & -> & Hc & _).
      simpl in *. by subst.
    + apply lookup_ge_None in Hcol. simpl in Hcol.
      rewrite (proj2 (lookup_ge_None _ _)); [done|].
      rewrite <- (Forall2_length _ _ _ Hvals), Hzip. lia.
  - intros k col a Hcol Ha.
    assert (zip feature_cols answers !! k = Some (col, a)) as Hk
      by (by apply lookup_zip_Some).
    destruct (Forall2_lookup_l _ _ _ _ _ Hvals Hk)
      as ([c v] & Hv & Hc & le & Hle & Ht & Hi).
    simpl in *. subst. by exists le, v.
Qed.

(** X11: when the first feature column without an encoder comes after
    columns whose answers all encode, the handler reports that column's
    encoder as not found and stops the run; the classifier and the
    recorder are not called and the session and the file are as
    before. *)
Theorem missing_encoder_aborts res user_name answers w k col :
  feature_cols !! k = Some col →
  k < length answers →
  label_encoders res !! col = None →
  (∀ j c a, j < k → feature_cols !! j = Some c → answers !! j = Some a →
            ∃ le, label_encoders res !! c = Some le ∧ a ∈ classes_ le) →
  submit_handler res user_name answers true w
  = (StopException, put [st_error (EncoderNotFound col)] w).
Proof.
  intros Hcol Hk Hnone Hbefore.
  destruct (lookup_lt_is_Some_2 answers k Hk) as [a Ha].
  assert (zip feature_cols answers !! k = Some (col, a)) as Hzk
    by (by apply lookup_zip_Some).
  unfold submit_handler. cbn [negb].
  rewrite <- (take_drop_middle _ _ _ Hzk).
  destruct (encode_answers_prefix (label_encoders res)
              (take k (zip feature_cols answers))
              ((col, a) :: drop (S k) (zip feature_cols answers)) [])
    as (vals & -> & _).
  { apply Forall_lookup. intros j [c b] Hj.
    apply lookup_take_Some in Hj as [Hj Hlt].
    apply lookup_zip_Some in Hj as [Hc Hb]. by apply (Hbefore j). }
  simpl. by rewrite Hnone.
Qed.

(** ** What the recorder writes *)

(** X12: whatever the reader returns and the writer does, a call of the
    recorder that succeeds leaves the file holding the sheets as the
    reader returned them, in that order, with [user_submissions]
    holding the rows as read followed by the rows of the entry, a sheet
    that was not there going last; nothing is reported.  A call that
    fails reports the one save error, and the file is as it was when
    the read raised or the file did not open for writing. *)
Theorem recorder_writes_what_it_reads new_entry_df d :
  (∀ d' els,
     update_user_submissions new_entry_df d = (true, d', els) →
     els = [] ∧
     ∃ wb all_sheets wb' user_sub_df,
       workbook d = Some wb ∧ read_excel d wb = Some all_sheets ∧
       workbook d' = Some wb' ∧ to_excel d wb' = None ∧
       sheet_get "user_submissions" wb' = Some user_sub_df ∧
       rows user_sub_df
       = default [] (rows <$> sheet_get "user_submissions" all_sheets)
         ++ rows new_entry_df ∧
       filter (λ s, s.1 ≠ "user_submissions") wb'
       = filter (λ s, s.1 ≠ "user_submissions") all_sheets ∧
       wb'.*1 = match sheet_get "user_submissions" all_sheets with
                | Some _ => all_sheets.*1
                | None => all_sheets.*1 ++ ["user_submissions"]
                end) ∧
  (∀ d' els,
     update_user_submissions new_entry_df d = (false, d', els) →
     els = [st_error SaveSubmissionFailed] ∧
     (workbook d ≫= read_excel d = None ∨ writable d = false → d' = d)).
Proof.
  split; intros d' els Hrun.
  - apply update_user_submissions_saved in Hrun
      as (wb & all_sheets & Hwb & Hr & _ & Hw & -> & ->).
    split; [done|].
    exists wb, all_sheets, (appended new_entry_df all_sheets). unfold appended in *.
    eexists. split; [done|]. split; [done|]. split; [done|]. split; [done|].
    split; [apply sheet_get_set|]. simpl.
    split; [by destruct (sheet_get _ all_sheets)|].
    split; [apply sheet_set_others | apply sheet_set_names].
  - pose proof (update_user_submissions_failed new_entry_df d) as Hels.
    rewrite Hrun in Hels. split; [by apply Hels|].
    revert Hrun. unfold update_user_submissions.
    intros Hrun [Hread|Hwr].
    + rewrite Hread in Hrun. by simplify_eq.
    + rewrite Hwr in Hrun. destruct (workbook d ≫= read_excel d); by simplify_eq.
Qed.

(** * Fitted encoders *)

Section train.

Lemma string_le_total : Total Train.string_le.
Proof. intros a b. apply String.leb_total. Qed.

Lemma fit_elem_of y x : x ∈ classes_ (Train.fit y) ↔ x ∈ y.
Proof.
  unfold Train.fit. simpl.
  rewrite (merge_sort_Permutation Train.string_le (remove_dups y)).
  apply elem_of_remove_dups.
Qed.

Lemma fit_NoDup y : NoDup (classes_ (Train.fit y)).
Proof.
  unfold Train.fit. simpl.
  rewrite (merge_sort_Permutation Train.string_le (remove_dups y)).
  apply NoDup_remove_dups.
Qed.

Lemma index_of_lookup_NoDup l k y :
  NoDup l → l !! k = Some y → index_of y l = Some k.
Proof.
  intros Hnd. revert k. induction Hnd as [|x l Hx Hnd IH]; intros k Hk; [done|].
  destruct k as [|k]; simpl in *.
  - simplify_eq. by rewrite decide_True.
  - rewrite decide_False.
    + by rewrite (IH k Hk).
    + intros ->. apply Hx. by eapply list_elem_of_lookup_2.
Qed.

(** A fitted encoder's vocabulary is the column's values, sorted and
    without duplicates. *)
Lemma fitted_classes_sorted_unique y :
  Sorted Train.string_le (classes_ (Train.fit y)) ∧
  NoDup (classes_ (Train.fit y)) ∧
  ∀ x, x ∈ classes_ (Train.fit y) ↔ x ∈ y.
Proof.
  split; [|split; [apply fit_NoDup | apply fit_elem_of]].
  apply (@Sorted_merge_sort _ Train.string_le _ string_le_total).
Qed.

Lemma fit_transform_Some y :
  ∃ encoded,
    (Train.fit_transform y).2 = Some encoded ∧
    Forall2 (λ x k, transform (Train.fit y) x = Some k ∧
                    inverse_transform (Train.fit y) k = Some x) y encoded.
Proof.
  unfold Train.fit_transform. simpl.
  destruct (mapM_is_Some_2 (transform (Train.fit y)) y) as [encoded Henc].
  { apply Forall_forall. intros x Hx. simpl. unfold transform.
    apply index_of_is_Some. by apply fit_elem_of. }
  exists encoded. split; [done|].
  apply mapM_Some_1 in Henc.
  eapply Forall2_impl; [done|]. intros x k Hk. split; [done|].
  by apply index_of_Some.
Qed.

(** X13: [fit_transform] never fails on the column it is fitted on, and
    the fitted encoder is a bijection between the column's values and
    their codes: decoding the codes gives the column back, and encoding
    what a code decodes to gives the code back. *)
Theorem label_encoder_round_trip y :
  (∃ encoded,
     (Train.fit_transform y).2 = Some encoded ∧
     length encoded = length y ∧
     mapM (inverse_transform (Train.fit y)) encoded = Some y) ∧
  (∀ k c, inverse_transform (Train.fit y) k = Some c →
          transform (Train.fit y) c = Some k).
Proof.
  split.
  - destruct (fit_transform_Some y) as (encoded & Henc & Hall).
    exists encoded. split; [done|].
    split; [symmetry; by eapply Forall2_length|].
    apply mapM_Some_2. apply Forall2_flip.
    eapply Forall2_impl; [done|]. by intros x k [_ ?].
  - intros k c Hk. by apply index_of_lookup_NoDup; [apply fit_NoDup|].
Qed.

Lemma submit_handler_encoded res user_name answers w input_df :
  encode_answers (label_encoders res) (zip feature_cols answers) []
  = Encoded input_df →
  (submit_handler res user_name answers true w).1 ≠ StopException ∧
  ∃ rest, calls (submit_handler res user_name answers true w).2
          = calls w ++ call_predict input_df :: rest.
Proof.
  intros Henc. unfold submit_handler, unexpected. cbn [negb]. rewrite Henc.
  repeat (first [case_match | progress simplify_eq/=]);
    rewrite <- ?app_assoc; by eauto.
Qed.

(** X15: an encoder set whose encoders were fitted, as training fits
    them, on columns of text that hold the answers given never turns
    those answers away for an unseen answer or a missing encoder: the
    handler goes on to call the classifier, and the value it passes
    for a column is the place of the answer among the sorted distinct
    values of the column the encoder was fitted on. *)
Theorem fitted_encoders_accept_their_columns res user_name answers w :
  (∀ k col a, feature_cols !! k = Some col → answers !! k = Some a →
              ∃ y, label_encoders res !! col = Some (Train.fit y) ∧ a ∈ y) →
  (submit_handler res user_name answers true w).1 ≠ StopException ∧
  ∃ input_df rest,
    calls (submit_handler res user_name answers true w).2
    = calls w ++ call_predict input_df :: rest ∧
    ∀ k col a, feature_cols !! k = Some col → answers !! k = Some a →
      ∃ y v, label_encoders res !! col = Some (Train.fit y) ∧
             input_df !! k = Some (col, v) ∧
             merge_sort Train.string_le (remove_dups y) !! v = Some a.
Proof.
  intros Hans.
  destruct (encode_answers_prefix (label_encoders res)
              (zip feature_cols answers) [] [])
    as (input_df & Heq & Hvals).
  { apply zip_encodable. intros k col a Hcol Ha.
    destruct (Hans k col a Hcol Ha) as (y & Hy & Hin).
    exists (Train.fit y). split; [done | by apply fit_elem_of]. }
  rewrite app_nil_r in Heq. cbn [encode_answers app] in Heq.
  destruct (submit_handler_encoded res user_name answers w input_df Heq)
    as [Hctl [rest Hcalls]].
  split; [done|]. exists input_df, rest. split; [done|].
  intros k col a Hcol Ha.
  destruct (Hans k col a Hcol Ha) as (y & Hy & _).
  assert (zip feature_cols answers !! k = Some (col, a)) as Hk
    by (by apply lookup_zip_Some).
  destruct (Forall2_lookup_l _ _ _ _ _ Hvals Hk)
    as ([c v] & Hv & Hc & le & Hle & _ & Hi).
  simpl in *. subst. rewrite Hy in Hle. simplify_eq.
  by exists y, v.
Qed.

End train.

(** * The share link *)

Section share.

Lemma list_ascii_app a b :
  String.list_ascii_of_string (a +:+ b)
  = String.list_ascii_of_string a ++ String.list_ascii_of_string b.
Proof. induction a as [|c a IH]; simpl; [done | by rewrite IH]. Qed.

Lemma list_ascii_inj a b :
  String.list_ascii_of_string a = String.list_ascii_of_string b → a = b.
Proof.
  intros H. rewrite <- (String.string_of_list_ascii_of_string a),
              <- (String.string_of_list_ascii_of_string b). by rewrite H.
Qed.

Lemma append_inv_head s a b : s +:+ a = s +:+ b → a = b.
Proof.
  intros H. apply list_ascii_inj. apply (f_equal String.list_ascii_of_string) in H.
  rewrite !list_ascii_app in H. by apply app_inv_head in H.
Qed.

Lemma append_inv_tail s a b : a +:+ s = b +:+ s → a = b.
Proof.
  intros H. apply list_ascii_inj. apply (f_equal String.list_ascii_of_string) in H.
  rewrite !list_ascii_app in H. by apply app_inv_tail in H.
Qed.

Lemma hex_digit_safe n : Share.safe (Share.hex_digit n) = true.
Proof. do 16 (destruct n as [|n]; [reflexivity|]). by destruct n. Qed.

Lemma byte_round_trip c :
  (a ← Share.hex_value (Share.hex_digit (nat_of_ascii c / 16));
   b ← Share.hex_value (Share.hex_digit (nat_of_ascii c `mod` 16));
   Some (ascii_of_nat (16 * a + b))) = Some c.
Proof. destruct c as [[] [] [] [] [] [] [] []]; vm_compute; reflexivity. Qed.

Lemma safe_not_percent c : Share.safe c = true → Ascii.eqb c "%" = false.
Proof. destruct c as [[] [] [] [] [] [] [] []]; vm_compute; done. Qed.

Lemma append_cons c s t : String c s +:+ t = String c (s +:+ t).
Proof. reflexivity. Qed.

Lemma append_nil t : "" +:+ t = t.
Proof. reflexivity. Qed.

Lemma unquote_plain c q :
  Ascii.eqb c "%" = false →
  Share.unquote (String c q) = String c (Share.unquote q).
Proof.
  intros Hc. destruct q as [|h [|l q]]; cbn [Share.unquote]; by rewrite ?Hc.
Qed.

Lemma unquote_escape c q :
  Share.unquote (Share.percent_encode c +:+ q) = String c (Share.unquote q).
Proof.
  pose proof (byte_round_trip c) as Hc.
  unfold Share.percent_encode. rewrite !append_cons, append_nil.
  cbn [Share.unquote]. rewrite Ascii.eqb_refl.
  destruct (Share.hex_value (Share.hex_digit (nat_of_ascii c / 16)))
    as [a|] eqn:Ha; [|simpl in Hc; done].
  destruct (Share.hex_value (Share.hex_digit (nat_of_ascii c `mod` 16)))
    as [b|] eqn:Hb; [|simpl in Hc; done].
  cbn [mbind option_bind] in *. by simplify_eq.
Qed.

Lemma unquote_quote s : Share.unquote (Share.quote s) = s.
Proof.
  induction s as [|c s IH]; [done|]. cbn [Share.quote].
  destruct (Share.safe c) eqn:Hsafe.
  - rewrite append_cons, append_nil.
    rewrite unquote_plain by (by apply safe_not_percent). by rewrite IH.
  - by rewrite unquote_escape, IH.
Qed.

Lemma quote_inj a b : Share.quote a = Share.quote b → a = b.
Proof. intros H. by rewrite <- (unquote_quote a), <- (unquote_quote b), H. Qed.

Lemma quote_chars s :
  Forall (λ c, Share.safe c = true ∨ c = "%"%char)
         (String.list_ascii_of_string (Share.quote s)).
Proof.
  induction s as [|c s IH]; [by constructor|]. cbn [Share.quote].
  rewrite list_ascii_app. apply Forall_app. split; [|done].
  destruct (Share.safe c) eqn:Hsafe; simpl.
  - apply Forall_cons_2; [by left | apply Forall_nil_2].
  - apply Forall_cons_2; [by right|].
    do 2 (apply Forall_cons_2; [left; apply hex_digit_safe|]).
    apply Forall_nil_2.
Qed.

Lemma quote_url_chars s :
  Forall (λ c, Share.url_char c = true)
         (String.list_ascii_of_string (Share.quote s)).
Proof.
  eapply Forall_impl; [apply quote_chars|]. intros c [Hc| ->].
  - unfold Share.url_char. by rewrite Hc.
  - reflexivity.
Qed.

(** X16: whatever the predicted character is, the share link is made of
    unescaped letters, digits and [_.-~/], the escape sign and the
    template's own separators [:?=&] only; a quote, a space, an angle
    bracket or a hash from the character's name never appears in it.
    Escaping loses nothing: two predicted characters with the same
    share link are the same character. *)
Theorem share_link_is_escaped predicted_character :
  Forall (λ c, Share.url_char c = true)
         (String.list_ascii_of_string
            (Share.linkedin_share_url predicted_character)) ∧
  (∀ c, c ∈ String.list_ascii_of_string " <>#'" ++ [ascii_of_nat 34] →
        c ∉ String.list_ascii_of_string
              (Share.linkedin_share_url predicted_character)) ∧
  (∀ other, Share.linkedin_share_url predicted_character
            = Share.linkedin_share_url other →
            predicted_character = other).
Proof.
  assert (Forall (λ c, Share.url_char c = true)
            (String.list_ascii_of_string
               (Share.linkedin_share_url predicted_character))) as Hall.
  { unfold Share.linkedin_share_url. rewrite !list_ascii_app.
    repeat apply Forall_app_2; try apply quote_url_chars; compute_done. }
  split; [done|]. split.
  - intros c Hc Hin.
    rewrite Forall_forall in Hall. specialize (Hall c Hin).
    simpl in Hc. rewrite !elem_of_cons in Hc.
    destruct Hc as [->|[->|[->|[->|[->|[->|Hc]]]]]]; try done.
    by apply elem_of_nil in Hc.
  - intros other H. unfold Share.linkedin_share_url, Share.share_text in H.
    do 3 apply append_inv_head in H. apply quote_inj in H.
    apply append_inv_head in H. by apply append_inv_tail in H.
Qed.

End share.

(** * Names, failed loading and the picture *)

Section more_invariants.

Lemma script_run_named env u w :
  entries_named w → entries_named (script_run env u w).2.
Proof.
  intros Hinv.
  destruct (script_run_form env u w)
    as [(_ & _ & _ & Hcalls & _)
       |(res & orig & ss1 & g1 & rows & m0 & _ & _ & Hsh & Hdf & Hm & _ & Hname & ->)].
  { unfold entries_named. by rewrite Hcalls. }
  set (l := question_loop u 0 rows (loop_start ss1 m0 g1)).
  destruct (submit_click u); [|done].
  destruct (submit_handler_calls res (name_entered u ss1)
              (current_answers_for_model l) (quiz_is_complete l)
              (form_drawn u ss1 l w))
    as [Hc|(Hcomp & input_df & _ & [Hc|(p & entry & _ & Hentry & Hc)])];
    unfold entries_named; rewrite Hc; simpl; intros df row Hin Hrow.
  - by apply (Hinv df).
  - apply elem_of_app in Hin as [Hin|Hin]; [by apply (Hinv df)|].
    by apply list_elem_of_singleton in Hin.
  - apply elem_of_app in Hin as [Hin|Hin]; [by apply (Hinv df)|].
    rewrite !elem_of_cons in Hin. destruct Hin as [?|[[= ->]|Hin]]; [done| |];
      [|by apply elem_of_nil in Hin].
    unfold one_row_frame in Hentry. case_decide as Hlen; [|done].
    simplify_eq. simpl in Hrow. apply list_elem_of_singleton in Hrow as ->.
    exists (name_entered u ss1). split; [|done].
    rewrite ?length_cons, ?length_app in Hlen. simpl in Hlen.
    apply (submission_row_lookup (name_entered u ss1)
             (current_answers_for_model l) p). lia.
Qed.

Lemma interact_named env u w :
  entries_named w → entries_named (interact env u w).2.
Proof.
  intros Hinv. unfold interact.
  set (w1 := if again_click u then _ else w).
  assert (entries_named w1) as H1.
  { unfold w1. by destruct (again_click u). }
  pose proof (script_run_named env u w1 H1) as H2.
  destruct (script_run env u w1) as [[] w2]; simpl in *; try done.
  by apply script_run_named.
Qed.

Lemma replay_named env us w :
  entries_named w → entries_named (replay env us w).
Proof.
  revert w. induction us as [|u us IH]; intros w Hinv; simpl; [done|].
  by apply IH, interact_named.
Qed.

(** X17: no session records a submission without a name: every row
    handed to the recorder has a name under [Name], and the name is not
    the empty string. *)
Theorem recorded_name_is_not_empty env d g us df row :
  call_update_user_submissions df ∈ calls (replay env us (new_world d g)) →
  row ∈ rows df →
  ∃ user_name, row !! "Name" = Some user_name ∧ user_name ≠ "".
Proof.
  apply (replay_named env us (new_world d g)).
  intros df' row' Hin. by apply elem_of_nil in Hin.
Qed.

Lemma script_run_load_failure env u w :
  load_resources env = None ∨ load_quiz_data env = None →
  ∃ n, script_run env u w
       = (StopException,
          {| session := session w; disk := disk w; rng := rng w;
             page := [st_error n]; calls := calls w |}).
Proof.
  intros Hload. unfold script_run.
  destruct (load_resources env) as [res|]; [|by eexists].
  destruct (load_quiz_data env) as [original|]; [|by eexists].
  by destruct Hload.
Qed.

Lemma interact_load_failure env u w :
  load_resources env = None ∨ load_quiz_data env = None →
  (interact env u w).1 = StopException ∧
  (∃ n, page (interact env u w).2 = [st_error n]) ∧
  calls (interact env u w).2 = calls w ∧
  disk (interact env u w).2 = disk w ∧
  rng (interact env u w).2 = rng w.
Proof.
  intros Hload. unfold interact.
  set (w1 := if again_click u then _ else w).
  assert (calls w1 = calls w ∧ disk w1 = disk w ∧ rng w1 = rng w)
    as (Hc & Hd & Hg).
  { unfold w1. by destruct (again_click u). }
  destruct (script_run_load_failure env u w1 Hload) as [n ->]. simpl.
  rewrite Hc, Hd, Hg. split_and!; by eauto.
Qed.

Lemma replay_load_failure env us w :
  load_resources env = None ∨ load_quiz_data env = None →
  calls (replay env us w) = calls w ∧
  disk (replay env us w) = disk w ∧
  rng (replay env us w) = rng w.
Proof.
  intros Hload. revert w. induction us as [|u us IH]; intros w; simpl; [done|].
  destruct (interact_load_failure env u w Hload) as (_ & _ & Hc & Hd & Hg).
  destruct (IH (interact env u w).2) as (Hc' & Hd' & Hg').
  by rewrite Hc', Hd', Hg'.
Qed.

(** X18: when the artifacts or the quiz table cannot be loaded, every
    interaction of the session is stopped with one error on the page
    and nothing else: no question is asked, the classifier and the
    recorder are never called, the file is as it was and the generator
    is never drawn from. *)
Theorem load_failure_stops_every_run env d g us u :
  load_resources env = None ∨ load_quiz_data env = None →
  (interact env u (replay env us (new_world d g))).1 = StopException ∧
  (∃ n, page (interact env u (replay env us (new_world d g))).2
        = [st_error n]) ∧
  calls (interact env u (replay env us (new_world d g))).2 = [] ∧
  disk (interact env u (replay env us (new_world d g))).2 = d ∧
  rng (interact env u (replay env us (new_world d g))).2 = g.
Proof.
  intros Hload.
  destruct (interact_load_failure env u (replay env us (new_world d g)) Hload)
    as (Hctl & Hpage & Hc & Hd & Hg).
  destruct (replay_load_failure env us (new_world d g) Hload)
    as (Hc' & Hd' & Hg').
  rewrite Hc, Hd, Hg, Hc', Hd', Hg'. by split_and!.
Qed.

Lemma script_run_submitted env u w res original :
  load_resources env = Some res → load_quiz_data env = Some original →
  quiz_submitted (session w) = Some true →
  keys_present (session w) →
  script_run env u w
  = show_results env
      {| session := init_session_state (session w); disk := disk w;
         rng := rng w; page := []; calls := calls w |}.
Proof.
  intros Hres Horig Hsub [Hboth Hkeys]. unfold script_run.
  rewrite Hres, Horig. simpl.
  destruct (Hkeys Hsub) as ([rows Hdf] & _).
  destruct (proj1 Hboth (ex_intro _ rows Hdf)) as [m Hm].
  unfold shuffling_logic. simpl. rewrite Hsub. simpl. rewrite Hdf. simpl.
  rewrite Hm. simpl. by rewrite ?Hsub.
Qed.

(** X19: in a session that is submitted, a run ends normally and shows
    the announcement first and the share link and "Take Quiz Again"
    last, whatever the picture lookup finds.  A picture on the page is
    a file that exists and opens, the [.jpg] when there is one and the
    [.png] only when there is no [.jpg]; the description is shown as
    text of its own exactly when neither file exists. *)
Theorem result_view_picture_lookup env d g us u res original :
  load_resources env = Some res → load_quiz_data env = Some original →
  quiz_submitted (session (replay env us (new_world d g))) = Some true →
  ∃ user_name predicted mid,
    predicted_character (session (replay env us (new_world d g)))
    = Some predicted ∧
    user_name_display (session (replay env us (new_world d g)))
    = Some user_name ∧
    (script_run env u (replay env us (new_world d g))).1 = Finished ∧
    page (script_run env u (replay env us (new_world d g))).2
    = st_success (YouAreMostLike user_name predicted) :: mid
      ++ [st_share_link predicted; st_button "Take Quiz Again"] ∧
    (∀ path caption, st_image path caption ∈ mid →
       path_exists env path = true ∧ image_opens env path = true ∧
       caption = predicted +:+ ": " +:+ description predicted ∧
       (path = img_path_jpg predicted ∨
        path = img_path_png predicted ∧
        path_exists env (img_path_jpg predicted) = false)) ∧
    (st_markdown (description predicted) ∈ mid ↔
     path_exists env (img_path_jpg predicted) = false ∧
     path_exists env (img_path_png predicted) = false).
Proof.
  intros Hres Horig Hsub.
  pose proof (replay_keys_present env us (new_world d g)
                (new_world_keys_present d g)) as Hkeys.
  rewrite (script_run_submitted env u _ res original Hres Horig Hsub Hkeys).
  destruct Hkeys as [_ Hk].
  destruct (Hk Hsub) as (_ & [predicted Hp] & [user_name Hn]).
  exists user_name, predicted.
  unfold show_results. simpl. rewrite Hp, Hn.
  fold (img_path_jpg predicted). fold (img_path_png predicted).
  fold (description predicted).
  destruct (path_exists env (img_path_jpg predicted)) eqn:Hjpg;
    [destruct (image_opens env (img_path_jpg predicted)) eqn:Hopen
    |destruct (path_exists env (img_path_png predicted)) eqn:Hpng;
     [destruct (image_opens env (img_path_png predicted)) eqn:Hopen|]];
    simpl.
  - exists [st_image (img_path_jpg predicted)
              (predicted +:+ ": " +:+ description predicted)].
    split_and!; try done.
    + intros path caption Hin. apply list_elem_of_singleton in Hin.
      simplify_eq. split_and!; by eauto.
    + split; [|by intros [? ?]].
      intros Hin. by apply list_elem_of_singleton in Hin.
  - exists [st_warning (ImageLoadFailed predicted (img_path_jpg predicted))].
    split_and!; try done.
    + intros path caption Hin. by apply list_elem_of_singleton in Hin.
    + split; [|by intros [? ?]].
      intros Hin. by apply list_elem_of_singleton in Hin.
  - exists [st_image (img_path_png predicted)
              (predicted +:+ ": " +:+ description predicted)].
    split_and!; try done.
    + intros path caption Hin. apply list_elem_of_singleton in Hin.
      simplify_eq. split_and!; by eauto.
    + split; [|by intros [? ?]].
      intros Hin. by apply list_elem_of_singleton in Hin.
  - exists [st_warning (ImageLoadFailed predicted (img_path_png predicted))].
    split_and!; try done.
    + intros path caption Hin. by apply list_elem_of_singleton in Hin.
    + split; [|by intros [? ?]].
      intros Hin. by apply list_elem_of_singleton in Hin.
  - exists [st_warning (ImageNotFound predicted);
            st_markdown (description predicted)].
    split_and!; try done.
    + intros path caption Hin. rewrite !elem_of_cons in Hin.
      destruct Hin as [?|[?|Hin]]; [done|done|by apply elem_of_nil in Hin].
    + split; [done|]. intros _. rewrite !elem_of_cons. by eauto.
Qed.

End more_invariants.

(** ** The further properties at the worked session *)

Lemma pair_of_fst {A B} (p : A * B) (a : A) : p.1 = a → p = (a, p.2).
Proof. destruct p as [a' b]. simpl. by intros ->. Qed.

(** X1 at the worked session. *)
Lemma questions_shown_witness : Fixture.shuffled ≡ₚ Fixture.questions.
Proof.
  apply (questions_shown_permute_table Fixture.env Fixture.file Fixture.draws
           [no_input; Fixture.enter_name] Fixture.questions Fixture.shuffled);
    vm_compute; reflexivity.
Defined.

(** X3 for a run of the worked session in which only the name is typed. *)
Lemma no_submit_witness :
  (script_run Fixture.env Fixture.enter_name Fixture.form_shown).1
  ≠ RerunException ∧
  calls (script_run Fixture.env Fixture.enter_name Fixture.form_shown).2
  = calls Fixture.form_shown ∧
  disk (script_run Fixture.env Fixture.enter_name Fixture.form_shown).2
  = disk Fixture.form_shown.
Proof.
  apply (no_submit_no_effect Fixture.env Fixture.enter_name Fixture.form_shown).
  reflexivity.
Defined.

(** X4 for the run of the worked session that leaves a question out. *)
Lemma form_asks_witness :
  radio_heads
    (page (script_run Fixture.env Fixture.skip_one_and_submit
             Fixture.form_shown).2)
  = imap (λ k row, (k, Question row)) Fixture.shuffled.
Proof.
  apply (form_asks_every_question Fixture.env Fixture.skip_one_and_submit
           Fixture.form_shown Fixture.shuffled);
    [compute_done | vm_compute; reflexivity].
Defined.

(** X5 for the selection stored for the first question shown. *)
Lemma stored_selection_witness :
  ∃ p,
    option_order_of 0
      (session (replay Fixture.env Worked.answered
                  (new_world Fixture.file Fixture.draws))) = Some p ∧
    "A. 5e" ∈ PLACEHOLDER :: labelled p ∧
    (PLACEHOLDER :: labelled p) !! restore_index (PLACEHOLDER :: labelled p) "A. 5e"
    = Some "A. 5e".
Proof.
  apply (stored_selection_is_restored Fixture.env Fixture.file Fixture.draws
           Worked.answered 0 "A. 5e").
  vm_compute. reflexivity.
Defined.

(** X6 for the run of the worked session that answers every question. *)
Lemma answered_form_witness :
  (st_warning AnswerAllQuestions
     ∉ page (script_run Fixture.env Fixture.answer_and_submit
               (replay Fixture.env [no_input; Fixture.enter_name]
                  (new_world Fixture.file Fixture.draws))).2) ∧
  ((script_run Fixture.env Fixture.answer_and_submit
      (replay Fixture.env [no_input; Fixture.enter_name]
         (new_world Fixture.file Fixture.draws))).1 = StopException ∨
   ∃ input_df rest,
     calls (script_run Fixture.env Fixture.answer_and_submit
              (replay Fixture.env [no_input; Fixture.enter_name]
                 (new_world Fixture.file Fixture.draws))).2
     = calls (replay Fixture.env [no_input; Fixture.enter_name]
                (new_world Fixture.file Fixture.draws))
       ++ call_predict input_df :: rest).
Proof.
  apply (answered_form_is_accepted Fixture.env Fixture.file Fixture.draws
           [no_input; Fixture.enter_name] Fixture.answer_and_submit
           Fixture.shuffled);
    [reflexivity | compute_done | vm_compute; reflexivity |].
  intros i Hi.
  do 5 (destruct i as [|i]; [by vm_compute|]).
  simpl in Hi. lia.
Defined.

(** X7 for the entry the worked session hands to the recorder. *)
Lemma recorded_answers_witness :
  ∃ user_name answers predicted,
    length answers = 5 ∧ Forall (.∈ codes) answers ∧
    Fixture.entry
    = {| columns := submission_columns;
         rows := [list_to_map (zip submission_columns
                                   ([user_name] ++ answers ++ [predicted]))] |}.
Proof.
  apply (recorded_answers_are_codes Fixture.env Fixture.file Fixture.draws
           Worked.submitting Fixture.entry).
  apply (list_elem_of_lookup_2 _ 1). vm_compute. reflexivity.
Defined.

(** X8 for the worked submission. *)
Lemma saved_submission_witness :
  (submit_handler Fixture.artifacts "Ann" Worked.answers true
     Fixture.form_shown).1 = RerunException ∧
  page (submit_handler Fixture.artifacts "Ann" Worked.answers true
          Fixture.form_shown).2 = page Fixture.form_shown ∧
  session (submit_handler Fixture.artifacts "Ann" Worked.answers true
             Fixture.form_shown).2
  = mark_submitted "Ann" "Ron Weasley" (session Fixture.form_shown) ∧
  ∃ wb' user_sub_df row,
    workbook (disk (submit_handler Fixture.artifacts "Ann" Worked.answers true
                      Fixture.form_shown).2) = Some wb' ∧
    filter (λ s, s.1 ≠ "user_submissions") wb'
    = filter (λ s, s.1 ≠ "user_submissions") Fixture.sheets ∧
    sheet_get "user_submissions" wb' = Some user_sub_df ∧
    rows user_sub_df
    = default [] (rows <$> sheet_get "user_submissions" Fixture.sheets) ++ [row] ∧
    row !! "Name" = Some "Ann" ∧
    row !! "Predicted_Character" = Some "Ron Weasley" ∧
    ∀ k col a, feature_cols !! k = Some col → Worked.answers !! k = Some a →
               row !! col = Some a.
Proof.
  apply (saved_submission_is_recorded Fixture.artifacts "Ann" Worked.answers
           Fixture.form_shown "Ron Weasley" Fixture.sheets Fixture.sheets);
    vm_compute; reflexivity.
Defined.

(** X9 for the rerun after the worked submission. *)
Lemma result_page_witness :
  ∃ user_name predicted user_sub_df row,
    (script_run Fixture.env no_input
       (script_run Fixture.env Fixture.answer_and_submit Fixture.form_shown).2).1
    = Finished ∧
    head (page (script_run Fixture.env no_input
                  (script_run Fixture.env Fixture.answer_and_submit
                     Fixture.form_shown).2).2)
    = Some (st_success (YouAreMostLike user_name predicted)) ∧
    workbook (disk (script_run Fixture.env Fixture.answer_and_submit
                      Fixture.form_shown).2)
      ≫= sheet_get "user_submissions" = Some user_sub_df ∧
    last (rows user_sub_df) = Some row ∧
    row !! "Name" = Some user_name ∧
    row !! "Predicted_Character" = Some predicted.
Proof.
  apply (result_page_announces_saved_row Fixture.env Fixture.answer_and_submit
           Fixture.form_shown
           (script_run Fixture.env Fixture.answer_and_submit
              Fixture.form_shown).2).
  apply pair_of_fst. vm_compute. reflexivity.
Defined.

(** X10 for the worked submission. *)
Lemma encoded_row_witness :
  ∃ input_df rest,
    calls (submit_handler Fixture.artifacts "Ann" Worked.answers true
             Fixture.form_shown).2
    = calls Fixture.form_shown ++ call_predict input_df :: rest ∧
    input_df.*1 = feature_cols ∧
    ∀ k col a, feature_cols !! k = Some col → Worked.answers !! k = Some a →
      ∃ le v, label_encoders Fixture.artifacts !! col = Some le ∧
              input_df !! k = Some (col, v) ∧
              transform le a = Some v ∧ inverse_transform le v = Some a.
Proof.
  apply (encoded_row_reaches_classifier Fixture.artifacts "Ann" Worked.answers
           Fixture.form_shown); [reflexivity|].
  intros k col a Hk Ha.
  do 5 (destruct k as [|k];
        [simpl in Hk, Ha; simplify_eq; exists Fixture.encoder;
         split; [vm_compute; reflexivity | compute_done]|]).
  done.
Defined.

(** X11 with an encoder set that has no encoder for A3. *)
Lemma missing_encoder_witness :
  submit_handler Worked.artifacts_missing "Ann" Worked.answers true
    Fixture.form_shown
  = (StopException, put [st_error (EncoderNotFound "A3")] Fixture.form_shown).
Proof.
  apply (missing_encoder_aborts Worked.artifacts_missing "Ann" Worked.answers
           Fixture.form_shown 2 "A3");
    [reflexivity | simpl; lia | vm_compute; reflexivity |].
  intros j c a Hj Hc Ha.
  do 2 (destruct j as [|j];
        [simpl in Hc, Ha; simplify_eq; exists Fixture.encoder;
         split; [vm_compute; reflexivity | compute_done]|]).
  lia.
Defined.

(** X15 for the worked artifacts, whose encoders are the ones fitted
    on a column that holds each of A-E. *)
Lemma fitted_encoders_witness :
  (submit_handler Fixture.artifacts "Ann" Worked.answers true
     Fixture.form_shown).1 ≠ StopException ∧
  ∃ input_df rest,
    calls (submit_handler Fixture.artifacts "Ann" Worked.answers true
             Fixture.form_shown).2
    = calls Fixture.form_shown ++ call_predict input_df :: rest ∧
    ∀ k col a, feature_cols !! k = Some col → Worked.answers !! k = Some a →
      ∃ y v, label_encoders Fixture.artifacts !! col = Some (Train.fit y) ∧
             input_df !! k = Some (col, v) ∧
             merge_sort Train.string_le (remove_dups y) !! v = Some a.
Proof.
  apply (fitted_encoders_accept_their_columns Fixture.artifacts "Ann"
           Worked.answers Fixture.form_shown).
  intros k col a Hk Ha.
  do 5 (destruct k as [|k];
        [simpl in Hk, Ha; simplify_eq; exists Worked.column;
         split; [vm_compute; reflexivity | compute_done]|]).
  done.
Defined.

(** X17 for the entry the worked session hands to the recorder. *)
Lemma recorded_name_witness :
  ∃ user_name, Fixture.entry_row !! "Name" = Some user_name ∧ user_name ≠ "".
Proof.
  apply (recorded_name_is_not_empty Fixture.env Fixture.file Fixture.draws
           Worked.submitting Fixture.entry Fixture.entry_row).
  - apply (list_elem_of_lookup_2 _ 1). vm_compute. reflexivity.
  - apply (list_elem_of_lookup_2 _ 0). reflexivity.
Defined.

(** X18 for the worked session when the artifacts are missing. *)
Lemma load_failure_witness :
  (interact Worked.env_unloaded Fixture.enter_name
     (replay Worked.env_unloaded [no_input]
        (new_world Fixture.file Fixture.draws))).1 = StopException ∧
  (∃ n, page (interact Worked.env_unloaded Fixture.enter_name
                (replay Worked.env_unloaded [no_input]
                   (new_world Fixture.file Fixture.draws))).2
        = [st_error n]) ∧
  calls (interact Worked.env_unloaded Fixture.enter_name
           (replay Worked.env_unloaded [no_input]
              (new_world Fixture.file Fixture.draws))).2 = [] ∧
  disk (interact Worked.env_unloaded Fixture.enter_name
          (replay Worked.env_unloaded [no_input]
             (new_world Fixture.file Fixture.draws))).2 = Fixture.file ∧
  rng (interact Worked.env_unloaded Fixture.enter_name
         (replay Worked.env_unloaded [no_input]
            (new_world Fixture.file Fixture.draws))).2 = Fixture.draws.
Proof.
  apply (load_failure_stops_every_run Worked.env_unloaded Fixture.file
           Fixture.draws [no_input] Fixture.enter_name).
  left. reflexivity.
Defined.

(** X19 for the worked session after the saved submission. *)
Lemma result_view_witness :
  ∃ user_name predicted mid,
    predicted_character
      (session (replay Fixture.env Worked.submitting
                  (new_world Fixture.file Fixture.draws))) = Some predicted ∧
    user_name_display
      (session (replay Fixture.env Worked.submitting
                  (new_world Fixture.file Fixture.draws))) = Some user_name ∧
    (script_run Fixture.env no_input
       (replay Fixture.env Worked.submitting
          (new_world Fixture.file Fixture.draws))).1 = Finished ∧
    page (script_run Fixture.env no_input
            (replay Fixture.env Worked.submitting
               (new_world Fixture.file Fixture.draws))).2
    = st_success (YouAreMostLike user_name predicted) :: mid
      ++ [st_share_link predicted; st_button "Take Quiz Again"] ∧
    (∀ path caption, st_image path caption ∈ mid →
       path_exists Fixture.env path = true ∧
       image_opens Fixture.env path = true ∧
       caption = predicted +:+ ": " +:+ description predicted ∧
       (path = img_path_jpg predicted ∨
        path = img_path_png predicted ∧
        path_exists Fixture.env (img_path_jpg predicted) = false)) ∧
    (st_markdown (description predicted) ∈ mid ↔
     path_exists Fixture.env (img_path_jpg predicted) = false ∧
     path_exists Fixture.env (img_path_png predicted) = false).
Proof.
  apply (result_view_picture_lookup Fixture.env Fixture.file Fixture.draws
           Worked.submitting no_input Fixture.artifacts Fixture.questions);
    [reflexivity | reflexivity | vm_compute; reflexivity].
Defined.
